(** * Bolt session layer of FalkorDB: chunked buffer, framing, session state machine

    Shallow embedding of [src/bolt/buffer.c] and [src/bolt/bolt_client.c].

    - Machine integers are [Z] with the wrap-around of their C type written
      out ([wrap16], [wrap32], ...).
    - Bytes are [Z] in [0, 256); a chunk is a list of bytes; a buffer is the
      array of its chunks together with its two cursors.
    - A failed [ASSERT] and an access outside a chunk (or outside the chunk
      array) end the computation: functions that can do either return a
      [result]. The assertions that a pointer is not NULL have no
      counterpart, a record being always there.
    - The headers are not among the sources. The chunk size is a parameter;
      the fields of a cursor are integers, the offset wrapping at 32 bits
      where the code adds to it; the codec that writes PackStream
      structures and maps is a parameter giving the bytes it appends.
    - The socket functions are not among the sources either: a script of
      events stands for what [socket_read] meets, a list of outcomes for
      what [socket_write_all] meets, which the code tests for failure.
    - Loops carry a bound on their iterations, computed from their
      arguments; the properties show that it is never reached. *)

From Stdlib Require Import ZArith Lia List Bool.
From stdpp Require Import base tactics decidable option list.
Import ListNotations.

Local Open Scope Z_scope.

(** ** Outcomes of a call *)

Inductive fault : Type :=
| AssertFailed   (* an ASSERT of the source did not hold: the call traps *)
| OutOfBounds    (* access outside a chunk or outside the chunk array *)
| OutOfFuel.     (* the loop bound of the embedding was too small *)

Inductive result (A : Type) : Type :=
| Ok (a : A)
| Err (e : fault).

Arguments Ok {A} a.
Arguments Err {A} e.

Definition bind {A B : Type} (m : result A) (k : A -> result B) : result B :=
  match m with
  | Ok a => k a
  | Err e => Err e
  end.

Notation "'do' x <- m ; k" := (bind m (fun x => k))
  (at level 10, x pattern, m at level 100, k at level 200).
Notation "m ;; k" := (bind m (fun _ => k))
  (at level 100, k at level 200, right associativity).

(** [ASSERT(b)] of RG.h, as in a development build: the call traps when [b]
    is false. *)
Definition ASSERT (b : bool) : result unit :=
  if b then Ok tt else Err AssertFailed.

(** ** Enumerations of the protocol *)

Inductive bolt_state : Type :=
| BS_NEGOTIATION
| BS_AUTHENTICATION
| BS_READY
| BS_STREAMING
| BS_TX_READY
| BS_TX_STREAMING
| BS_FAILED
| BS_INTERRUPTED
| BS_DEFUNCT.

(** Requests and responses share one C enumeration. *)
Inductive bolt_structure_type : Type :=
| BST_HELLO
| BST_LOGON
| BST_LOGOFF
| BST_GOODBYE
| BST_RESET
| BST_RUN
| BST_DISCARD
| BST_PULL
| BST_BEGIN
| BST_COMMIT
| BST_ROLLBACK
| BST_ROUTE
| BST_SUCCESS
| BST_IGNORED
| BST_FAILURE
| BST_RECORD.

#[global] Instance bolt_state_eq_dec : EqDecision bolt_state.
Proof. solve_decision. Defined.

#[global] Instance bolt_structure_type_eq_dec : EqDecision bolt_structure_type.
Proof. solve_decision. Defined.

(** ** Cursors, buffers and the client session *)

(** A cursor [buffer_index_t]: chunk index and offset inside the chunk. The
    C struct also holds a pointer to the buffer that owns the cursor; here
    every cursor operation is given the chunk array of that buffer. *)
Record buffer_index_t : Type := mk_index {
  chunk : Z;
  offset : Z
}.

Record buffer_t : Type := mk_buffer {
  chunks : list (list Z);
  read : buffer_index_t;
  write : buffer_index_t
}.

(** [bolt_client_t]. The C field [write] (start of the current outbound
    message inside [write_buf]) is [client_write] here, since [write] names
    the buffer's own cursor. *)
Record bolt_client_t : Type := mk_client {
  socket : Z;
  state : bolt_state;
  ws : bool;
  reset : bool;
  processing : bool;
  shutdown : bool;
  ctx : Z;
  on_write : Z;
  read_buf : buffer_t;
  msg_buf : buffer_t;
  write_buf : buffer_t;
  client_write : buffer_index_t
}.

(** [client->state = s] *)
Definition set_state (client : bolt_client_t) (s : bolt_state) : bolt_client_t :=
  mk_client (socket client) s (ws client) (reset client) (processing client)
    (shutdown client) (ctx client) (on_write client) (read_buf client)
    (msg_buf client) (write_buf client) (client_write client).

(** ** The session state machine (bolt_client.c, lines 40-534) *)

Definition bolt_change_negotiation_state
  (client : bolt_client_t) (request_type response_type : bolt_structure_type)
  : result bolt_client_t :=
  ASSERT (bool_decide (state client = BS_NEGOTIATION)
          && bool_decide (request_type = BST_HELLO));;
  match response_type with
  | BST_SUCCESS => Ok (set_state client BS_AUTHENTICATION)
  | BST_FAILURE => Ok (set_state client BS_DEFUNCT)
  | _ => Err AssertFailed
  end.

Definition bolt_change_authentication_state
  (client : bolt_client_t) (request_type response_type : bolt_structure_type)
  : result bolt_client_t :=
  ASSERT (bool_decide (state client = BS_AUTHENTICATION)
          && bool_decide (request_type = BST_LOGON));;
  match response_type with
  | BST_SUCCESS => Ok (set_state client BS_READY)
  | BST_FAILURE => Ok (set_state client BS_DEFUNCT)
  | _ => Err AssertFailed
  end.

Definition bolt_change_ready_state
  (client : bolt_client_t) (request_type response_type : bolt_structure_type)
  : result bolt_client_t :=
  ASSERT (bool_decide (state client = BS_READY));;
  match request_type with
  | BST_LOGOFF =>
      match response_type with
      | BST_SUCCESS => Ok (set_state client BS_AUTHENTICATION)
      | BST_FAILURE => Ok (set_state client BS_FAILED)
      | _ => Err AssertFailed
      end
  | BST_RUN =>
      match response_type with
      | BST_SUCCESS => Ok (set_state client BS_STREAMING)
      | BST_FAILURE => Ok (set_state client BS_FAILED)
      | _ => Err AssertFailed
      end
  | BST_BEGIN =>
      match response_type with
      | BST_SUCCESS => Ok (set_state client BS_TX_READY)
      | BST_FAILURE => Ok (set_state client BS_FAILED)
      | _ => Err AssertFailed
      end
  | BST_ROUTE =>
      match response_type with
      | BST_SUCCESS => Ok (set_state client BS_READY)
      | _ => Err AssertFailed
      end
  | BST_RESET => Ok (set_state client BS_READY)
  | BST_GOODBYE => Ok (set_state client BS_DEFUNCT)
  | _ => Err AssertFailed
  end.

Definition bolt_change_streaming_state
  (client : bolt_client_t) (request_type response_type : bolt_structure_type)
  : result bolt_client_t :=
  ASSERT (bool_decide (state client = BS_STREAMING));;
  match request_type with
  | BST_PULL =>
      match response_type with
      | BST_SUCCESS => Ok (set_state client BS_READY)
      | BST_FAILURE => Ok (set_state client BS_FAILED)
      | _ => Err AssertFailed
      end
  | BST_DISCARD =>
      match response_type with
      | BST_SUCCESS => Ok (set_state client BS_READY)
      | BST_FAILURE => Ok (set_state client BS_FAILED)
      | _ => Err AssertFailed
      end
  | BST_RESET => Ok (set_state client BS_READY)
  | BST_GOODBYE => Ok (set_state client BS_DEFUNCT)
  | _ => Err AssertFailed
  end.

Definition bolt_change_txready_state
  (client : bolt_client_t) (request_type response_type : bolt_structure_type)
  : result bolt_client_t :=
  ASSERT (bool_decide (state client = BS_TX_READY));;
  match request_type with
  | BST_RUN =>
      match response_type with
      | BST_SUCCESS => Ok (set_state client BS_TX_STREAMING)
      | BST_FAILURE => Ok (set_state client BS_FAILED)
      | _ => Err AssertFailed
      end
  | BST_COMMIT =>
      match response_type with
      | BST_SUCCESS => Ok (set_state client BS_READY)
      | BST_FAILURE => Ok (set_state client BS_FAILED)
      | _ => Err AssertFailed
      end
  | BST_ROLLBACK =>
      match response_type with
      | BST_SUCCESS => Ok (set_state client BS_READY)
      | BST_FAILURE => Ok (set_state client BS_FAILED)
      | _ => Err AssertFailed
      end
  | BST_RESET => Ok (set_state client BS_READY)
  | BST_GOODBYE => Ok (set_state client BS_DEFUNCT)
  | _ => Err AssertFailed
  end.

Definition bolt_change_txstreaming_state
  (client : bolt_client_t) (request_type response_type : bolt_structure_type)
  : result bolt_client_t :=
  ASSERT (bool_decide (state client = BS_TX_STREAMING));;
  match request_type with
  | BST_RUN =>
      match response_type with
      | BST_SUCCESS => Ok (set_state client BS_TX_STREAMING)
      | BST_FAILURE => Ok (set_state client BS_FAILED)
      | _ => Err AssertFailed
      end
  | BST_PULL =>
      match response_type with
      | BST_SUCCESS => Ok (set_state client BS_TX_STREAMING)
      | BST_FAILURE => Ok (set_state client BS_FAILED)
      | _ => Err AssertFailed
      end
  | BST_COMMIT =>
      match response_type with
      | BST_SUCCESS => Ok (set_state client BS_READY)
      | BST_FAILURE => Ok (set_state client BS_FAILED)
      | _ => Err AssertFailed
      end
  | BST_DISCARD =>
      match response_type with
      | BST_SUCCESS => Ok (set_state client BS_TX_READY)
      | BST_FAILURE => Ok (set_state client BS_FAILED)
      | _ => Err AssertFailed
      end
  | BST_RESET => Ok (set_state client BS_READY)
  | BST_GOODBYE => Ok (set_state client BS_DEFUNCT)
  | _ => Err AssertFailed
  end.

Definition bolt_change_failed_state
  (client : bolt_client_t) (request_type response_type : bolt_structure_type)
  : result bolt_client_t :=
  ASSERT (bool_decide (state client = BS_FAILED));;
  match request_type with
  | BST_RUN =>
      match response_type with
      | BST_IGNORED => Ok (set_state client BS_FAILED)
      | _ => Err AssertFailed
      end
  | BST_PULL =>
      match response_type with
      | BST_IGNORED => Ok (set_state client BS_FAILED)
      | _ => Err AssertFailed
      end
  | BST_DISCARD =>
      match response_type with
      | BST_IGNORED => Ok (set_state client BS_FAILED)
      | _ => Err AssertFailed
      end
  | BST_RESET => Ok (set_state client BS_READY)
  | BST_GOODBYE => Ok (set_state client BS_DEFUNCT)
  | _ => Err AssertFailed
  end.

Definition bolt_change_interrupted_state
  (client : bolt_client_t) (request_type response_type : bolt_structure_type)
  : result bolt_client_t :=
  ASSERT (bool_decide (state client = BS_INTERRUPTED));;
  match request_type with
  | BST_RUN =>
      match response_type with
      | BST_IGNORED => Ok (set_state client BS_FAILED)
      | _ => Err AssertFailed
      end
  | BST_PULL =>
      match response_type with
      | BST_IGNORED => Ok (set_state client BS_FAILED)
      | _ => Err AssertFailed
      end
  | BST_DISCARD =>
      match response_type with
      | BST_IGNORED => Ok (set_state client BS_FAILED)
      | _ => Err AssertFailed
      end
  | BST_BEGIN =>
      match response_type with
      | BST_IGNORED => Ok (set_state client BS_FAILED)
      | _ => Err AssertFailed
      end
  | BST_COMMIT =>
      match response_type with
      | BST_IGNORED => Ok (set_state client BS_FAILED)
      | _ => Err AssertFailed
      end
  | BST_ROLLBACK =>
      match response_type with
      | BST_IGNORED => Ok (set_state client BS_FAILED)
      | _ => Err AssertFailed
      end
  | BST_RESET =>
      match response_type with
      | BST_SUCCESS => Ok (set_state client BS_READY)
      | BST_FAILURE => Ok (set_state client BS_DEFUNCT)
      | _ => Err AssertFailed
      end
  | BST_GOODBYE => Ok (set_state client BS_DEFUNCT)
  | _ => Err AssertFailed
  end.

Definition bolt_change_client_state
  (client : bolt_client_t) (request_type response_type : bolt_structure_type)
  : result bolt_client_t :=
  if bool_decide (response_type = BST_RECORD) then Ok client
  else
    match state client with
    | BS_NEGOTIATION => bolt_change_negotiation_state client request_type response_type
    | BS_AUTHENTICATION => bolt_change_authentication_state client request_type response_type
    | BS_READY => bolt_change_ready_state client request_type response_type
    | BS_STREAMING => bolt_change_streaming_state client request_type response_type
    | BS_TX_READY => bolt_change_txready_state client request_type response_type
    | BS_TX_STREAMING => bolt_change_txstreaming_state client request_type response_type
    | BS_FAILED => bolt_change_failed_state client request_type response_type
    | BS_INTERRUPTED => bolt_change_interrupted_state client request_type response_type
    | BS_DEFUNCT => Err AssertFailed
    end.

(** The transition table of the specification (section 4.4), row by row;
    [None] for a triple the table does not list. A starred response stands
    for any response. *)
Definition transition_table
  (s : bolt_state) (request response : bolt_structure_type) : option bolt_state :=
  match s, request, response with
  | BS_NEGOTIATION, BST_HELLO, BST_SUCCESS => Some BS_AUTHENTICATION
  | BS_NEGOTIATION, BST_HELLO, BST_FAILURE => Some BS_DEFUNCT
  | BS_AUTHENTICATION, BST_LOGON, BST_SUCCESS => Some BS_READY
  | BS_AUTHENTICATION, BST_LOGON, BST_FAILURE => Some BS_DEFUNCT
  | BS_READY, BST_LOGOFF, BST_SUCCESS => Some BS_AUTHENTICATION
  | BS_READY, BST_LOGOFF, BST_FAILURE => Some BS_FAILED
  | BS_READY, BST_RUN, BST_SUCCESS => Some BS_STREAMING
  | BS_READY, BST_RUN, BST_FAILURE => Some BS_FAILED
  | BS_READY, BST_BEGIN, BST_SUCCESS => Some BS_TX_READY
  | BS_READY, BST_BEGIN, BST_FAILURE => Some BS_FAILED
  | BS_READY, BST_ROUTE, BST_SUCCESS => Some BS_READY
  | BS_READY, BST_RESET, _ => Some BS_READY
  | BS_READY, BST_GOODBYE, _ => Some BS_DEFUNCT
  | BS_STREAMING, (BST_PULL | BST_DISCARD), BST_SUCCESS => Some BS_READY
  | BS_STREAMING, (BST_PULL | BST_DISCARD), BST_FAILURE => Some BS_FAILED
  | BS_STREAMING, BST_RESET, _ => Some BS_READY
  | BS_STREAMING, BST_GOODBYE, _ => Some BS_DEFUNCT
  | BS_TX_READY, BST_RUN, BST_SUCCESS => Some BS_TX_STREAMING
  | BS_TX_READY, BST_RUN, BST_FAILURE => Some BS_FAILED
  | BS_TX_READY, (BST_COMMIT | BST_ROLLBACK), BST_SUCCESS => Some BS_READY
  | BS_TX_READY, (BST_COMMIT | BST_ROLLBACK), BST_FAILURE => Some BS_FAILED
  | BS_TX_READY, BST_RESET, _ => Some BS_READY
  | BS_TX_READY, BST_GOODBYE, _ => Some BS_DEFUNCT
  | BS_TX_STREAMING, BST_RUN, BST_SUCCESS => Some BS_TX_STREAMING
  | BS_TX_STREAMING, BST_RUN, BST_FAILURE => Some BS_FAILED
  | BS_TX_STREAMING, BST_PULL, BST_SUCCESS => Some BS_TX_STREAMING
  | BS_TX_STREAMING, BST_PULL, BST_FAILURE => Some BS_FAILED
  | BS_TX_STREAMING, BST_DISCARD, BST_SUCCESS => Some BS_TX_READY
  | BS_TX_STREAMING, BST_DISCARD, BST_FAILURE => Some BS_FAILED
  | BS_TX_STREAMING, BST_COMMIT, BST_SUCCESS => Some BS_READY
  | BS_TX_STREAMING, BST_COMMIT, BST_FAILURE => Some BS_FAILED
  | BS_TX_STREAMING, BST_RESET, _ => Some BS_READY
  | BS_TX_STREAMING, BST_GOODBYE, _ => Some BS_DEFUNCT
  | BS_FAILED, (BST_RUN | BST_PULL | BST_DISCARD), BST_IGNORED => Some BS_FAILED
  | BS_FAILED, BST_RESET, _ => Some BS_READY
  | BS_FAILED, BST_GOODBYE, _ => Some BS_DEFUNCT
  | BS_INTERRUPTED,
    (BST_RUN | BST_PULL | BST_DISCARD | BST_BEGIN | BST_COMMIT | BST_ROLLBACK),
    BST_IGNORED => Some BS_FAILED
  | BS_INTERRUPTED, BST_RESET, BST_SUCCESS => Some BS_READY
  | BS_INTERRUPTED, BST_RESET, BST_FAILURE => Some BS_DEFUNCT
  | BS_INTERRUPTED, BST_GOODBYE, _ => Some BS_DEFUNCT
  | _, _, _ => None
  end.

(** What a transition leaves alone: every field of the session but [state]. *)
Definition same_but_state (c c' : bolt_client_t) : Prop :=
  socket c' = socket c /\ ws c' = ws c /\ reset c' = reset c /\
  processing c' = processing c /\ shutdown c' = shutdown c /\
  ctx c' = ctx c /\ on_write c' = on_write c /\
  read_buf c' = read_buf c /\ msg_buf c' = msg_buf c /\
  write_buf c' = write_buf c /\ client_write c' = client_write c.

(** The transitions for a sequence of (request, response) pairs, in order:
    what the replies to successive requests do to the session. *)
Fixpoint bolt_change_client_states (client : bolt_client_t)
  (l : list (bolt_structure_type * bolt_structure_type))
  : result bolt_client_t :=
  match l with
  | [] => Ok client
  | (request_type, response_type) :: l' =>
      do c1 <- bolt_change_client_state client request_type response_type;
      bolt_change_client_states c1 l'
  end.

(** The states in which a session has not completed HELLO and LOGON, or is
    closed. *)
Definition before_login (s : bolt_state) : bool :=
  match s with
  | BS_NEGOTIATION | BS_AUTHENTICATION | BS_DEFUNCT => true
  | _ => false
  end.

(** A session whose three buffers have one chunk of 4096 zero bytes, with
    the given state, WebSocket flag and cursors into the write buffer; the
    concrete instances of the properties are stated on it. *)
Definition example_chunk : list Z := replicate (Z.to_nat 4096) 0.

Definition example_client (s : bolt_state) (w : bool)
  (wr cw : buffer_index_t) : bolt_client_t :=
  mk_client 7 s w false false false 0 0
    (mk_buffer [example_chunk] (mk_index 0 0) (mk_index 0 0))
    (mk_buffer [example_chunk] (mk_index 0 0) (mk_index 0 0))
    (mk_buffer [example_chunk] (mk_index 0 0) wr) cw.

(** A chunk that starts with the given bytes and holds the byte 9 after
    them, and a session whose write buffer is this chunk. *)
Definition example_chunk_of (bytes : list Z) : list Z :=
  bytes ++ replicate (Z.to_nat 4096 - length bytes) 9.

Definition example_client_of (s : bolt_state) (w : bool) (bytes : list Z)
  (wr cw : buffer_index_t) : bolt_client_t :=
  mk_client 7 s w false false false 0 0
    (mk_buffer [example_chunk] (mk_index 0 0) (mk_index 0 0))
    (mk_buffer [example_chunk] (mk_index 0 0) (mk_index 0 0))
    (mk_buffer [example_chunk_of bytes] (mk_index 0 0) wr) cw.

(** PackStream's bytes for a structure header and a map header of fewer
    than sixteen entries, for the instances that need a codec. *)
Definition example_structure_bytes (t : bolt_structure_type) (n : Z) : list Z :=
  [176 + n;
   match t with
   | BST_SUCCESS => 112 | BST_IGNORED => 126
   | BST_FAILURE => 127 | _ => 113
   end].

Definition example_map_bytes (n : Z) : list Z := [160 + n].

(** ** Machine integers *)

Definition wrap8 (x : Z) : Z := x mod 2 ^ 8.
Definition wrap16 (x : Z) : Z := x mod 2 ^ 16.
Definition wrap32 (x : Z) : Z := x mod 2 ^ 32.
Definition wrap64 (x : Z) : Z := x mod 2 ^ 64.

(** Little-endian bytes of the [n]-byte scalar [v], and back. *)
Fixpoint le_bytes (n : nat) (v : Z) : list Z :=
  match n with
  | O => []
  | S n' => v mod 256 :: le_bytes n' (v / 256)
  end.

Fixpoint le_value (bs : list Z) : Z :=
  match bs with
  | [] => 0
  | b :: bs' => b + 256 * le_value bs'
  end.

Definition zlen {A : Type} (l : list A) : Z := Z.of_nat (length l).

(** ** The socket, as this connection sees it

    A script of events stands for the non-blocking reads: its i-th entry is
    what the i-th call of [socket_read] that asks for at least one byte
    gets. For the blocking writes the socket keeps the bytes it has taken
    and the outcomes of the coming calls of [socket_write_all]. *)

Inductive sock_event : Type :=
| SockError                   (* socket_read returns a negative value *)
| SockEOF                     (* socket_read returns 0 *)
| SockData (bytes : list Z).  (* socket_read delivers these bytes *)

(** [socket_read(socket, ptr, size)]: the returned count, the bytes stored
    at [ptr], the rest of the script. Data longer than [size] is delivered
    in part and the remainder stays queued; an exhausted script has nothing
    pending, which a non-blocking read reports with a negative value. *)
Definition socket_read (sk : list sock_event) (size : Z)
  : Z * list Z * list sock_event :=
  if size <=? 0 then (0, [], sk)
  else
    match sk with
    | [] => (-1, [], [])
    | SockError :: sk' => (-1, [], sk')
    | SockEOF :: sk' => (0, [], sk')
    | SockData bs :: sk' =>
        if zlen bs <=? size then (zlen bs, bs, sk')
        else (size, take (Z.to_nat size) bs,
              SockData (drop (Z.to_nat size) bs) :: sk')
    end.

(** Number of bytes and events still scripted: bounds the reads of one
    drain. *)
Fixpoint sock_pending (sk : list sock_event) : nat :=
  match sk with
  | [] => O
  | SockData bs :: sk' => S (length bs + sock_pending sk')
  | _ :: sk' => S (sock_pending sk')
  end.

(** The sending side: [sent] are the bytes the socket has taken so far,
    [outcomes] what the coming calls of [socket_write_all] meet: [None] a
    call that sends all it is given, [Some k] a call that fails after [k]
    bytes. Once the list is over every call succeeds. *)
Record sock_out : Type := mk_sock_out {
  sent : list Z;
  outcomes : list (option nat)
}.

(** Modelled from the spec: [socket_write_all(socket, ptr, size)] belongs
    to socket.c, which is not among the sources; it returns a [bool], which
    [buffer_socket_write] tests. Here: the socket after the call and
    whether all the bytes were sent. *)
Definition socket_write_all (sk : sock_out) (data : list Z) : sock_out * bool :=
  match outcomes sk with
  | [] => (mk_sock_out (sent sk ++ data) [], true)
  | None :: rest => (mk_sock_out (sent sk ++ data) rest, true)
  | Some k :: rest => (mk_sock_out (sent sk ++ take k data) rest, false)
  end.

(** A socket on which no coming write fails. *)
Definition no_fault (sk : sock_out) : Prop :=
  Forall (fun o => o = None) (outcomes sk).

(** A socket on which the next [n] writes succeed. *)
Definition writes_pass (n : nat) (sk : sock_out) : Prop :=
  Forall (fun o => o = None) (take n (outcomes sk)).

(** The frame payload length announced by a WebSocket frame header, as
    section 4.2 of the specification describes it (RFC 6455): the low seven
    bits of the second byte, or the following 16-bit or 64-bit big-endian
    field when those bits are 126 or 127. [hdr] starts at the first byte of
    the frame. *)
Definition ws_payload_length (hdr : list Z) : option Z :=
  match hdr with
  | _ :: b1 :: rest =>
      let len7 := Z.land b1 127 in
      if len7 <? 126 then Some len7
      else if len7 =? 126 then
        match rest with
        | e0 :: e1 :: _ => Some (e0 * 256 + e1)
        | _ => None
        end
      else
        if (8 <=? length rest)%nat then Some (le_value (rev (take 8 rest)))
        else None
  | _ => None
  end.

(** Whether the second header byte announces a masked payload. *)
Definition ws_masked (hdr : list Z) : option bool :=
  match hdr with
  | _ :: b1 :: _ => Some (Z.testbit b1 7)
  | _ => None
  end.

(** One Bolt message carrying [payload] in a single chunk, as laid out in
    sections 4.3 and 6 of the specification: big-endian 16-bit length,
    payload, zero-length terminator chunk. *)
Definition bolt_message (payload : list Z) : list Z :=
  [zlen payload / 256; zlen payload mod 256] ++ payload ++ [0; 0].

(** Scalars of the typed buffer interface. *)
Inductive scalar : Type :=
| U8 (v : Z)
| U16 (v : Z)
| U32 (v : Z)
| U64 (v : Z).





Section Bolt.

(** [BUFFER_CHUNK_SIZE] of buffer.h, which is not among the sources: a
    parameter. *)
Variable BUFFER_CHUNK_SIZE : Z.

(** The byte found in memory that [rm_malloc] returns (C leaves it
    unspecified). *)
Variable heap_byte : Z.

(** Byte order of the host. *)
Variable big_endian : bool.

(** Modelled from the spec: the PackStream codec (bolt.c) is not among the
    sources. [structure_bytes t n] are the bytes [bolt_reply_structure]
    appends to the write buffer for a structure of tag [t] with [n] fields
    (marker with the field count, then the tag byte); [map_bytes n] those
    that [bolt_reply_map] appends for a map of [n] entries. *)
Variable structure_bytes : bolt_structure_type -> Z -> list Z.
Variable map_bytes : Z -> list Z.

(** *** Host representation of scalars *)

Definition host_bytes (n : nat) (v : Z) : list Z :=
  if big_endian then rev (le_bytes n v) else le_bytes n v.

Definition host_value (bs : list Z) : Z :=
  le_value (if big_endian then rev bs else bs).

Definition htons (v : Z) : Z :=
  if big_endian then wrap16 v
  else (wrap16 v mod 256) * 256 + wrap16 v / 256.

(** *** Chunks *)

(** [rm_malloc(BUFFER_CHUNK_SIZE)] *)
Definition rm_malloc_chunk : list Z :=
  replicate (Z.to_nat BUFFER_CHUNK_SIZE) heap_byte.

(** [array_len(buf->chunks)] *)
Definition array_len (chs : list (list Z)) : Z := zlen chs.

(** [memcpy(chunks[c] + o, data, |data|)] *)
Definition chunk_store (chs : list (list Z)) (c o : Z) (data : list Z)
  : result (list (list Z)) :=
  if (c <? 0) || (o <? 0) then Err OutOfBounds
  else
    match chs !! Z.to_nat c with
    | None => Err OutOfBounds
    | Some ch =>
        if o + zlen data <=? zlen ch
        then Ok (<[Z.to_nat c := list_inserts (Z.to_nat o) data ch]> chs)
        else Err OutOfBounds
    end.

(** The [size] bytes at [chunks[c] + o]. *)
Definition chunk_load (chs : list (list Z)) (c o size : Z) : result (list Z) :=
  if (c <? 0) || (o <? 0) || (size <? 0) then Err OutOfBounds
  else
    match chs !! Z.to_nat c with
    | None => Err OutOfBounds
    | Some ch =>
        if o + size <=? zlen ch
        then Ok (take (Z.to_nat size) (drop (Z.to_nat o) ch))
        else Err OutOfBounds
    end.

(** *** Cursors (buffer.c, lines 10-67) *)

Definition buffer_index (chs : list (list Z)) (off : Z) : result buffer_index_t :=
  let off := wrap32 off in
  ASSERT (off <? wrap32 (BUFFER_CHUNK_SIZE * array_len chs));;
  Ok (mk_index (off / BUFFER_CHUNK_SIZE) (off mod BUFFER_CHUNK_SIZE)).

Definition buffer_index_add (index : buffer_index_t) (off : Z) : buffer_index_t :=
  let o := wrap32 (offset index + off) in
  if BUFFER_CHUNK_SIZE <? o
  then mk_index (chunk index + o / BUFFER_CHUNK_SIZE) (o mod BUFFER_CHUNK_SIZE)
  else mk_index (chunk index) o.

Definition buffer_index_diff (a b : buffer_index_t) : Z :=
  wrap16 (wrap32 ((chunk a - chunk b) * BUFFER_CHUNK_SIZE
                  + wrap32 (offset a - offset b))).

(** [buffer_index_read]: the pointer it returns is the cursor before the
    advance; [wr] is the write cursor of the buffer the cursor belongs to. *)
Definition buffer_index_read (wr index : buffer_index_t) (size : Z)
  : result (buffer_index_t * buffer_index_t) :=
  ASSERT (size <=? buffer_index_diff wr index);;
  Ok (index, buffer_index_add index size).

(** *** Typed reads (buffer.c, lines 82-120): the scalar is read where the
    pointer points, inside that one chunk. *)

Definition buffer_read_uint (width : Z) (chs : list (list Z))
  (wr buf : buffer_index_t) : result (Z * buffer_index_t) :=
  do (ptr, buf') <- buffer_index_read wr buf width;
  do bytes <- chunk_load chs (chunk ptr) (offset ptr) width;
  Ok (host_value bytes, buf').

Definition buffer_read_uint8 := buffer_read_uint 1.
Definition buffer_read_uint16 := buffer_read_uint 2.
Definition buffer_read_uint32 := buffer_read_uint 4.
Definition buffer_read_uint64 := buffer_read_uint 8.

(** *** Bulk write (buffer.c, lines 258-283) *)

Fixpoint buffer_write_loop (fuel : nat) (chs : list (list Z))
  (buf : buffer_index_t) (data : list Z)
  : result (list (list Z) * buffer_index_t) :=
  match fuel with
  | O => Err OutOfFuel
  | S fuel' =>
      let size := wrap32 (zlen data) in
      if BUFFER_CHUNK_SIZE <? wrap32 (offset buf + size) then
        let first_chunk_size := wrap32 (BUFFER_CHUNK_SIZE - offset buf) in
        do chs1 <- chunk_store chs (chunk buf) (offset buf)
                     (take (Z.to_nat first_chunk_size) data);
        let buf1 := buffer_index_add buf first_chunk_size in
        let buf2 := mk_index (chunk buf1 + 1) 0 in
        let chs2 := if array_len chs1 =? chunk buf2
                    then chs1 ++ [rm_malloc_chunk] else chs1 in
        buffer_write_loop fuel' chs2 buf2 (drop (Z.to_nat first_chunk_size) data)
      else
        do chs1 <- chunk_store chs (chunk buf) (offset buf) data;
        Ok (chs1, buffer_index_add buf size)
  end.

Definition buffer_write (chs : list (list Z)) (buf : buffer_index_t)
  (data : list Z) : result (list (list Z) * buffer_index_t) :=
  buffer_write_loop (S (S (length data))) chs buf data.

(** *** Typed writes (buffer.c, lines 214-256) *)

Definition buffer_write_uint8 chs buf (value : Z) :=
  buffer_write chs buf (host_bytes 1 (wrap8 value)).
Definition buffer_write_uint16 chs buf (value : Z) :=
  buffer_write chs buf (host_bytes 2 (wrap16 value)).
Definition buffer_write_uint32 chs buf (value : Z) :=
  buffer_write chs buf (host_bytes 4 (wrap32 value)).
Definition buffer_write_uint64 chs buf (value : Z) :=
  buffer_write chs buf (host_bytes 8 (wrap64 value)).

(** *** Bulk copy between two buffers (buffer.c, lines 122-166) *)

Fixpoint buffer_read_loop (fuel : nat) (src_chs : list (list Z))
  (buf : buffer_index_t) (dst_chs : list (list Z)) (dst : buffer_index_t)
  (size : Z) : result (buffer_index_t * list (list Z) * buffer_index_t) :=
  match fuel with
  | O => Err OutOfFuel
  | S fuel' =>
      if 0 <? size then
        let dst_available_size := wrap32 (BUFFER_CHUNK_SIZE - offset dst) in
        let src_available_size := wrap32 (BUFFER_CHUNK_SIZE - offset buf) in
        if (size <? src_available_size) && (size <? dst_available_size) then
          do data <- chunk_load src_chs (chunk buf) (offset buf) size;
          do dst_chs1 <- chunk_store dst_chs (chunk dst) (offset dst) data;
          Ok (buffer_index_add buf size, dst_chs1, buffer_index_add dst size)
        else if src_available_size <? dst_available_size then
          do data <- chunk_load src_chs (chunk buf) (offset buf) src_available_size;
          do dst_chs1 <- chunk_store dst_chs (chunk dst) (offset dst) data;
          buffer_read_loop fuel' src_chs
            (mk_index (chunk buf + 1) 0)
            dst_chs1
            (mk_index (chunk dst) (wrap32 (offset dst + src_available_size)))
            (wrap32 (size - src_available_size))
        else
          do data <- chunk_load src_chs (chunk buf) (offset buf) dst_available_size;
          do dst_chs1 <- chunk_store dst_chs (chunk dst) (offset dst) data;
          let dst1 := mk_index (chunk dst + 1) 0 in
          let dst_chs2 := if array_len dst_chs1 =? chunk dst1
                          then dst_chs1 ++ [rm_malloc_chunk] else dst_chs1 in
          buffer_read_loop fuel' src_chs
            (mk_index (chunk buf) (wrap32 (offset buf + dst_available_size)))
            dst_chs2 dst1
            (wrap32 (size - dst_available_size))
      else Ok (buf, dst_chs, dst)
  end.

(** [buffer_read(buf, dst, size)]: [src_wr] is the write cursor of the
    source buffer. Returns the advanced source cursor, the chunks of the
    destination buffer and the advanced destination cursor. *)
Definition buffer_read (src_chs : list (list Z)) (src_wr buf : buffer_index_t)
  (dst_chs : list (list Z)) (dst : buffer_index_t) (size : Z)
  : result (buffer_index_t * list (list Z) * buffer_index_t) :=
  ASSERT (size <=? buffer_index_diff src_wr buf);;
  buffer_read_loop (3 * Z.to_nat size + 3) src_chs buf dst_chs dst size.

(** *** Socket fill and drain (buffer.c, lines 168-212) *)

Fixpoint buffer_socket_read_loop (fuel : nat) (chs : list (list Z))
  (wr : buffer_index_t) (sk : list sock_event)
  : result (list (list Z) * buffer_index_t * list sock_event * bool) :=
  match fuel with
  | O => Err OutOfFuel
  | S fuel' =>
      if offset wr =? BUFFER_CHUNK_SIZE then
        let wr1 := mk_index (chunk wr + 1) 0 in
        let chs1 := chs ++ [rm_malloc_chunk] in
        let '(nread, data, sk1) := socket_read sk BUFFER_CHUNK_SIZE in
        do chs2 <- chunk_store chs1 (chunk wr1) 0 data;
        if nread <? 0 then Ok (chs2, wr1, sk1, false)
        else buffer_socket_read_loop fuel' chs2 (buffer_index_add wr1 nread) sk1
      else Ok (chs, wr, sk, true)
  end.

(** [buffer_socket_read(buf, socket)]: the buffer after the call, the rest
    of the socket script, the returned flag. *)
Definition buffer_socket_read (buf : buffer_t) (sk : list sock_event)
  : result (buffer_t * list sock_event * bool) :=
  let wr := write buf in
  let '(nread, data, sk1) :=
    socket_read sk (BUFFER_CHUNK_SIZE - offset wr) in
  do chs1 <- chunk_store (chunks buf) (chunk wr) (offset wr) data;
  if (nread <? 0) || ((nread =? 0) && (offset wr <? BUFFER_CHUNK_SIZE))
  then Ok (mk_buffer chs1 (read buf) wr, sk1, false)
  else
    do (chs2, wr2, sk2, ok) <-
      buffer_socket_read_loop (S (sock_pending sk1)) chs1
        (buffer_index_add wr nread) sk1;
    Ok (mk_buffer chs2 (read buf) wr2, sk2, ok).

(** The loop of [buffer_socket_write]: [socket_write_all] for each full
    chunk below the cursor's; the flag is [false] when a call failed, and
    the loop was left there. *)
Fixpoint socket_write_chunks (chs : list (list Z)) (idxs : list nat)
  (sk : sock_out) : result (sock_out * bool) :=
  match idxs with
  | [] => Ok (sk, true)
  | i :: idxs' =>
      do data <- chunk_load chs (Z.of_nat i) 0 BUFFER_CHUNK_SIZE;
      let (sk1, ok) := socket_write_all sk data in
      if ok then socket_write_chunks chs idxs' sk1 else Ok (sk1, false)
  end.

(** [buffer_socket_write(buf, socket)]: the socket after the call and the
    returned flag. *)
Definition buffer_socket_write (chs : list (list Z)) (buf : buffer_index_t)
  (sk : sock_out) : result (sock_out * bool) :=
  do (sk1, ok) <- socket_write_chunks chs (seq 0 (Z.to_nat (chunk buf))) sk;
  if ok then
    do data <- chunk_load chs (chunk buf) 0 (offset buf);
    Ok (socket_write_all sk1 data)
  else Ok (sk1, false).

(** [buffer_new] *)
Definition buffer_new : result buffer_t :=
  let chs := [rm_malloc_chunk] in
  do r <- buffer_index chs 0;
  do w <- buffer_index chs 0;
  Ok (mk_buffer chs r w).

(** *** The client session (bolt_client.c) *)

Definition set_read_buf (client : bolt_client_t) (b : buffer_t) : bolt_client_t :=
  mk_client (socket client) (state client) (ws client) (reset client)
    (processing client) (shutdown client) (ctx client) (on_write client)
    b (msg_buf client) (write_buf client) (client_write client).

Definition set_write_buf (client : bolt_client_t) (b : buffer_t) : bolt_client_t :=
  mk_client (socket client) (state client) (ws client) (reset client)
    (processing client) (shutdown client) (ctx client) (on_write client)
    (read_buf client) (msg_buf client) b (client_write client).

Definition set_client_write (client : bolt_client_t) (i : buffer_index_t)
  : bolt_client_t :=
  mk_client (socket client) (state client) (ws client) (reset client)
    (processing client) (shutdown client) (ctx client) (on_write client)
    (read_buf client) (msg_buf client) (write_buf client) i.

Definition set_reset (client : bolt_client_t) (b : bool) : bolt_client_t :=
  mk_client (socket client) (state client) (ws client) b
    (processing client) (shutdown client) (ctx client) (on_write client)
    (read_buf client) (msg_buf client) (write_buf client) (client_write client).

(** A write [f] through the cursor [&client->write_buf.write]. *)
Definition at_write_buf_write (client : bolt_client_t)
  (f : list (list Z) -> buffer_index_t -> result (list (list Z) * buffer_index_t))
  : result bolt_client_t :=
  let wb := write_buf client in
  do (chs, w) <- f (chunks wb) (write wb);
  Ok (set_write_buf client (mk_buffer chs (read wb) w)).

(** A write [f] through the cursor [&client->write], which points into
    [client->write_buf]. *)
Definition at_client_write (client : bolt_client_t)
  (f : list (list Z) -> buffer_index_t -> result (list (list Z) * buffer_index_t))
  : result bolt_client_t :=
  let wb := write_buf client in
  do (chs, w) <- f (chunks wb) (client_write client);
  Ok (set_client_write
        (set_write_buf client (mk_buffer chs (read wb) (write wb))) w).

(** [buffer_index(&client->write_buf, &client->write, a);
     buffer_index(&client->write_buf, &client->write_buf.write, b);] *)
Definition client_rewind (client : bolt_client_t) (a b : Z) : result bolt_client_t :=
  let wb := write_buf client in
  do ia <- buffer_index (chunks wb) a;
  do ib <- buffer_index (chunks wb) b;
  Ok (set_write_buf (set_client_write client ia) (mk_buffer (chunks wb) (read wb) ib)).

Definition bolt_client_new (sock ctx0 on_write0 : Z) : result bolt_client_t :=
  ASSERT (0 <? sock);;
  ASSERT (negb (ctx0 =? 0));;
  ASSERT (negb (on_write0 =? 0));;
  do msg <- buffer_new;
  do rd <- buffer_new;
  do wb <- buffer_new;
  do cw <- buffer_index (chunks wb) 0;
  do (chs, w) <- buffer_write_uint16 (chunks wb) (write wb) (htons 0);
  Ok (mk_client sock BS_NEGOTIATION false false false false ctx0 on_write0
        rd msg (mk_buffer chs (read wb) w) cw).

Definition bolt_reply_structure (client : bolt_client_t)
  (type : bolt_structure_type) (size : Z) : result bolt_client_t :=
  at_write_buf_write client (fun chs i => buffer_write chs i (structure_bytes type size)).

Definition bolt_reply_map (client : bolt_client_t) (size : Z) : result bolt_client_t :=
  at_write_buf_write client (fun chs i => buffer_write chs i (map_bytes size)).

Definition bolt_client_reply_for (client : bolt_client_t)
  (request_type response_type : bolt_structure_type) (size : Z)
  : result bolt_client_t :=
  do c1 <- bolt_reply_structure client response_type size;
  bolt_change_client_state c1 request_type response_type.

Definition bolt_client_end_message (client : bolt_client_t) : result bolt_client_t :=
  let n := wrap16 (buffer_index_diff (write (write_buf client)) (client_write client) - 2) in
  do (c1, n1) <-
    (if ws client then
       do ca <- at_client_write client (fun chs i => buffer_write_uint8 chs i 0x82);
       do cb <- at_client_write ca (fun chs i => buffer_write_uint8 chs i (n + 2));
       Ok (cb, wrap16 (n - 2))
     else Ok (client, n));
  do c2 <- at_client_write c1 (fun chs i => buffer_write_uint16 chs i (htons n1));
  do c3 <- at_write_buf_write c2 (fun chs i => buffer_write_uint8 chs i 0x00);
  do c4 <- at_write_buf_write c3 (fun chs i => buffer_write_uint8 chs i 0x00);
  let c5 := set_client_write c4 (write (write_buf c4)) in
  do c6 <- at_write_buf_write c5 (fun chs i => buffer_write_uint16 chs i 0x0000);
  if ws client
  then at_write_buf_write c6 (fun chs i => buffer_write_uint16 chs i 0x0000)
  else Ok c6.

(** Lines 602-609 (and 615-622, 626-633) of [bolt_client_send]: backfill
    the chunk length, append the terminator, hand the buffer up to the
    write cursor to the socket, rewind both cursors. *)
Definition send_reset_reply (client : bolt_client_t) (sk : sock_out)
  : result (bolt_client_t * sock_out) :=
  let n := wrap16 (buffer_index_diff (write (write_buf client)) (client_write client) - 2) in
  do c1 <- at_client_write client (fun chs i => buffer_write_uint16 chs i (htons n));
  do c2 <- at_write_buf_write c1 (fun chs i => buffer_write_uint8 chs i 0x00);
  do c3 <- at_write_buf_write c2 (fun chs i => buffer_write_uint8 chs i 0x00);
  do (sk1, _) <- buffer_socket_write (chunks (write_buf c3)) (write (write_buf c3)) sk;
  do c4 <- client_rewind c3 0 2;
  Ok (c4, sk1).

(** [bolt_client_send], with the socket before and after. *)
Definition bolt_client_send (client : bolt_client_t) (sk : sock_out)
  : result (bolt_client_t * sock_out) :=
  if reset client then
    do c0 <- client_rewind client 0 2;
    if negb (bool_decide (state c0 = BS_FAILED)) then
      do c1 <- bolt_reply_structure c0 BST_SUCCESS 1;
      do c2 <- bolt_reply_map c1 0;
      do (c3, sk1) <- send_reset_reply c2 sk;
      Ok (set_reset c3 false, sk1)
    else
      do c1 <- bolt_reply_structure c0 BST_IGNORED 0;
      do (c2, sk1) <- send_reset_reply c1 sk;
      do c3 <- bolt_reply_structure c2 BST_SUCCESS 1;
      do c4 <- bolt_reply_map c3 0;
      do (c5, sk2) <- send_reset_reply c4 sk1;
      Ok (set_state (set_reset c5 false) BS_READY, sk2)
  else
    do (sk1, _) <- buffer_socket_write (chunks (write_buf client)) (client_write client) sk;
    do c1 <- client_rewind client 0 0;
    do c2 <- at_write_buf_write c1 (fun chs i => buffer_write_uint16 chs i 0x0000);
    do c3 <- (if ws c2
              then at_write_buf_write c2 (fun chs i => buffer_write_uint16 chs i 0x0000)
              else Ok c2);
    Ok (c3, sk1).

(** [ntohl]: on a little-endian host the four bytes of the value change
    places, on a big-endian host nothing happens. *)
Definition ntohl (v : Z) : Z :=
  if big_endian then wrap32 v
  else le_value (rev (le_bytes 4 (wrap32 v))).

(** [bolt_check_handshake], with the session after the read. *)
Definition bolt_check_handshake (client : bolt_client_t)
  : result (bool * bolt_client_t) :=
  let rb := read_buf client in
  do (v, r) <- buffer_read_uint32 (chunks rb) (write rb) (read rb);
  Ok (ntohl v =? 0x6060B017,
      set_read_buf client (mk_buffer (chunks rb) r (write rb))).

(** *** Notions used to state the properties *)

(** Every chunk holds [BUFFER_CHUNK_SIZE] bytes. *)
Definition wf_chunks (chs : list (list Z)) : Prop :=
  Forall (fun ch => zlen ch = BUFFER_CHUNK_SIZE) chs.

(** A cursor of the buffer: its chunk is allocated, its offset is inside the
    chunk or right at its end. *)
Definition valid_index (chs : list (list Z)) (i : buffer_index_t) : Prop :=
  0 <= chunk i < array_len chs /\ 0 <= offset i <= BUFFER_CHUNK_SIZE.

(** Absolute byte position of a cursor. *)
Definition pos (i : buffer_index_t) : Z :=
  chunk i * BUFFER_CHUNK_SIZE + offset i.

(** The cursor with chunk index [p div CHUNK] and offset [p mod CHUNK]. *)
Definition normalized (p : Z) : buffer_index_t :=
  mk_index (p / BUFFER_CHUNK_SIZE) (p mod BUFFER_CHUNK_SIZE).

(** Chunk-major order of cursors. *)
Definition index_le (b a : buffer_index_t) : Prop :=
  chunk b < chunk a \/ (chunk b = chunk a /\ offset b <= offset a).

(** The bytes of a buffer in the order of their positions. *)
Definition contents (chs : list (list Z)) : list Z := concat chs.

(** The [n] bytes of the buffer from position [p] on. *)
Definition bytes_at (chs : list (list Z)) (p n : Z) : list Z :=
  take (Z.to_nat n) (drop (Z.to_nat p) (contents chs)).

(** The write buffer of a session holds whole chunks and its write cursor
    and the session's saved cursor are cursors of it. *)
Definition write_buf_ok (c : bolt_client_t) : Prop :=
  wf_chunks (chunks (write_buf c)) /\
  valid_index (chunks (write_buf c)) (write (write_buf c)) /\
  valid_index (chunks (write_buf c)) (client_write c).

(** What a write into the write buffer leaves alone. *)
Definition same_session (c c' : bolt_client_t) : Prop :=
  socket c' = socket c /\ state c' = state c /\ ws c' = ws c /\
  reset c' = reset c /\ processing c' = processing c /\
  shutdown c' = shutdown c /\ ctx c' = ctx c /\ on_write c' = on_write c /\
  read_buf c' = read_buf c /\ msg_buf c' = msg_buf c /\
  read (write_buf c') = read (write_buf c).

(** The state of a session between the rewind of its cursors and the
    hand-over of a reply to the socket: the saved cursor is at position 0,
    [X] are the two bytes of the length slot and [Q] is the payload written
    so far. *)
Definition composing (c : bolt_client_t) (X Q : list Z) : Prop :=
  write_buf_ok c /\
  pos (client_write c) = 0 /\
  pos (write (write_buf c)) = 2 + zlen Q /\
  take (Z.to_nat (2 + zlen Q)) (contents (chunks (write_buf c))) = X ++ Q /\
  length X = 2%nat /\
  BUFFER_CHUNK_SIZE * array_len (chunks (write_buf c)) < 2 ^ 32.

(** The bytes reserved in front of each outbound message: the slot of the
    chunk length, preceded in WebSocket mode by the two bytes of the frame
    header. *)
Definition slot_size (w : bool) : Z := if w then 4 else 2.

(** One finished outbound message as it lies in the write buffer: the Bolt
    message of its payload, preceded in WebSocket mode by the byte 0x82 and
    the one length byte the code writes. *)
Definition outbound_frame (w : bool) (payload : list Z) : list Z :=
  (if w then [0x82; (zlen payload + 4) mod 256] else [])
  ++ bolt_message payload.

(** The write buffer of a session between two flushes: it holds the
    finished messages [msgs] from its start, the saved cursor stands behind
    them at the reserved slot, and the write cursor stands behind the
    payload [P] written so far for the message being composed. *)
Definition outbox (c : bolt_client_t) (msgs : list (list Z)) (P : list Z) : Prop :=
  write_buf_ok c /\
  exists X,
    zlen X = slot_size (ws c) /\
    take (Z.to_nat (pos (write (write_buf c)))) (contents (chunks (write_buf c)))
    = concat (map (outbound_frame (ws c)) msgs) ++ X ++ P /\
    pos (client_write c) = zlen (concat (map (outbound_frame (ws c)) msgs)) /\
    pos (write (write_buf c)) = pos (client_write c) + slot_size (ws c) + zlen P.

(** The slot at the saved cursor holds zeros. *)
Definition slot_zeroed (c : bolt_client_t) : Prop :=
  bytes_at (chunks (write_buf c)) (pos (client_write c)) (slot_size (ws c))
  = replicate (Z.to_nat (slot_size (ws c))) 0.


(** A sequence of typed writes through one cursor. *)
Definition write_scalar (chs : list (list Z)) (buf : buffer_index_t) (s : scalar)
  : result (list (list Z) * buffer_index_t) :=
  match s with
  | U8 v => buffer_write_uint8 chs buf v
  | U16 v => buffer_write_uint16 chs buf v
  | U32 v => buffer_write_uint32 chs buf v
  | U64 v => buffer_write_uint64 chs buf v
  end.

Fixpoint write_scalars (chs : list (list Z)) (buf : buffer_index_t)
  (l : list scalar) : result (list (list Z) * buffer_index_t) :=
  match l with
  | [] => Ok (chs, buf)
  | s :: l' =>
      do (chs1, buf1) <- write_scalar chs buf s;
      write_scalars chs1 buf1 l'
  end.

(** The typed read of the same type as [s]. *)
Definition read_scalar (chs : list (list Z)) (wr buf : buffer_index_t) (s : scalar)
  : result (scalar * buffer_index_t) :=
  match s with
  | U8 _ => do (v, b) <- buffer_read_uint8 chs wr buf; Ok (U8 v, b)
  | U16 _ => do (v, b) <- buffer_read_uint16 chs wr buf; Ok (U16 v, b)
  | U32 _ => do (v, b) <- buffer_read_uint32 chs wr buf; Ok (U32 v, b)
  | U64 _ => do (v, b) <- buffer_read_uint64 chs wr buf; Ok (U64 v, b)
  end.

(** The typed reads of the types of [l], one after the other. *)
Fixpoint read_scalars (chs : list (list Z)) (wr buf : buffer_index_t)
  (l : list scalar) : result (list scalar * buffer_index_t) :=
  match l with
  | [] => Ok ([], buf)
  | s :: l' =>
      do (v, buf1) <- read_scalar chs wr buf s;
      do (vs, buf2) <- read_scalars chs wr buf1 l';
      Ok (v :: vs, buf2)
  end.


(** * Properties *)

(** ** Machine integers and lists *)

Lemma wrap32_small x : 0 <= x < 2 ^ 32 -> wrap32 x = x.
Proof. intros H. unfold wrap32. apply Z.mod_small. exact H. Qed.

Lemma wrap16_small x : 0 <= x < 2 ^ 16 -> wrap16 x = x.
Proof. intros H. unfold wrap16. apply Z.mod_small. exact H. Qed.


Lemma wrap16_wrap32 x : wrap16 (wrap32 x) = wrap16 x.
Proof.
  unfold wrap16, wrap32.
  apply Z.mod_mod_divide. exists (2 ^ 16). reflexivity.
Qed.

Lemma wrap16_add_wrap32_r x y : wrap16 (x + wrap32 y) = wrap16 (x + y).
Proof.
  unfold wrap16. rewrite Z.add_mod by lia.
  fold (wrap16 (wrap32 y)). rewrite wrap16_wrap32. unfold wrap16.
  rewrite <- Z.add_mod by lia. reflexivity.
Qed.

Lemma zlen_nonneg {A} (l : list A) : 0 <= zlen l.
Proof. unfold zlen. lia. Qed.

Lemma zlen_app {A} (l k : list A) : zlen (l ++ k) = zlen l + zlen k.
Proof. unfold zlen. rewrite length_app. lia. Qed.



(** Writing [d] inside [l] does not look at what follows [l]. *)
Lemma list_inserts_app_keep {A} (d l k : list A) (i : nat) :
  (i + length d <= length l)%nat ->
  list_inserts i d (l ++ k) = list_inserts i d l ++ k.
Proof.
  revert i. induction d as [|y d IH]; intros i Hi; simpl in *; [reflexivity|].
  rewrite IH by lia. apply insert_app_l.
  rewrite length_inserts. lia.
Qed.

(** The part of the list up to the end of the written bytes. *)
Lemma take_inserts_end {A} (d l : list A) (i : nat) :
  (i + length d <= length l)%nat ->
  take (i + length d) (list_inserts i d l) = take i l ++ d.
Proof.
  intros Hi. apply list_eq. intros j.
  destruct (decide (j < i)%nat) as [Hj|Hj].
  - rewrite lookup_take_lt by lia. rewrite list_lookup_inserts_lt by lia.
    rewrite lookup_app_l by (rewrite length_take; lia).
    rewrite lookup_take_lt by lia. reflexivity.
  - destruct (decide (j < i + length d)%nat) as [Hj'|Hj'].
    + rewrite lookup_take_lt by lia. rewrite list_lookup_inserts by lia.
      rewrite lookup_app_r by (rewrite length_take; lia).
      rewrite length_take. f_equal. lia.
    + rewrite lookup_take_ge by lia. symmetry. apply lookup_ge_None.
      rewrite length_app, length_take. lia.
Qed.

Lemma take_inserts_inside {A} (d l : list A) (i m : nat) :
  (i + length d <= m)%nat ->
  take m (list_inserts i d l) = list_inserts i d (take m l).
Proof.
  intros Hi. apply list_eq. intros j.
  destruct (decide (j < m)%nat) as [Hm|Hm].
  - rewrite lookup_take_lt by lia.
    destruct (decide (j < i)%nat) as [Hj|Hj].
    { rewrite !list_lookup_inserts_lt by lia. rewrite lookup_take_lt by lia. reflexivity. }
    destruct (decide (j < i + length d)%nat) as [Hj'|Hj'].
    + destruct (decide (j < length l)%nat) as [Hl|Hl].
      * rewrite !list_lookup_inserts by (rewrite ?length_take; lia). reflexivity.
      * rewrite (proj2 (lookup_ge_None _ _)) by (rewrite length_inserts; lia).
        symmetry. apply lookup_ge_None. rewrite length_inserts, length_take. lia.
    + rewrite !list_lookup_inserts_ge by lia. rewrite lookup_take_lt by lia. reflexivity.
  - rewrite lookup_take_ge by lia. symmetry. apply lookup_ge_None.
    rewrite length_inserts, length_take. lia.
Qed.

Lemma take_inserts_before {A} (d l : list A) (i m : nat) :
  (m <= i)%nat -> take m (list_inserts i d l) = take m l.
Proof.
  intros Hi. apply list_eq. intros j.
  destruct (decide (j < m)%nat) as [Hm|Hm].
  - rewrite !lookup_take_lt by lia. apply list_lookup_inserts_lt. lia.
  - rewrite !lookup_take_ge by lia. reflexivity.
Qed.

Lemma drop_inserts_after {A} (d l : list A) (i m : nat) :
  (i + length d <= m)%nat -> drop m (list_inserts i d l) = drop m l.
Proof.
  intros Hi. apply list_eq. intros j.
  rewrite !lookup_drop. apply list_lookup_inserts_ge. lia.
Qed.

(** The written bytes are where they were written. *)
Lemma slice_inserts {A} (d l : list A) (i : nat) :
  (i + length d <= length l)%nat ->
  take (length d) (drop i (list_inserts i d l)) = d.
Proof.
  intros Hi. apply list_eq. intros j.
  destruct (decide (j < length d)%nat) as [Hj|Hj].
  - rewrite lookup_take_lt by lia. rewrite lookup_drop.
    rewrite list_lookup_inserts by lia. f_equal. lia.
  - rewrite lookup_take_ge by lia. symmetry. apply lookup_ge_None. lia.
Qed.


(** Bytes away from the written ones are not changed. *)
Lemma slice_inserts_outside {A} (d l : list A) (i q n : nat) :
  (q + n <= i)%nat \/ (i + length d <= q)%nat ->
  take n (drop q (list_inserts i d l)) = take n (drop q l).
Proof.
  intros Hout. apply list_eq. intros j.
  destruct (decide (j < n)%nat) as [Hj|Hj].
  - rewrite !lookup_take_lt by lia. rewrite !lookup_drop.
    destruct Hout as [H|H].
    + apply list_lookup_inserts_lt. lia.
    + apply list_lookup_inserts_ge. lia.
  - rewrite !lookup_take_ge by lia. reflexivity.
Qed.

Lemma slice_app_l {A} (l k : list A) (q n : nat) :
  (q + n <= length l)%nat -> take n (drop q (l ++ k)) = take n (drop q l).
Proof.
  intros Hle. rewrite drop_app_le by lia.
  apply take_app_le. rewrite length_drop. lia.
Qed.
(** ** Assumptions on the chunk size: a positive [int] *)

Hypothesis CHUNK_pos : 0 < BUFFER_CHUNK_SIZE.
Hypothesis CHUNK_int : BUFFER_CHUNK_SIZE < 2 ^ 31.

Local Abbreviation CHUNK := BUFFER_CHUNK_SIZE.

(** ** The flat view of a chunked buffer *)

Lemma wf_chunks_lookup chs c ch :
  wf_chunks chs -> chs !! c = Some ch -> length ch = Z.to_nat CHUNK.
Proof.
  intros Hwf Hc. unfold wf_chunks in Hwf.
  rewrite Forall_lookup in Hwf. specialize (Hwf _ _ Hc). unfold zlen in Hwf. lia.
Qed.

Lemma length_contents chs :
  wf_chunks chs -> length (contents chs) = (length chs * Z.to_nat CHUNK)%nat.
Proof.
  unfold contents. induction 1 as [|ch chs Hch _ IH]; simpl; [reflexivity|].
  rewrite length_app, IH. unfold zlen in Hch. lia.
Qed.

Lemma zlen_contents chs :
  wf_chunks chs -> zlen (contents chs) = array_len chs * CHUNK.
Proof.
  intros Hwf. unfold zlen at 1. rewrite length_contents by assumption.
  unfold array_len, zlen. lia.
Qed.

Lemma wf_chunks_malloc : zlen rm_malloc_chunk = CHUNK.
Proof. unfold rm_malloc_chunk, zlen. rewrite length_replicate. lia. Qed.

Lemma wf_chunks_snoc chs :
  wf_chunks chs -> wf_chunks (chs ++ [rm_malloc_chunk]).
Proof.
  intros Hwf. apply Forall_app. split; [assumption|].
  constructor; [apply wf_chunks_malloc | constructor].
Qed.

Lemma contents_snoc chs ch : contents (chs ++ [ch]) = contents chs ++ ch.
Proof. unfold contents. rewrite concat_app. simpl. rewrite app_nil_r. reflexivity. Qed.

(** A chunk inside the flat view. *)
Lemma contents_middle chs c ch :
  wf_chunks chs -> chs !! c = Some ch ->
  exists pre post,
    contents chs = pre ++ ch ++ post /\
    length pre = (c * Z.to_nat CHUNK)%nat /\
    forall ch', contents (<[c := ch']> chs) = pre ++ ch' ++ post.
Proof.
  intros Hwf Hc.
  exists (concat (take c chs)), (concat (drop (S c) chs)).
  pose proof (lookup_lt_Some _ _ _ Hc) as Hlt.
  split; [|split].
  - unfold contents. rewrite <- (take_drop_middle chs c ch Hc) at 1.
    rewrite concat_app. reflexivity.
  - change (concat (take c chs)) with (contents (take c chs)).
    rewrite length_contents by (apply Forall_take; exact Hwf).
    rewrite length_take. lia.
  - intros ch'. unfold contents. rewrite insert_take_drop by exact Hlt.
    rewrite concat_app. reflexivity.
Qed.


(** ** Access to one chunk *)

Lemma to_nat_pos c o :
  0 <= c -> 0 <= o ->
  Z.to_nat (c * CHUNK + o) = (Z.to_nat c * Z.to_nat CHUNK + Z.to_nat o)%nat.
Proof.
  intros Hc Ho.
  rewrite Z2Nat.inj_add by (try apply Z.mul_nonneg_nonneg; lia).
  rewrite Z2Nat.inj_mul by lia. reflexivity.
Qed.

Lemma lookup_chunk chs c :
  0 <= c < array_len chs -> exists ch, chs !! Z.to_nat c = Some ch.
Proof.
  intros Hc. unfold array_len, zlen in Hc.
  destruct (chs !! Z.to_nat c) as [ch|] eqn:E; [eauto|].
  apply lookup_ge_None in E. lia.
Qed.

Lemma chunk_store_spec chs c o d :
  wf_chunks chs -> 0 <= c < array_len chs -> 0 <= o -> o + zlen d <= CHUNK ->
  exists chs',
    chunk_store chs c o d = Ok chs' /\ wf_chunks chs' /\
    length chs' = length chs /\
    contents chs' = list_inserts (Z.to_nat (c * CHUNK + o)) d (contents chs).
Proof.
  intros Hwf Hc Ho Hd.
  destruct (lookup_chunk chs c Hc) as [ch Hch].
  pose proof (wf_chunks_lookup _ _ _ Hwf Hch) as Hlen.
  unfold chunk_store.
  replace ((c <? 0) || (o <? 0)) with false
    by (symmetry; apply orb_false_iff; split; apply Z.ltb_ge; lia).
  rewrite Hch.
  replace (o + zlen d <=? zlen ch) with true
    by (symmetry; apply Z.leb_le; unfold zlen in *; lia).
  eexists. split; [reflexivity|]. split; [|split].
  - apply Forall_insert; [exact Hwf|]. unfold zlen. rewrite length_inserts. lia.
  - apply length_insert.
  - destruct (contents_middle _ _ _ Hwf Hch) as (pre & post & Hc1 & Hpre & Hc2).
    rewrite Hc2, Hc1, to_nat_pos by lia. rewrite <- Hpre.
    rewrite list_inserts_app_r. f_equal.
    symmetry. apply list_inserts_app_keep. unfold zlen in *. lia.
Qed.

Lemma chunk_load_spec chs c o n :
  wf_chunks chs -> 0 <= c < array_len chs -> 0 <= o -> 0 <= n -> o + n <= CHUNK ->
  chunk_load chs c o n = Ok (bytes_at chs (c * CHUNK + o) n).
Proof.
  intros Hwf Hc Ho Hn Hd.
  destruct (lookup_chunk chs c Hc) as [ch Hch].
  pose proof (wf_chunks_lookup _ _ _ Hwf Hch) as Hlen.
  unfold chunk_load.
  replace ((c <? 0) || (o <? 0) || (n <? 0)) with false
    by (symmetry; rewrite !orb_false_iff; repeat split; apply Z.ltb_ge; lia).
  rewrite Hch.
  replace (o + n <=? zlen ch) with true
    by (symmetry; apply Z.leb_le; unfold zlen in *; lia).
  f_equal. unfold bytes_at.
  destruct (contents_middle _ _ _ Hwf Hch) as (pre & post & Hc1 & Hpre & _).
  rewrite Hc1, to_nat_pos by lia. rewrite <- Hpre.
  rewrite drop_app_add. rewrite drop_app_le by lia.
  rewrite take_app_le by (rewrite length_drop; lia). reflexivity.
Qed.

(** ** Cursor arithmetic *)

Lemma buffer_index_add_inplace i n :
  0 <= offset i -> 0 <= n -> offset i + n <= CHUNK ->
  buffer_index_add i n = mk_index (chunk i) (offset i + n).
Proof.
  intros Ho Hn Hle. unfold buffer_index_add.
  rewrite wrap32_small by lia.
  replace (CHUNK <? offset i + n) with false by (symmetry; apply Z.ltb_ge; lia).
  reflexivity.
Qed.

Lemma buffer_index_add_pos i n :
  0 <= offset i -> 0 <= n -> offset i + n < 2 ^ 32 ->
  pos (buffer_index_add i n) = pos i + n.
Proof.
  intros Ho Hn Hlt. unfold buffer_index_add, pos.
  rewrite wrap32_small by lia.
  destruct (CHUNK <? offset i + n); simpl; [|lia].
  pose proof (Z.div_mod (offset i + n) CHUNK). lia.
Qed.

Lemma buffer_index_add_offset i n :
  0 <= offset i -> 0 <= n -> offset i + n < 2 ^ 32 ->
  0 <= offset (buffer_index_add i n) <= CHUNK.
Proof.
  intros Ho Hn Hlt. unfold buffer_index_add.
  rewrite wrap32_small by lia.
  destruct (CHUNK <? offset i + n) eqn:E; simpl.
  - pose proof (Z.mod_pos_bound (offset i + n) CHUNK). lia.
  - apply Z.ltb_ge in E. lia.
Qed.

Lemma valid_index_pos chs i :
  wf_chunks chs -> valid_index chs i ->
  0 <= pos i <= zlen (contents chs).
Proof.
  intros Hwf [Hc Ho]. rewrite zlen_contents by assumption. unfold pos. nia.
Qed.

(** ** Bulk write *)

Lemma buffer_write_loop_spec fuel : forall data chs buf,
  wf_chunks chs -> valid_index chs buf -> zlen data < 2 ^ 31 ->
  (length data + (if decide (offset buf = CHUNK) then 1 else 0) < fuel)%nat ->
  exists chs' buf',
    buffer_write_loop fuel chs buf data = Ok (chs', buf') /\
    wf_chunks chs' /\ valid_index chs' buf' /\
    pos buf' = pos buf + zlen data /\
    (length chs <= length chs')%nat /\
    (length chs' = length chs \/ array_len chs' * CHUNK < pos buf' + CHUNK) /\
    exists pad,
      contents chs' = list_inserts (Z.to_nat (pos buf)) data (contents chs ++ pad).
Proof.
  induction fuel as [|fuel IH]; intros data chs buf Hwf Hv Hlen Hfuel; [lia|].
  pose proof (zlen_nonneg data) as Hd0.
  destruct Hv as [Hc Ho].
  cbn [buffer_write_loop].
  rewrite (wrap32_small (zlen data)) by lia.
  rewrite (wrap32_small (offset buf + zlen data)) by lia.
  destruct (CHUNK <? offset buf + zlen data) eqn:Hcross.
  - apply Z.ltb_lt in Hcross.
    rewrite (wrap32_small (CHUNK - offset buf)) by lia.
    set (fcs := CHUNK - offset buf).
    assert (Hd1 : zlen (take (Z.to_nat fcs) data) = fcs).
    { unfold zlen in *. rewrite length_take. lia. }
    destruct (chunk_store_spec chs (chunk buf) (offset buf)
                (take (Z.to_nat fcs) data) Hwf Hc) as (chs1 & -> & Hwf1 & Hl1 & Hc1);
      [lia | lia |].
    cbn [bind].
    rewrite (buffer_index_add_inplace buf fcs) by (unfold fcs; lia).
    cbn [chunk offset].
    set (chs2 := if array_len chs1 =? chunk buf + 1
                 then chs1 ++ [rm_malloc_chunk] else chs1).
    assert (Hwf2 : wf_chunks chs2).
    { unfold chs2. destruct (_ =? _); [apply wf_chunks_snoc|]; assumption. }
    assert (Hl2 : (length chs1 <= length chs2)%nat /\ chunk buf + 1 < array_len chs2
                  /\ (length chs2 = length chs1 \/
                      array_len chs2 = chunk buf + 2)).
    { unfold chs2, array_len, zlen in *.
      destruct (Z.of_nat (length chs1) =? chunk buf + 1) eqn:E.
      - apply Z.eqb_eq in E. rewrite length_app. simpl. lia.
      - apply Z.eqb_neq in E. lia. }
    destruct Hl2 as (Hl2 & Hc2 & Hgrow).
    destruct (IH (drop (Z.to_nat fcs) data) chs2 (mk_index (chunk buf + 1) 0))
      as (chs' & buf' & -> & Hwf' & Hv' & Hpos' & Hl' & Hg' & pad & Hcont).
    + exact Hwf2.
    + split; cbn [chunk offset]; lia.
    + unfold zlen in *. rewrite length_drop. lia.
    + cbn [offset]. rewrite length_drop. unfold fcs, zlen in *.
      destruct (decide (0 = CHUNK)); [lia|].
      destruct (decide (offset buf = CHUNK)); lia.
    + exists chs', buf'. split; [reflexivity|]. split; [exact Hwf'|].
      split; [exact Hv'|].
      assert (Hposeq : pos (mk_index (chunk buf + 1) 0) = pos buf + fcs).
      { unfold pos, fcs. cbn [chunk offset]. lia. }
      split.
      { rewrite Hpos', Hposeq. unfold zlen in *. rewrite length_drop. lia. }
      split; [lia|].
      split.
      { destruct Hg' as [Hg'|Hg']; [|right; exact Hg'].
        destruct Hgrow as [Hgrow|Hgrow]; [left; lia|].
        right.
        assert (Ha : array_len chs' = chunk buf + 2)
          by (unfold array_len, zlen in *; lia).
        rewrite Ha, Hpos'. unfold pos. cbn [chunk offset].
        unfold zlen in *. rewrite length_drop. unfold fcs. lia. }
      assert (Hp0 : 0 <= pos buf) by (unfold pos; nia).
      assert (HpF : pos buf + fcs <= zlen (contents chs)).
      { rewrite zlen_contents by assumption. unfold pos, fcs. nia. }
      exists ((if array_len chs1 =? chunk buf + 1 then rm_malloc_chunk else []) ++ pad).
      rewrite Hcont, Hposeq.
      rewrite <- (take_drop (Z.to_nat fcs) data) at 2.
      rewrite list_inserts_app_l.
      replace (length (take (Z.to_nat fcs) data) + Z.to_nat (pos buf))%nat
        with (Z.to_nat (pos buf + fcs)) by (unfold zlen in Hd1; lia).
      f_equal.
      rewrite list_inserts_app_keep
        by (unfold zlen in *; fold (pos buf) in Hc1; lia).
      fold (pos buf) in Hc1. rewrite <- Hc1.
      rewrite app_assoc. f_equal.
      unfold chs2. destruct (array_len chs1 =? chunk buf + 1).
      * apply contents_snoc.
      * rewrite app_nil_r. reflexivity.
  - apply Z.ltb_ge in Hcross.
    destruct (chunk_store_spec chs (chunk buf) (offset buf) data Hwf Hc)
      as (chs1 & -> & Hwf1 & Hl1 & Hc1); [lia | lia |].
    cbn [bind].
    rewrite (buffer_index_add_inplace buf (zlen data)) by lia.
    eexists _, _. split; [reflexivity|]. split; [exact Hwf1|].
    split. { split; cbn [chunk offset]; unfold array_len, zlen in *; lia. }
    split. { unfold pos. cbn [chunk offset]. lia. }
    split; [lia|]. split; [left; exact Hl1|].
    exists []. rewrite app_nil_r. exact Hc1.
Qed.

Lemma buffer_write_spec data chs buf :
  wf_chunks chs -> valid_index chs buf -> zlen data < 2 ^ 31 ->
  exists chs' buf',
    buffer_write chs buf data = Ok (chs', buf') /\
    wf_chunks chs' /\ valid_index chs' buf' /\
    pos buf' = pos buf + zlen data /\
    (length chs <= length chs')%nat /\
    (length chs' = length chs \/ array_len chs' * CHUNK < pos buf' + CHUNK) /\
    exists pad,
      contents chs' = list_inserts (Z.to_nat (pos buf)) data (contents chs ++ pad).
Proof.
  intros Hwf Hv Hlen. unfold buffer_write.
  apply buffer_write_loop_spec; try assumption.
  destruct (decide (offset buf = CHUNK)); lia.
Qed.


(** The bytes a write leaves in the buffer. *)
Lemma written_bytes chs chs' p data pad :
  0 <= p -> p + zlen data <= zlen (contents chs') ->
  contents chs' = list_inserts (Z.to_nat p) data (contents chs ++ pad) ->
  bytes_at chs' p (zlen data) = data.
Proof.
  intros Hp Hle Hc. unfold bytes_at. rewrite Hc.
  unfold zlen at 1. rewrite Nat2Z.id. apply slice_inserts.
  rewrite Hc in Hle. unfold zlen in Hle. rewrite length_inserts in Hle. lia.
Qed.

(** What lies before the written bytes stays. *)
Lemma written_before chs chs' p data pad m :
  (m <= Z.to_nat p)%nat -> (m <= length (contents chs))%nat ->
  contents chs' = list_inserts (Z.to_nat p) data (contents chs ++ pad) ->
  take m (contents chs') = take m (contents chs).
Proof.
  intros Hm Hl Hc. rewrite Hc, take_inserts_before by lia.
  apply take_app_le. lia.
Qed.

(** ** Distance of two cursors *)

Lemma buffer_index_diff_pos a b :
  buffer_index_diff a b = wrap16 (pos a - pos b).
Proof.
  unfold buffer_index_diff. rewrite wrap16_wrap32, wrap16_add_wrap32_r.
  f_equal. unfold pos. lia.
Qed.

(** Within 65536 bytes the 16-bit distance is the distance. *)
Lemma buffer_index_diff_near a b :
  pos b <= pos a < pos b + 65536 ->
  buffer_index_diff a b = pos a - pos b.
Proof.
  intros H. rewrite buffer_index_diff_pos. apply wrap16_small. lia.
Qed.

Lemma index_le_pos chs a b :
  valid_index chs a -> valid_index chs b -> index_le b a -> pos b <= pos a.
Proof.
  intros [_ Ha] [_ Hb] [Hlt|[Heq Hle]]; unfold pos; [nia|].
  rewrite Heq. lia.
Qed.

(** C8: for two cursors [a] and [b] of one buffer, [a] at or after [b] in
    chunk-major order and less than 65536 bytes apart, [buffer_index_diff a b]
    is their distance in bytes, an unsigned 16-bit value; this also holds
    when the offset of [a] is the smaller one. *)
Theorem buffer_index_diff_distance chs a b :
  valid_index chs a -> valid_index chs b ->
  index_le b a -> pos a - pos b < 65536 ->
  buffer_index_diff a b = pos a - pos b /\
  0 <= buffer_index_diff a b < 2 ^ 16.
Proof.
  intros Ha Hb Hle Hd.
  pose proof (index_le_pos chs a b Ha Hb Hle) as Hpos.
  rewrite buffer_index_diff_pos.
  rewrite wrap16_small by lia. lia.
Qed.

(** ** Advancing a cursor *)

Lemma normalized_pos c o :
  0 <= o < CHUNK -> normalized (c * CHUNK + o) = mk_index c o.
Proof.
  intros Ho. unfold normalized.
  rewrite Z.add_comm, Z.div_add, Z.mod_add by lia.
  rewrite Z.div_small, Z.mod_small by lia. reflexivity.
Qed.

(** C4, as the code has it: advancing a cursor at position [p] by [n] gives
    a cursor at position [p + n]; it is the normalized cursor
    [((p + n) div CHUNK, (p + n) mod CHUNK)] unless the advance ends exactly
    at the end of the cursor's chunk, where the cursor stays in that chunk
    with offset [CHUNK]. *)
Theorem buffer_index_add_position i n :
  0 <= offset i <= CHUNK -> 0 <= n -> offset i + n < 2 ^ 32 ->
  pos (buffer_index_add i n) = pos i + n /\
  (offset i + n <> CHUNK -> buffer_index_add i n = normalized (pos i + n)) /\
  (offset i + n = CHUNK -> buffer_index_add i n = mk_index (chunk i) CHUNK).
Proof.
  intros Ho Hn Hlt. split; [apply buffer_index_add_pos; lia|]. split.
  - intros Hne. unfold buffer_index_add. rewrite wrap32_small by lia.
    destruct (CHUNK <? offset i + n) eqn:E.
    + unfold normalized, pos.
      replace (chunk i * CHUNK + offset i + n)
        with (offset i + n + chunk i * CHUNK) by lia.
      rewrite Z.div_add, Z.mod_add by lia. f_equal. lia.
    + apply Z.ltb_ge in E. unfold pos.
      replace (chunk i * CHUNK + offset i + n)
        with (chunk i * CHUNK + (offset i + n)) by lia.
      rewrite normalized_pos by lia. reflexivity.
  - intros Heq. rewrite buffer_index_add_inplace by lia. rewrite Heq. reflexivity.
Qed.

(** ** Typed writes and reads *)













(** ** Bulk copy *)

Lemma inserts_compose {A} (F X pad d1 d2 : list A) (p : nat) :
  (p + length d1 <= length F)%nat ->
  list_inserts (p + length d1) d2 ((list_inserts p d1 F ++ X) ++ pad)
  = list_inserts p (d1 ++ d2) (F ++ (X ++ pad)).
Proof.
  intros Hle. rewrite list_inserts_app_l.
  rewrite (Nat.add_comm (length d1) p). f_equal.
  rewrite <- app_assoc. symmetry. apply list_inserts_app_keep. exact Hle.
Qed.

Lemma bytes_at_split chs p a b :
  0 <= p -> 0 <= a -> 0 <= b ->
  bytes_at chs p (a + b) = bytes_at chs p a ++ bytes_at chs (p + a) b.
Proof.
  intros Hp Ha Hb. unfold bytes_at.
  rewrite !Z2Nat.inj_add by lia.
  rewrite <- take_take_drop, drop_drop. reflexivity.
Qed.

Lemma zlen_bytes_at chs p n :
  0 <= p -> 0 <= n -> p + n <= zlen (contents chs) ->
  zlen (bytes_at chs p n) = n.
Proof.
  intros Hp Hn Hle. unfold bytes_at, zlen in *.
  rewrite length_take, length_drop. lia.
Qed.

Lemma bytes_at_0 chs p : bytes_at chs p 0 = [].
Proof. unfold bytes_at. reflexivity. Qed.

Lemma buffer_read_loop_spec fuel : forall size src buf dst_chs dst,
  wf_chunks src -> wf_chunks dst_chs ->
  0 <= chunk buf -> 0 <= offset buf <= CHUNK ->
  pos buf + size <= zlen (contents src) ->
  valid_index dst_chs dst ->
  0 <= size < 2 ^ 31 ->
  (3 * Z.to_nat size
   + (if decide (offset buf = CHUNK) then 1 else 0)
   + (if decide (offset dst = CHUNK) then 1 else 0) < fuel)%nat ->
  exists buf' dst_chs' dst',
    buffer_read_loop fuel src buf dst_chs dst size = Ok (buf', dst_chs', dst') /\
    wf_chunks dst_chs' /\ valid_index dst_chs' dst' /\
    pos buf' = pos buf + size /\ pos dst' = pos dst + size /\
    (length dst_chs <= length dst_chs')%nat /\
    exists pad,
      contents dst_chs'
      = list_inserts (Z.to_nat (pos dst)) (bytes_at src (pos buf) size)
          (contents dst_chs ++ pad).
Proof.
  induction fuel as [|fuel IH];
    intros size src buf dst_chs dst Hws Hwd Hbc Hbo Hsrc Hvd Hsize Hfuel; [lia|].
  cbn [buffer_read_loop].
  destruct (0 <? size) eqn:Hpos0.
  2:{ apply Z.ltb_ge in Hpos0. assert (size = 0) as -> by lia.
      exists buf, dst_chs, dst. split; [reflexivity|].
      split; [exact Hwd|]. split; [exact Hvd|].
      split; [lia|]. split; [lia|]. split; [lia|].
      exists []. rewrite bytes_at_0, app_nil_r. reflexivity. }
  apply Z.ltb_lt in Hpos0.
  pose proof Hvd as [Hdc Hdo].
  pose proof (valid_index_pos dst_chs dst Hwd Hvd) as Hpd.
  assert (Hbc' : 0 <= chunk buf < array_len src).
  { rewrite zlen_contents in Hsrc by assumption. unfold pos in Hsrc. nia. }
  assert (Hpb : 0 <= pos buf) by (unfold pos; nia).
  rewrite (wrap32_small (CHUNK - offset dst)) by lia.
  rewrite (wrap32_small (CHUNK - offset buf)) by lia.
  set (da := CHUNK - offset dst). set (sa := CHUNK - offset buf).
  assert (HdF : pos dst + da <= zlen (contents dst_chs)).
  { rewrite zlen_contents by assumption. unfold pos, da. nia. }
  destruct ((size <? sa) && (size <? da)) eqn:Hfit.
  - (* the rest fits both chunks *)
    apply andb_true_iff in Hfit. destruct Hfit as [Hf1 Hf2].
    apply Z.ltb_lt in Hf1, Hf2.
    rewrite chunk_load_spec by (try assumption; unfold sa in *; lia).
    cbn [bind]. fold (pos buf).
    assert (Hlen : zlen (bytes_at src (pos buf) size) = size)
      by (apply zlen_bytes_at; lia).
    destruct (chunk_store_spec dst_chs (chunk dst) (offset dst)
                (bytes_at src (pos buf) size) Hwd Hdc)
      as (d1 & -> & Hwd1 & Hl1 & Hc1); [lia | unfold da in *; lia |].
    cbn [bind].
    rewrite !buffer_index_add_inplace by (unfold sa, da in *; lia).
    eexists _, _, _. split; [reflexivity|]. split; [exact Hwd1|].
    split. { split; cbn [chunk offset]; unfold array_len, zlen, da in *; lia. }
    split. { unfold pos. cbn [chunk offset]. lia. }
    split. { unfold pos. cbn [chunk offset]. lia. }
    split; [lia|]. exists []. rewrite app_nil_r. exact Hc1.
  - apply andb_false_iff in Hfit.
    destruct (sa <? da) eqn:Hsd.
    + (* the source chunk ends first *)
      apply Z.ltb_lt in Hsd.
      assert (Hk : sa <= size).
      { destruct Hfit as [H|H]; apply Z.ltb_ge in H; lia. }
      rewrite chunk_load_spec by (try assumption; unfold sa in *; lia).
      cbn [bind]. fold (pos buf).
      assert (Hlen : zlen (bytes_at src (pos buf) sa) = sa)
        by (apply zlen_bytes_at; unfold sa in *; lia).
      destruct (chunk_store_spec dst_chs (chunk dst) (offset dst)
                  (bytes_at src (pos buf) sa) Hwd Hdc)
        as (d1 & -> & Hwd1 & Hl1 & Hc1); [lia | unfold da, sa in *; lia |].
      cbn [bind].
      rewrite (wrap32_small (offset dst + sa)) by (unfold sa in *; lia).
      rewrite (wrap32_small (size - sa)) by (unfold sa in *; lia).
      destruct (IH (size - sa) src (mk_index (chunk buf + 1) 0) d1
                  (mk_index (chunk dst) (offset dst + sa)))
        as (buf' & d' & dst' & -> & Hwd' & Hvd' & Hpb' & Hpd' & Hl' & pad & Hc');
        try assumption.
      * cbn [chunk]. lia.
      * cbn [offset]. lia.
      * unfold pos in *. cbn [chunk offset]. unfold sa in *. lia.
      * split; cbn [chunk offset]; unfold array_len, zlen, sa, da in *; lia.
      * unfold sa in *. lia.
      * cbn [offset]. unfold sa, da in *.
        destruct (decide (0 = CHUNK)); [lia|].
        destruct (decide (offset dst + (CHUNK - offset buf) = CHUNK)); [lia|].
        destruct (decide (offset buf = CHUNK)), (decide (offset dst = CHUNK)); lia.
      * exists buf', d', dst'. split; [reflexivity|]. split; [exact Hwd'|].
        split; [exact Hvd'|].
        assert (Hq1 : pos (mk_index (chunk buf + 1) 0) = pos buf + sa)
          by (unfold pos, sa; cbn [chunk offset]; lia).
        assert (Hq2 : pos (mk_index (chunk dst) (offset dst + sa)) = pos dst + sa)
          by (unfold pos; cbn [chunk offset]; lia).
        split; [lia|]. split; [lia|]. split; [lia|].
        exists pad. rewrite Hc', Hq1, Hq2.
        replace size with (sa + (size - sa)) at 2 by lia.
        rewrite bytes_at_split by (unfold sa in *; lia).
        fold (pos dst) in Hc1. rewrite Hc1.
        replace (Z.to_nat (pos dst + sa))
          with (Z.to_nat (pos dst) + length (bytes_at src (pos buf) sa))%nat
          by (unfold zlen in Hlen; lia).
        rewrite <- (app_nil_r (list_inserts _ _ (contents dst_chs))).
        rewrite inserts_compose by (unfold zlen in *; unfold sa, da in *; lia).
        reflexivity.
    + (* the destination chunk ends first *)
      apply Z.ltb_ge in Hsd.
      assert (Hk : da <= size).
      { destruct Hfit as [H|H]; apply Z.ltb_ge in H; lia. }
      rewrite chunk_load_spec by (try assumption; unfold sa, da in *; lia).
      cbn [bind]. fold (pos buf).
      assert (Hlen : zlen (bytes_at src (pos buf) da) = da)
        by (apply zlen_bytes_at; unfold da in *; lia).
      destruct (chunk_store_spec dst_chs (chunk dst) (offset dst)
                  (bytes_at src (pos buf) da) Hwd Hdc)
        as (d1 & -> & Hwd1 & Hl1 & Hc1); [lia | unfold da in *; lia |].
      cbn [bind chunk].
      rewrite (wrap32_small (offset buf + da)) by (unfold da in *; lia).
      rewrite (wrap32_small (size - da)) by (unfold da in *; lia).
      set (d2 := if array_len d1 =? chunk dst + 1
                 then d1 ++ [rm_malloc_chunk] else d1).
      assert (Hwd2 : wf_chunks d2).
      { unfold d2. destruct (_ =? _); [apply wf_chunks_snoc|]; assumption. }
      assert (Hl2 : (length d1 <= length d2)%nat /\ chunk dst + 1 < array_len d2).
      { unfold d2, array_len, zlen in *.
        destruct (Z.of_nat (length d1) =? chunk dst + 1) eqn:E.
        - apply Z.eqb_eq in E. rewrite length_app. simpl. lia.
        - apply Z.eqb_neq in E. lia. }
      destruct Hl2 as [Hl2 Hc2].
      destruct (IH (size - da) src (mk_index (chunk buf) (offset buf + da)) d2
                  (mk_index (chunk dst + 1) 0))
        as (buf' & d' & dst' & -> & Hwd' & Hvd' & Hpb' & Hpd' & Hl' & pad & Hc');
        try assumption.
      * cbn [offset]. unfold sa, da in *. lia.
      * unfold pos in *. cbn [chunk offset]. lia.
      * split; cbn [chunk offset]; lia.
      * unfold da in *. lia.
      * cbn [offset]. unfold sa, da in *.
        destruct (decide (0 = CHUNK)); [lia|].
        destruct (decide (offset buf = CHUNK)), (decide (offset dst = CHUNK)),
          (decide (offset buf + (CHUNK - offset dst) = CHUNK)); lia.
      * exists buf', d', dst'. split; [reflexivity|]. split; [exact Hwd'|].
        split; [exact Hvd'|].
        assert (Hq1 : pos (mk_index (chunk buf) (offset buf + da)) = pos buf + da)
          by (unfold pos; cbn [chunk offset]; lia).
        assert (Hq2 : pos (mk_index (chunk dst + 1) 0) = pos dst + da)
          by (unfold pos, da; cbn [chunk offset]; lia).
        split; [lia|]. split; [lia|]. split; [lia|].
        exists ((if array_len d1 =? chunk dst + 1 then rm_malloc_chunk else []) ++ pad).
        rewrite Hc', Hq1, Hq2.
        replace size with (da + (size - da)) at 2 by lia.
        rewrite bytes_at_split by (unfold da in *; lia).
        fold (pos dst) in Hc1.
        replace (Z.to_nat (pos dst + da))
          with (Z.to_nat (pos dst) + length (bytes_at src (pos buf) da))%nat
          by (unfold zlen in Hlen; lia).
        rewrite <- inserts_compose by (unfold zlen in *; lia).
        rewrite <- Hc1. f_equal. f_equal.
        unfold d2. destruct (array_len d1 =? chunk dst + 1).
        -- apply contents_snoc.
        -- rewrite app_nil_r. reflexivity.
Qed.

(** Bytes of the buffer away from those a write stores. *)
Lemma written_outside chs chs' p data pad q n :
  0 <= q -> 0 <= n -> 0 <= p ->
  q + n <= p \/ p + zlen data <= q ->
  q + n <= zlen (contents chs) ->
  contents chs' = list_inserts (Z.to_nat p) data (contents chs ++ pad) ->
  bytes_at chs' q n = bytes_at chs q n.
Proof.
  intros Hq Hn Hp Hout Hle Hc. unfold bytes_at. rewrite Hc.
  rewrite slice_inserts_outside by (unfold zlen in *; lia).
  apply slice_app_l. unfold zlen in *. lia.
Qed.

(** X21: for two buffers, a source cursor with at least [size] bytes before
    the source's write cursor and for which the 16-bit [buffer_index_diff]
    to that write cursor is at least [size] (so whenever the write cursor is
    less than 65536 bytes ahead), and any destination cursor, [buffer_read]
    copies exactly [size] bytes: the [size] bytes at the destination's
    original position are afterwards those at the source's original
    position, wherever the chunk boundaries of source and destination fall;
    the destination grows as needed, both cursors advance by [size], and the
    other bytes of the destination are unchanged. *)
Theorem buffer_read_copies src src_wr buf dst_chs dst size :
  wf_chunks src -> wf_chunks dst_chs ->
  valid_index src buf -> valid_index src src_wr -> valid_index dst_chs dst ->
  0 <= size ->
  pos buf + size <= pos src_wr ->
  size <= buffer_index_diff src_wr buf ->
  exists buf' dst_chs' dst',
    buffer_read src src_wr buf dst_chs dst size = Ok (buf', dst_chs', dst') /\
    bytes_at dst_chs' (pos dst) size = bytes_at src (pos buf) size /\
    pos buf' = pos buf + size /\ pos dst' = pos dst + size /\
    wf_chunks dst_chs' /\ valid_index dst_chs' dst' /\
    (length dst_chs <= length dst_chs')%nat /\
    (forall q n, 0 <= q -> 0 <= n ->
       q + n <= pos dst \/ pos dst + size <= q ->
       q + n <= zlen (contents dst_chs) ->
       bytes_at dst_chs' q n = bytes_at dst_chs q n).
Proof.
  intros Hws Hwd Hvb Hvw Hvd Hsize Hreadable Hassert.
  pose proof (valid_index_pos src src_wr Hws Hvw) as Hpw.
  pose proof (valid_index_pos src buf Hws Hvb) as Hpb.
  pose proof (valid_index_pos dst_chs dst Hwd Hvd) as Hpd.
  assert (Hsmall : size < 2 ^ 16).
  { rewrite buffer_index_diff_pos in Hassert. unfold wrap16 in Hassert.
    pose proof (Z.mod_pos_bound (pos src_wr - pos buf) (2 ^ 16)). lia. }
  unfold buffer_read.
  replace (size <=? buffer_index_diff src_wr buf) with true
    by (symmetry; apply Z.leb_le; exact Hassert).
  cbn [ASSERT bind].
  destruct Hvb as [Hbc Hbo].
  destruct (buffer_read_loop_spec (3 * Z.to_nat size + 3) size src buf dst_chs dst)
    as (buf' & d' & dst' & Hrun & Hwd' & Hvd' & Hpb' & Hpd' & Hl' & pad & Hc');
    try assumption; try lia.
  { destruct (decide (offset buf = CHUNK)), (decide (offset dst = CHUNK)); lia. }
  pose proof (valid_index_pos d' dst' Hwd' Hvd') as Hpd2.
  assert (Hlen : zlen (bytes_at src (pos buf) size) = size)
    by (apply zlen_bytes_at; lia).
  exists buf', d', dst'. split; [exact Hrun|]. split.
  { rewrite <- Hlen at 1. apply (written_bytes dst_chs d' _ _ pad); [lia | | exact Hc'].
    rewrite Hlen. lia. }
  split; [exact Hpb'|]. split; [exact Hpd'|]. split; [exact Hwd'|].
  split; [exact Hvd'|]. split; [exact Hl'|].
  intros q n Hq Hn Hout Hin.
  apply (written_outside dst_chs d' (pos dst) (bytes_at src (pos buf) size) pad);
    try assumption; try lia.
Qed.

(** ** Writes of the session into its write buffer *)

Lemma same_session_refl c : same_session c c.
Proof. unfold same_session. repeat split. Qed.

Lemma same_session_trans c1 c2 c3 :
  same_session c1 c2 -> same_session c2 c3 -> same_session c1 c3.
Proof.
  unfold same_session. intros H1 H2.
  destruct H1 as (?&?&?&?&?&?&?&?&?&?&?), H2 as (?&?&?&?&?&?&?&?&?&?&?).
  repeat split; congruence.
Qed.

Lemma valid_index_grow chs chs' i :
  valid_index chs i -> (length chs <= length chs')%nat -> valid_index chs' i.
Proof.
  intros [Hc Ho] Hl. split; [|exact Ho]. unfold array_len, zlen in *. lia.
Qed.

Lemma host_bytes_1 v : host_bytes 1 v = [v mod 256].
Proof. unfold host_bytes. destruct big_endian; reflexivity. Qed.

Lemma host_bytes_2_zero : host_bytes 2 (wrap16 0) = [0; 0].
Proof. unfold host_bytes. destruct big_endian; reflexivity. Qed.

(** The chunk length goes to the buffer in network byte order, whatever the
    host's. *)
Lemma host_bytes_htons n :
  0 <= n < 2 ^ 16 ->
  host_bytes 2 (wrap16 (htons n)) = [n / 256; n mod 256].
Proof.
  intros Hn. unfold host_bytes, htons.
  rewrite (wrap16_small n) by exact Hn.
  assert (H1 : 0 <= n / 256 < 256).
  { split; [apply Z.div_pos; lia | apply Z.div_lt_upper_bound; lia]. }
  pose proof (Z.mod_pos_bound n 256) as H2.
  destruct big_endian.
  - rewrite wrap16_small by exact Hn. cbn [le_bytes rev app].
    rewrite (Z.mod_small (n / 256)) by lia. reflexivity.
  - rewrite wrap16_small by lia. cbn [le_bytes].
    f_equal; [|f_equal].
    + rewrite Z.add_comm, Z.mod_add by lia. apply Z.mod_small. lia.
    + rewrite Z.add_comm, Z.div_add by lia.
      rewrite (Z.div_small (n / 256)) by lia. simpl. apply Z.mod_small. lia.
Qed.

(** A write through the buffer's write cursor appends after what was
    written so far. *)
Lemma wb_append c data :
  wf_chunks (chunks (write_buf c)) ->
  valid_index (chunks (write_buf c)) (write (write_buf c)) ->
  zlen data < 2 ^ 31 ->
  exists c',
    at_write_buf_write c (fun chs i => buffer_write chs i data) = Ok c' /\
    same_session c c' /\ client_write c' = client_write c /\
    wf_chunks (chunks (write_buf c')) /\
    valid_index (chunks (write_buf c')) (write (write_buf c')) /\
    pos (write (write_buf c')) = pos (write (write_buf c)) + zlen data /\
    (length (chunks (write_buf c)) <= length (chunks (write_buf c')))%nat /\
    (length (chunks (write_buf c')) = length (chunks (write_buf c)) \/
     array_len (chunks (write_buf c')) * CHUNK
     < pos (write (write_buf c')) + CHUNK) /\
    take (Z.to_nat (pos (write (write_buf c')))) (contents (chunks (write_buf c')))
    = take (Z.to_nat (pos (write (write_buf c)))) (contents (chunks (write_buf c)))
      ++ data /\
    (forall m, (m <= Z.to_nat (pos (write (write_buf c))))%nat ->
       take m (contents (chunks (write_buf c')))
       = take m (contents (chunks (write_buf c)))).
Proof.
  intros Hwf Hv Hlen.
  pose proof (valid_index_pos _ _ Hwf Hv) as Hp.
  destruct (buffer_write_spec data _ _ Hwf Hv Hlen)
    as (chs' & w' & Hw & Hwf' & Hv' & Hpos & Hl & Hg & pad & Hc).
  unfold at_write_buf_write. rewrite Hw. cbn [bind].
  eexists. split; [reflexivity|].
  cbn [write_buf set_write_buf chunks write client_write].
  split; [unfold same_session; cbn; repeat split|].
  split; [reflexivity|]. split; [exact Hwf'|]. split; [exact Hv'|].
  split; [exact Hpos|]. split; [exact Hl|]. split; [exact Hg|].
  rewrite Hc, Hpos.
  replace (Z.to_nat (pos (write (write_buf c)) + zlen data))
    with (Z.to_nat (pos (write (write_buf c))) + length data)%nat
    by (unfold zlen; lia).
  pose proof (valid_index_pos _ _ Hwf' Hv') as Hp'.
  split.
  - rewrite take_inserts_end.
    + f_equal. apply take_app_le. unfold zlen in *. lia.
    + rewrite Hc in Hp'. unfold zlen in Hp'. rewrite length_inserts in Hp'.
      unfold zlen in *. lia.
  - intros m Hm. rewrite take_inserts_before by lia.
    apply take_app_le. unfold zlen in *. lia.
Qed.

(** A write through the saved cursor into the part already written
    overwrites in place. *)
Lemma wb_backfill c data :
  wf_chunks (chunks (write_buf c)) ->
  valid_index (chunks (write_buf c)) (write (write_buf c)) ->
  valid_index (chunks (write_buf c)) (client_write c) ->
  pos (client_write c) + zlen data <= pos (write (write_buf c)) ->
  zlen data < 2 ^ 31 ->
  exists c',
    at_client_write c (fun chs i => buffer_write chs i data) = Ok c' /\
    same_session c c' /\ write (write_buf c') = write (write_buf c) /\
    wf_chunks (chunks (write_buf c')) /\
    length (chunks (write_buf c')) = length (chunks (write_buf c)) /\
    valid_index (chunks (write_buf c')) (client_write c') /\
    pos (client_write c') = pos (client_write c) + zlen data /\
    contents (chunks (write_buf c'))
    = list_inserts (Z.to_nat (pos (client_write c))) data
        (contents (chunks (write_buf c))).
Proof.
  intros Hwf Hvw Hvc Hle Hlen.
  pose proof (valid_index_pos _ _ Hwf Hvw) as Hpw.
  pose proof (valid_index_pos _ _ Hwf Hvc) as Hpc.
  pose proof (zlen_nonneg data) as Hd0.
  destruct (buffer_write_spec data _ _ Hwf Hvc Hlen)
    as (chs' & w' & Hw & Hwf' & Hv' & Hpos & Hl & Hg & pad & Hc).
  assert (Hsame : length chs' = length (chunks (write_buf c))).
  { destruct Hg as [Hg|Hg]; [exact Hg|].
    rewrite zlen_contents in Hpw by assumption.
    unfold array_len, zlen in *. nia. }
  unfold at_client_write. rewrite Hw. cbn [bind].
  eexists. split; [reflexivity|].
  cbn [write_buf set_write_buf set_client_write chunks write client_write].
  split; [unfold same_session; cbn; repeat split|].
  split; [reflexivity|]. split; [exact Hwf'|]. split; [exact Hsame|].
  split; [exact Hv'|]. split; [exact Hpos|].
  assert (pad = []) as ->.
  { apply nil_length_inv.
    assert (Hlc : length (contents chs') = length (contents (chunks (write_buf c)) ++ pad))
      by (rewrite Hc, length_inserts; reflexivity).
    rewrite length_app, !length_contents, Hsame in Hlc by assumption. lia. }
  rewrite app_nil_r in Hc. exact Hc.
Qed.

(** ** Draining the buffer to the socket *)

Lemma no_fault_writes_pass n sk : no_fault sk -> writes_pass n sk.
Proof. apply Forall_take. Qed.

Lemma writes_pass_S n sk :
  writes_pass (S n) sk ->
  writes_pass n sk /\
  Forall (fun o => o = None) (take 1 (drop n (outcomes sk))).
Proof.
  unfold writes_pass. generalize (outcomes sk). clear sk.
  induction n as [|n IH]; intros l H.
  - split; [constructor | exact H].
  - destruct l as [|o l]; [split; constructor|].
    cbn [take drop] in *. apply Forall_cons in H as [Ho H].
    destruct (IH l H) as [H1 H2]. split; [constructor; assumption | exact H2].
Qed.

Lemma socket_write_all_pass sk data :
  Forall (fun o => o = None) (take 1 (outcomes sk)) ->
  socket_write_all sk data
  = (mk_sock_out (sent sk ++ data) (drop 1 (outcomes sk)), true).
Proof.
  intros H. unfold socket_write_all.
  destruct (outcomes sk) as [|[k|] rest]; [reflexivity | | reflexivity].
  apply Forall_cons in H as [H _]. discriminate.
Qed.

(** The full chunks go to the socket one by one while the writes succeed. *)
Lemma socket_write_chunks_pass chs n : forall k sk,
  wf_chunks chs -> (k + n <= length chs)%nat -> writes_pass n sk ->
  socket_write_chunks chs (seq k n) sk
  = Ok (mk_sock_out (sent sk ++ bytes_at chs (Z.of_nat k * CHUNK) (Z.of_nat n * CHUNK))
          (drop n (outcomes sk)), true).
Proof.
  induction n as [|n IH]; intros k sk Hwf Hle Hp.
  - cbn [seq socket_write_chunks]. rewrite Z.mul_0_l, bytes_at_0, app_nil_r.
    destruct sk; reflexivity.
  - cbn [seq socket_write_chunks].
    rewrite chunk_load_spec by (try assumption; unfold array_len, zlen; lia).
    cbn [bind]. rewrite Z.add_0_r.
    assert (Hp1 : Forall (fun o => o = None) (take 1 (outcomes sk))).
    { unfold writes_pass in Hp. destruct (outcomes sk); [constructor|].
      cbn [take] in *. apply Forall_cons in Hp as [Ho _].
      constructor; [exact Ho | constructor]. }
    rewrite socket_write_all_pass by exact Hp1.
    rewrite IH; [|assumption | lia |].
    + cbn [sent outcomes]. rewrite drop_drop, <- app_assoc.
      replace (Z.of_nat (S n) * CHUNK) with (CHUNK + Z.of_nat n * CHUNK) by lia.
      rewrite bytes_at_split by nia.
      replace (Z.of_nat (S k) * CHUNK) with (Z.of_nat k * CHUNK + CHUNK) by lia.
      reflexivity.
    + unfold writes_pass in *. cbn [outcomes].
      destruct (outcomes sk); [rewrite drop_nil, take_nil; constructor|].
      cbn [take drop] in *. apply Forall_cons in Hp as [_ Hp]. exact Hp.
Qed.

(** The loop is left at the first write that fails. *)
Lemma socket_write_chunks_fault chs j : forall n k sk m rest,
  wf_chunks chs -> (k + n <= length chs)%nat -> (j < n)%nat ->
  outcomes sk = replicate j None ++ Some m :: rest ->
  socket_write_chunks chs (seq k n) sk
  = Ok (mk_sock_out
          (sent sk ++ bytes_at chs (Z.of_nat k * CHUNK) (Z.of_nat j * CHUNK)
             ++ take m (bytes_at chs (Z.of_nat (k + j) * CHUNK) CHUNK))
          rest, false).
Proof.
  induction j as [|j IH]; intros n k sk m rest Hwf Hle Hj Ho;
    (destruct n as [|n]; [lia|]); cbn [seq socket_write_chunks];
    rewrite chunk_load_spec by (try assumption; unfold array_len, zlen; lia);
    cbn [bind]; rewrite Z.add_0_r; unfold socket_write_all; rewrite Ho;
    cbn [replicate app].
  - rewrite Z.mul_0_l, bytes_at_0, Nat.add_0_r. reflexivity.
  - rewrite (IH n (S k) _ m rest); [|assumption | lia | lia | reflexivity].
    cbn [sent]. rewrite <- !app_assoc.
    replace (Z.of_nat (S j) * CHUNK) with (CHUNK + Z.of_nat j * CHUNK) by lia.
    rewrite bytes_at_split by nia. rewrite <- app_assoc.
    replace (Z.of_nat (S k) * CHUNK) with (Z.of_nat k * CHUNK + CHUNK) by lia.
    replace (S k + j)%nat with (k + S j)%nat by lia.
    reflexivity.
Qed.

Lemma socket_write_chunks_total chs n : forall k sk,
  wf_chunks chs -> (k + n <= length chs)%nat ->
  exists sk' ok, socket_write_chunks chs (seq k n) sk = Ok (sk', ok).
Proof.
  induction n as [|n IH]; intros k sk Hwf Hle.
  - exists sk, true. reflexivity.
  - cbn [seq socket_write_chunks].
    rewrite chunk_load_spec by (try assumption; unfold array_len, zlen; lia).
    cbn [bind]. destruct (socket_write_all sk _) as [sk1 [|]].
    + apply IH; [assumption | lia].
    + exists sk1, false. reflexivity.
Qed.

Lemma buffer_socket_write_pass chs buf sk :
  wf_chunks chs -> valid_index chs buf ->
  writes_pass (S (Z.to_nat (chunk buf))) sk ->
  buffer_socket_write chs buf sk
  = Ok (mk_sock_out (sent sk ++ take (Z.to_nat (pos buf)) (contents chs))
          (drop (S (Z.to_nat (chunk buf))) (outcomes sk)), true).
Proof.
  intros Hwf [Hc Ho] Hp. unfold buffer_socket_write.
  destruct (writes_pass_S _ _ Hp) as [Hp0 Hp1].
  rewrite socket_write_chunks_pass
    by (try assumption; unfold array_len, zlen in *; lia).
  cbn [bind].
  rewrite chunk_load_spec by (try assumption; lia).
  cbn [bind]. rewrite socket_write_all_pass by exact Hp1.
  cbn [sent outcomes]. change (Z.of_nat 0) with 0.
  rewrite Z2Nat.id, Z.mul_0_l, Z.add_0_r, drop_drop by lia.
  rewrite <- app_assoc, <- bytes_at_split by nia.
  replace (Z.to_nat (chunk buf) + 1)%nat with (S (Z.to_nat (chunk buf))) by lia.
  unfold bytes_at, pos. rewrite drop_0. reflexivity.
Qed.

Lemma buffer_socket_write_fault chs buf sk j m rest :
  wf_chunks chs -> valid_index chs buf ->
  outcomes sk = replicate j None ++ Some m :: rest ->
  Z.of_nat j <= chunk buf ->
  buffer_socket_write chs buf sk
  = Ok (mk_sock_out
          (sent sk ++ bytes_at chs 0 (Z.of_nat j * CHUNK)
             ++ take m (bytes_at chs (Z.of_nat j * CHUNK)
                          (if Z.of_nat j <? chunk buf then CHUNK else offset buf)))
          rest, false).
Proof.
  intros Hwf [Hc Hoff] Ho Hj. unfold buffer_socket_write.
  destruct (Z.of_nat j <? chunk buf) eqn:Hlt.
  - apply Z.ltb_lt in Hlt.
    rewrite (socket_write_chunks_fault chs j _ 0%nat sk m rest)
      by (try assumption; unfold array_len, zlen in *; lia).
    reflexivity.
  - apply Z.ltb_ge in Hlt. assert (Hjc : Z.to_nat (chunk buf) = j) by lia.
    rewrite socket_write_chunks_pass;
      [|assumption | unfold array_len, zlen in *; lia |].
    + cbn [bind]. rewrite chunk_load_spec by (try assumption; lia).
      cbn [bind]. unfold socket_write_all. cbn [sent outcomes].
      rewrite Hjc, Ho, drop_app_length' by (rewrite length_replicate; reflexivity).
      change (Z.of_nat 0) with 0.
      rewrite Z.mul_0_l, Z.add_0_r, <- app_assoc.
      replace (chunk buf) with (Z.of_nat j) by lia. reflexivity.
    + unfold writes_pass. rewrite Hjc, Ho, take_app_length'
        by (rewrite length_replicate; reflexivity).
      apply Forall_replicate. reflexivity.
Qed.

(** Whatever the socket does, [buffer_socket_write] returns; on a socket
    without fault it sends the bytes before the cursor. *)
Lemma buffer_socket_write_spec chs buf sk :
  wf_chunks chs -> valid_index chs buf ->
  exists sk' ok,
    buffer_socket_write chs buf sk = Ok (sk', ok) /\
    (no_fault sk ->
     ok = true /\ no_fault sk' /\
     sent sk' = sent sk ++ take (Z.to_nat (pos buf)) (contents chs)).
Proof.
  intros Hwf Hv.
  assert (Htot : exists sk' ok, buffer_socket_write chs buf sk = Ok (sk', ok)).
  { destruct Hv as [Hc Ho]. unfold buffer_socket_write.
    destruct (socket_write_chunks_total chs (Z.to_nat (chunk buf)) 0 sk Hwf)
      as (sk1 & ok & ->); [unfold array_len, zlen in *; lia|].
    cbn [bind]. destruct ok; [|eexists _, _; reflexivity].
    rewrite chunk_load_spec by (try assumption; lia).
    cbn [bind]. destruct (socket_write_all sk1 _) as [sk2 ok].
    eexists _, _. reflexivity. }
  destruct Htot as (sk' & ok & Hrun). exists sk', ok. split; [exact Hrun|].
  intros Hnf.
  rewrite (buffer_socket_write_pass chs buf sk Hwf Hv) in Hrun
    by (apply no_fault_writes_pass; exact Hnf).
  injection Hrun as <- <-. split; [reflexivity|]. split; [|reflexivity].
  apply Forall_drop. exact Hnf.
Qed.

(** ** Rewinding the cursors of the write buffer *)

Lemma buffer_index_spec chs off :
  0 <= off < CHUNK * array_len chs -> CHUNK * array_len chs < 2 ^ 32 ->
  buffer_index chs off = Ok (normalized off) /\
  valid_index chs (normalized off) /\ pos (normalized off) = off.
Proof.
  intros Hoff Hsmall. unfold buffer_index. cbv zeta.
  rewrite (wrap32_small off), (wrap32_small (CHUNK * array_len chs)) by lia.
  replace (off <? CHUNK * array_len chs) with true
    by (symmetry; apply Z.ltb_lt; lia).
  split; [reflexivity|].
  pose proof (Z.mod_pos_bound off CHUNK CHUNK_pos) as Hm.
  pose proof (Z.div_mod off CHUNK) as Hdm.
  unfold normalized, valid_index, pos. cbn [chunk offset].
  split; [|lia]. split; [|lia]. split.
  - apply Z.div_pos; lia.
  - apply Z.div_lt_upper_bound; lia.
Qed.

Lemma client_rewind_spec c a b :
  0 <= a < CHUNK * array_len (chunks (write_buf c)) ->
  0 <= b < CHUNK * array_len (chunks (write_buf c)) ->
  CHUNK * array_len (chunks (write_buf c)) < 2 ^ 32 ->
  exists c',
    client_rewind c a b = Ok c' /\ same_session c c' /\
    chunks (write_buf c') = chunks (write_buf c) /\
    client_write c' = normalized a /\ write (write_buf c') = normalized b.
Proof.
  intros Ha Hb Hsmall. unfold client_rewind.
  destruct (buffer_index_spec _ a Ha Hsmall) as (-> & _ & _).
  destruct (buffer_index_spec _ b Hb Hsmall) as (-> & _ & _).
  cbn [bind]. eexists. split; [reflexivity|].
  split; [unfold same_session; cbn; repeat split|].
  cbn. repeat split.
Qed.

(** One reply of the RESET path: the payload lies at position 2, the saved
    cursor is at position 0. *)
Lemma send_reset_reply_spec c sk P X :
  write_buf_ok c ->
  pos (client_write c) = 0 ->
  pos (write (write_buf c)) = 2 + zlen P ->
  take (Z.to_nat (2 + zlen P)) (contents (chunks (write_buf c))) = X ++ P ->
  length X = 2%nat ->
  zlen P <= 65533 ->
  CHUNK * array_len (chunks (write_buf c)) < 2 ^ 32 ->
  exists c' sk',
    send_reset_reply c sk = Ok (c', sk') /\
    (no_fault sk -> no_fault sk' /\ sent sk' = sent sk ++ bolt_message P) /\
    same_session c c' /\
    wf_chunks (chunks (write_buf c')) /\
    client_write c' = normalized 0 /\ write (write_buf c') = normalized 2 /\
    2 < CHUNK * array_len (chunks (write_buf c')) < 2 ^ 32.
Proof.
  intros (Hwf & Hvw & Hvc) Hp0 Hpw Htake HX HP Hsmall.
  pose proof (zlen_nonneg P) as HP0.
  unfold send_reset_reply.
  rewrite buffer_index_diff_pos, Hp0, Hpw.
  rewrite (wrap16_small (2 + zlen P - 0)) by lia.
  replace (2 + zlen P - 0 - 2) with (zlen P) by lia.
  rewrite (wrap16_small (zlen P)) by lia.
  unfold buffer_write_uint16, buffer_write_uint8.
  rewrite host_bytes_htons by lia. rewrite host_bytes_1.
  change (wrap8 0 mod 256) with 0.
  set (H := [zlen P / 256; zlen P mod 256]).
  destruct (wb_backfill c H Hwf Hvw Hvc)
    as (c1 & -> & Hs1 & Hw1 & Hwf1 & Hl1 & Hvc1 & Hpc1 & Hc1);
    [rewrite Hp0, Hpw; unfold H, zlen; simpl; lia | unfold H, zlen; simpl; lia |].
  cbn [bind].
  assert (Hvw1 : valid_index (chunks (write_buf c1)) (write (write_buf c1))).
  { rewrite Hw1. apply (valid_index_grow _ _ _ Hvw). lia. }
  destruct (wb_append c1 [0] Hwf1 Hvw1)
    as (c2 & -> & Hs2 & Hcw2 & Hwf2 & Hvw2 & Hpw2 & Hl2 & Hg2 & Ht2 & _);
    [unfold zlen; simpl; lia|].
  cbn [bind].
  destruct (wb_append c2 [0] Hwf2 Hvw2)
    as (c3 & -> & Hs3 & Hcw3 & Hwf3 & Hvw3 & Hpw3 & Hl3 & Hg3 & Ht3 & _);
    [unfold zlen; simpl; lia|].
  cbn [bind].
  destruct (buffer_socket_write_spec _ _ sk Hwf3 Hvw3) as (sk' & ok & -> & Hsent).
  cbn [bind].
  pose proof (valid_index_pos _ _ Hwf3 Hvw3) as Hp3.
  rewrite zlen_contents in Hp3 by assumption.
  assert (Hpw3' : pos (write (write_buf c3)) = 4 + zlen P).
  { rewrite Hpw3, Hpw2, Hw1, Hpw. unfold zlen. simpl. lia. }
  assert (Hsmall3 : CHUNK * array_len (chunks (write_buf c3)) < 2 ^ 32).
  { unfold array_len, zlen in *.
    destruct Hg3 as [Hg3|Hg3]; [|lia].
    destruct Hg2 as [Hg2|Hg2]; [|rewrite Hg3; lia].
    rewrite Hg3, Hg2, Hl1. exact Hsmall. }
  destruct (client_rewind_spec c3 0 2) as (c4 & -> & Hs4 & Hch4 & Hcw4 & Hw4);
    [lia | lia | exact Hsmall3 |].
  cbn [bind]. exists c4, sk'. split; [reflexivity|]. split.
  - intros Hnf. destruct (Hsent Hnf) as (_ & Hnf' & ->).
    split; [exact Hnf'|]. f_equal.
    rewrite Ht3, Ht2, Hw1, Hpw, Hc1, Hp0.
    rewrite take_inserts_inside by (unfold H; simpl; lia).
    rewrite Htake. change (Z.to_nat 0) with 0%nat.
    rewrite list_inserts_0_r by (rewrite HX; reflexivity).
    f_equal. unfold bolt_message, H. rewrite <- !app_assoc. reflexivity.
  - split.
    { eapply same_session_trans; [|exact Hs4].
      eapply same_session_trans; [|exact Hs3].
      eapply same_session_trans; [exact Hs1 | exact Hs2]. }
    rewrite Hch4. split; [exact Hwf3|]. split; [exact Hcw4|].
    split; [exact Hw4|]. lia.
Qed.

(** ** The RESET path of [bolt_client_send] *)

Lemma composing_rewound c :
  wf_chunks (chunks (write_buf c)) ->
  2 < CHUNK * array_len (chunks (write_buf c)) < 2 ^ 32 ->
  exists c',
    client_rewind c 0 2 = Ok c' /\ same_session c c' /\
    composing c' (take 2 (contents (chunks (write_buf c)))) [].
Proof.
  intros Hwf Hsz.
  destruct (client_rewind_spec c 0 2) as (c' & Hr & Hs & Hch & Hcw & Hw);
    [lia | lia | lia |].
  destruct (buffer_index_spec (chunks (write_buf c)) 0) as (_ & Hv0 & Hp0); [lia|lia|].
  destruct (buffer_index_spec (chunks (write_buf c)) 2) as (_ & Hv2 & Hp2); [lia|lia|].
  exists c'. split; [exact Hr|]. split; [exact Hs|].
  unfold composing, write_buf_ok. rewrite Hch, Hcw, Hw.
  split; [split; [exact Hwf | split; [exact Hv2 | exact Hv0]]|].
  split; [exact Hp0|]. split; [exact Hp2|].
  rewrite app_nil_r. split; [reflexivity|]. split; [|lia].
  rewrite length_take, length_contents by assumption.
  unfold array_len, zlen in Hsz. nia.
Qed.

Lemma composing_append c X Q P :
  composing c X Q -> zlen Q + zlen P <= 65533 ->
  exists c',
    at_write_buf_write c (fun chs i => buffer_write chs i P) = Ok c' /\
    same_session c c' /\ composing c' X (Q ++ P).
Proof.
  intros ((Hwf & Hvw & Hvc) & Hp0 & Hpw & Htake & HX & Hsmall) Hlen.
  pose proof (zlen_nonneg P) as HP0. pose proof (zlen_nonneg Q) as HQ0.
  destruct (wb_append c P Hwf Hvw)
    as (c' & Hrun & Hs & Hcw & Hwf' & Hvw' & Hpw' & Hl & Hg & Ht & _); [lia|].
  exists c'. split; [exact Hrun|]. split; [exact Hs|].
  unfold composing, write_buf_ok. rewrite Hcw, zlen_app.
  split.
  { split; [exact Hwf'|]. split; [exact Hvw'|].
    apply (valid_index_grow _ _ _ Hvc Hl). }
  split; [exact Hp0|]. split; [lia|]. split.
  { replace (2 + (zlen Q + zlen P)) with (pos (write (write_buf c'))) by lia.
    rewrite Ht, Hpw, Htake, app_assoc. reflexivity. }
  split; [exact HX|].
  unfold array_len, zlen in *.
  destruct Hg as [Hg|Hg]; [rewrite Hg; exact Hsmall | lia].
Qed.

Lemma composing_send c sk X P :
  composing c X P -> zlen P <= 65533 ->
  exists c' sk',
    send_reset_reply c sk = Ok (c', sk') /\
    (no_fault sk -> no_fault sk' /\ sent sk' = sent sk ++ bolt_message P) /\
    same_session c c' /\
    composing c' (take 2 (contents (chunks (write_buf c')))) [].
Proof.
  intros (Hok & Hp0 & Hpw & Htake & HX & Hsmall) Hlen.
  destruct (send_reset_reply_spec c sk P X Hok Hp0 Hpw Htake HX Hlen Hsmall)
    as (c' & sk' & Hrun & Hsent & Hs & Hwf' & Hcw & Hw & Hsz).
  exists c', sk'. split; [exact Hrun|]. split; [exact Hsent|]. split; [exact Hs|].
  destruct (buffer_index_spec (chunks (write_buf c')) 0) as (_ & Hv0 & Hq0); [lia|lia|].
  destruct (buffer_index_spec (chunks (write_buf c')) 2) as (_ & Hv2 & Hq2); [lia|lia|].
  unfold composing, write_buf_ok. rewrite Hcw, Hw.
  split; [split; [exact Hwf' | split; [exact Hv2 | exact Hv0]]|].
  split; [exact Hq0|]. split; [exact Hq2|].
  rewrite app_nil_r. split; [reflexivity|]. split; [|lia].
  rewrite length_take, length_contents by assumption.
  unfold array_len, zlen in Hsz. nia.
Qed.

(** C2, as the code has it: with the reset flag set, [bolt_client_send]
    clears the flag, and leaves the state as it was when it is not FAILED
    and sets it to READY when it is, whatever the socket does with the
    writes; when no [socket_write_all] fails, the socket gets exactly one
    SUCCESS message with an empty map, in Bolt chunk framing with its
    terminator, preceded by exactly one IGNORED message when the state was
    FAILED. *)
Theorem bolt_client_send_reset c sk :
  reset c = true ->
  wf_chunks (chunks (write_buf c)) ->
  2 < CHUNK * array_len (chunks (write_buf c)) < 2 ^ 32 ->
  zlen (structure_bytes BST_SUCCESS 1 ++ map_bytes 0) <= 65533 ->
  zlen (structure_bytes BST_IGNORED 0) <= 65533 ->
  exists c' sk',
    bolt_client_send c sk = Ok (c', sk') /\
    reset c' = false /\
    state c' = (if bool_decide (state c = BS_FAILED) then BS_READY else state c) /\
    (no_fault sk ->
     sent sk'
     = sent sk
       ++ (if bool_decide (state c = BS_FAILED)
           then bolt_message (structure_bytes BST_IGNORED 0) else [])
       ++ bolt_message (structure_bytes BST_SUCCESS 1 ++ map_bytes 0)).
Proof.
  intros Hreset Hwf Hsz Hsucc Hign.
  rewrite zlen_app in Hsucc.
  pose proof (zlen_nonneg (structure_bytes BST_SUCCESS 1)) as Hs0.
  pose proof (zlen_nonneg (map_bytes 0)) as Hm0.
  unfold bolt_client_send. rewrite Hreset.
  destruct (composing_rewound c Hwf Hsz) as (c0 & -> & Hs & Hcomp0).
  cbn [bind].
  assert (Hst0 : state c0 = state c) by (destruct Hs as (_ & H & _); exact H).
  rewrite Hst0.
  unfold bolt_reply_structure, bolt_reply_map.
  destruct (bool_decide (state c = BS_FAILED)) eqn:Hfailed; cbn [negb].
  - (* FAILED: IGNORED, then SUCCESS *)
    destruct (composing_append c0 _ [] (structure_bytes BST_IGNORED 0) Hcomp0)
      as (c1 & -> & Hs1 & Hcomp1); [unfold zlen at 1; simpl; lia|].
    cbn [bind app] in *.
    destruct (composing_send c1 sk _ _ Hcomp1 Hign)
      as (c2 & sk1 & -> & Hsent1 & Hs2 & Hcomp2).
    cbn [bind].
    destruct (composing_append c2 _ [] (structure_bytes BST_SUCCESS 1) Hcomp2)
      as (c3 & -> & Hs3 & Hcomp3); [unfold zlen at 1; simpl; lia|].
    cbn [bind app] in *.
    destruct (composing_append c3 _ _ (map_bytes 0) Hcomp3)
      as (c4 & -> & Hs4 & Hcomp4); [lia|].
    cbn [bind].
    destruct (composing_send c4 sk1 _ _ Hcomp4)
      as (c5 & sk2 & -> & Hsent2 & Hs5 & Hcomp5); [rewrite zlen_app; lia|].
    cbn [bind]. eexists _, _. split; [reflexivity|].
    split; [reflexivity|]. split; [reflexivity|].
    intros Hnf. destruct (Hsent1 Hnf) as [Hnf1 E1].
    destruct (Hsent2 Hnf1) as [_ E2].
    rewrite E2, E1, <- app_assoc. reflexivity.
  - (* any other state: SUCCESS *)
    destruct (composing_append c0 _ [] (structure_bytes BST_SUCCESS 1) Hcomp0)
      as (c1 & -> & Hs1 & Hcomp1); [unfold zlen at 1; simpl; lia|].
    cbn [bind app] in *.
    destruct (composing_append c1 _ _ (map_bytes 0) Hcomp1)
      as (c2 & -> & Hs2 & Hcomp2); [lia|].
    cbn [bind].
    destruct (composing_send c2 sk _ _ Hcomp2)
      as (c3 & sk1 & -> & Hsent1 & Hs3 & Hcomp3); [rewrite zlen_app; lia|].
    cbn [bind]. eexists _, _. split; [reflexivity|]. split; [reflexivity|].
    split.
    + cbn [state set_reset].
      destruct Hs1 as (_ & E1 & _), Hs2 as (_ & E2 & _), Hs3 as (_ & E3 & _).
      congruence.
    + intros Hnf. destruct (Hsent1 Hnf) as [_ E1]. exact E1.
Qed.

(** ** Closing a message in WebSocket mode *)

Lemma bytes_at_take chs q n m :
  (Z.to_nat q + Z.to_nat n <= m)%nat ->
  bytes_at chs q n = take (Z.to_nat n) (drop (Z.to_nat q) (take m (contents chs))).
Proof.
  intros Hle. unfold bytes_at.
  rewrite !take_drop_commute, take_take. do 2 f_equal. lia.
Qed.

Lemma wrap8_mod x : wrap8 x mod 256 = x mod 256.
Proof. unfold wrap8. change (2 ^ 8) with 256. apply Z.mod_mod. lia. Qed.

(** The bytes [bolt_client_end_message] leaves in the write buffer in
    WebSocket mode, [L] being the number of payload bytes written after the
    four reserved bytes at the saved cursor. *)
Lemma end_message_ws_spec c L :
  write_buf_ok c -> ws c = true ->
  pos (write (write_buf c)) = pos (client_write c) + 4 + L ->
  0 <= L -> L + 4 < 65536 ->
  exists c',
    bolt_client_end_message c = Ok c' /\
    same_session c c' /\
    bytes_at (chunks (write_buf c')) (pos (client_write c)) 4
    = [0x82; (L + 4) mod 256; L / 256; L mod 256] /\
    bytes_at (chunks (write_buf c')) (pos (client_write c) + 4) L
    = bytes_at (chunks (write_buf c)) (pos (client_write c) + 4) L /\
    bytes_at (chunks (write_buf c')) (pos (write (write_buf c))) 2 = [0; 0] /\
    pos (client_write c') = pos (write (write_buf c)) + 2 /\
    pos (write (write_buf c')) = pos (write (write_buf c)) + 6.
Proof.
  intros (Hwf & Hvw & Hvc) Hws Hpw HL0 HL.
  pose proof (valid_index_pos _ _ Hwf Hvc) as Hpc.
  pose proof (valid_index_pos _ _ Hwf Hvw) as Hpw0.
  set (p0 := pos (client_write c)) in *.
  set (p1 := pos (write (write_buf c))) in *.
  unfold bolt_client_end_message. rewrite Hws.
  rewrite buffer_index_diff_pos. fold p0 p1. rewrite Hpw.
  replace (p0 + 4 + L - p0) with (4 + L) by lia.
  rewrite (wrap16_small (4 + L)) by lia.
  replace (4 + L - 2) with (L + 2) by lia.
  rewrite (wrap16_small (L + 2)) by lia.
  replace (L + 2 - 2) with L by lia.
  rewrite (wrap16_small L) by lia.
  unfold buffer_write_uint16, buffer_write_uint8. cbv iota.
  rewrite !host_bytes_1, host_bytes_2_zero.
  rewrite !wrap8_mod. change (130 mod 256) with 130. change (0 mod 256) with 0.
  replace (L + 2 + 2) with (L + 4) by lia.
  (* the frame header and the chunk length, through the saved cursor *)
  destruct (wb_backfill c [130] Hwf Hvw Hvc)
    as (ca & -> & Hsa & Hwa & Hwfa & Hla & Hvca & Hpca & Hca);
    [fold p0 p1; unfold zlen; simpl; lia | unfold zlen; simpl; lia |].
  cbn [bind].
  assert (Hvwa : valid_index (chunks (write_buf ca)) (write (write_buf ca))).
  { rewrite Hwa. apply (valid_index_grow _ _ _ Hvw). lia. }
  destruct (wb_backfill ca [(L + 4) mod 256] Hwfa Hvwa Hvca)
    as (cb & -> & Hsb & Hwb & Hwfb & Hlb & Hvcb & Hpcb & Hcb);
    [rewrite Hpca, Hwa; fold p0 p1; unfold zlen; simpl; lia
    | unfold zlen; simpl; lia |].
  cbn [bind]. rewrite host_bytes_htons by lia.
  assert (Hvwb : valid_index (chunks (write_buf cb)) (write (write_buf cb))).
  { rewrite Hwb. apply (valid_index_grow _ _ _ Hvwa). lia. }
  destruct (wb_backfill cb [L / 256; L mod 256] Hwfb Hvwb Hvcb)
    as (c2 & -> & Hs2 & Hw2 & Hwf2 & Hl2 & Hvc2 & Hpc2 & Hc2);
    [rewrite Hpcb, Hpca, Hwb, Hwa; fold p0 p1; unfold zlen; simpl; lia
    | unfold zlen; simpl; lia |].
  cbn [bind].
  assert (Hvw2 : valid_index (chunks (write_buf c2)) (write (write_buf c2))).
  { rewrite Hw2. apply (valid_index_grow _ _ _ Hvwb). lia. }
  assert (Hhdr : contents (chunks (write_buf c2))
                 = list_inserts (Z.to_nat p0)
                     [130; (L + 4) mod 256; L / 256; L mod 256]
                     (contents (chunks (write_buf c)))).
  { rewrite Hc2, Hcb, Hca, Hpcb, Hpca. fold p0.
    change (zlen [130]) with 1. change (zlen [(L + 4) mod 256]) with 1.
    change [130; (L + 4) mod 256; L / 256; L mod 256]
      with ([130] ++ [(L + 4) mod 256] ++ [L / 256; L mod 256]).
    rewrite !list_inserts_app_l. cbn [length].
    replace (Z.to_nat (p0 + 1 + 1)) with (1 + (1 + Z.to_nat p0))%nat by lia.
    replace (Z.to_nat (p0 + 1)) with (1 + Z.to_nat p0)%nat by lia.
    reflexivity. }
  assert (Hw2p : pos (write (write_buf c2)) = p1) by (rewrite Hw2, Hwb, Hwa; reflexivity).
  (* the terminator and the slots of the next message, through the write cursor *)
  destruct (wb_append c2 [0] Hwf2 Hvw2)
    as (c3 & -> & Hs3 & Hcw3 & Hwf3 & Hvw3 & Hpw3 & Hl3 & Hg3 & Ht3 & Hk3);
    [unfold zlen; simpl; lia|].
  cbn [bind].
  destruct (wb_append c3 [0] Hwf3 Hvw3)
    as (c4 & -> & Hs4 & Hcw4 & Hwf4 & Hvw4 & Hpw4 & Hl4 & Hg4 & Ht4 & Hk4);
    [unfold zlen; simpl; lia|].
  cbn [bind].
  set (c5 := set_client_write c4 (write (write_buf c4))).
  assert (Hs5 : same_session c4 c5) by (unfold same_session, c5; cbn; repeat split).
  destruct (wb_append c5 [0; 0] Hwf4 Hvw4)
    as (c6 & -> & Hs6 & Hcw6 & Hwf6 & Hvw6 & Hpw6 & Hl6 & Hg6 & Ht6 & Hk6);
    [unfold zlen; simpl; lia|].
  cbn [bind].
  destruct (wb_append c6 [0; 0] Hwf6 Hvw6)
    as (c7 & Hrun7 & Hs7 & Hcw7 & Hwf7 & Hvw7 & Hpw7 & Hl7 & Hg7 & Ht7 & Hk7);
    [unfold zlen; simpl; lia|].
  rewrite Hrun7.
  cbn [write_buf chunks write set_client_write c5] in *.
  assert (Hp3 : pos (write (write_buf c3)) = p1 + 1)
    by (rewrite Hpw3, Hw2p; unfold zlen; simpl; lia).
  assert (Hp4 : pos (write (write_buf c4)) = p1 + 2)
    by (rewrite Hpw4, Hp3; unfold zlen; simpl; lia).
  assert (Hp6 : pos (write (write_buf c6)) = p1 + 4)
    by (rewrite Hpw6, Hp4; unfold zlen; simpl; lia).
  assert (Hp7 : pos (write (write_buf c7)) = p1 + 6)
    by (rewrite Hpw7, Hp6; unfold zlen; simpl; lia).
  (* what the buffer holds up to the end of the terminator *)
  assert (Hfin : take (Z.to_nat (p1 + 2)) (contents (chunks (write_buf c7)))
                 = take (Z.to_nat p1) (contents (chunks (write_buf c2))) ++ [0; 0]).
  { rewrite Hk7 by lia. rewrite Hk6 by lia.
    rewrite <- Hp4, Ht4, Ht3, Hw2p, <- app_assoc. reflexivity. }
  assert (Hlen2 : length (contents (chunks (write_buf c2)))
                  = length (contents (chunks (write_buf c))))
    by (rewrite Hhdr, length_inserts; reflexivity).
  assert (HlenA : length (take (Z.to_nat p1) (contents (chunks (write_buf c2))))
                  = Z.to_nat p1).
  { rewrite length_take, Hlen2. unfold zlen in *. lia. }
  exists c7. split; [reflexivity|]. split.
  { eapply same_session_trans; [|exact Hs7].
    eapply same_session_trans; [|exact Hs6].
    eapply same_session_trans; [|exact Hs5].
    eapply same_session_trans; [|exact Hs4].
    eapply same_session_trans; [|exact Hs3].
    eapply same_session_trans; [|exact Hs2].
    eapply same_session_trans; [exact Hsa | exact Hsb]. }
  split; [|split; [|split; [|split]]].
  - rewrite (bytes_at_take _ _ _ (Z.to_nat (p1 + 2))) by lia.
    rewrite Hfin, slice_app_l by lia.
    rewrite <- (bytes_at_take _ _ _ (Z.to_nat p1)) by lia.
    apply (written_bytes (chunks (write_buf c)) _ _
             [130; (L + 4) mod 256; L / 256; L mod 256] []).
    + lia.
    + unfold zlen in *. cbn [length]. rewrite Hlen2. lia.
    + rewrite app_nil_r. exact Hhdr.
  - rewrite (bytes_at_take _ _ _ (Z.to_nat (p1 + 2))) by lia.
    rewrite Hfin, slice_app_l by lia.
    rewrite <- (bytes_at_take _ _ _ (Z.to_nat p1)) by lia.
    apply (written_outside (chunks (write_buf c)) _ p0
             [130; (L + 4) mod 256; L / 256; L mod 256] []); try lia.
    + right. unfold zlen. cbn [length]. lia.
    + rewrite app_nil_r. exact Hhdr.
  - rewrite (bytes_at_take _ _ _ (Z.to_nat (p1 + 2))) by lia.
    rewrite Hfin. rewrite drop_app_length' by (rewrite HlenA; lia).
    reflexivity.
  - rewrite Hcw7, Hcw6. unfold c5. cbn [client_write set_client_write]. lia.
  - lia.
Qed.

Lemma land_127_small b : 0 <= b < 128 -> Z.land b 127 = b.
Proof.
  intros Hb. change 127 with (Z.ones 7).
  rewrite Z.land_ones by lia. apply Z.mod_small. exact Hb.
Qed.

(** C6, as the code has it: in WebSocket mode [bolt_client_end_message]
    writes at the saved cursor the byte 0x82 and one byte holding
    [(n + 2) mod 256], [n] being the value backfilled into the chunk-length
    slot plus 2, then that chunk length in network order; the payload
    follows unchanged and the terminator ends the frame. The frame payload
    (length slot, payload, terminator) has [n + 2] bytes, and the header
    announces that length, unmasked, for every message whose frame payload
    is at most 125 bytes. Here [L] is the payload of the chunk, so that
    [n = L + 2]. *)
Theorem end_message_ws_frame_header c L :
  write_buf_ok c -> ws c = true ->
  pos (write (write_buf c)) = pos (client_write c) + 4 + L ->
  0 <= L -> L + 4 < 65536 ->
  exists c',
    bolt_client_end_message c = Ok c' /\
    bytes_at (chunks (write_buf c')) (pos (client_write c)) 4
    = [0x82; (L + 2 + 2) mod 256; L / 256; L mod 256] /\
    bytes_at (chunks (write_buf c')) (pos (client_write c) + 4) L
    = bytes_at (chunks (write_buf c)) (pos (client_write c) + 4) L /\
    bytes_at (chunks (write_buf c')) (pos (client_write c) + 4 + L) 2 = [0; 0] /\
    pos (client_write c') - (pos (client_write c) + 2) = L + 2 + 2 /\
    (L + 2 + 2 <= 125 ->
     ws_payload_length (bytes_at (chunks (write_buf c')) (pos (client_write c)) 4)
     = Some (L + 2 + 2) /\
     ws_masked (bytes_at (chunks (write_buf c')) (pos (client_write c)) 4)
     = Some false).
Proof.
  intros Hok Hws Hpw HL0 HL.
  destruct (end_message_ws_spec c L Hok Hws Hpw HL0 HL)
    as (c' & Hrun & _ & Hhdr & Hpay & Hterm & Hcw & _).
  replace (L + 2 + 2) with (L + 4) by lia.
  exists c'. split; [exact Hrun|]. split; [exact Hhdr|]. split; [exact Hpay|].
  split; [rewrite <- Hpw; exact Hterm|]. split; [lia|].
  intros Hsmall. rewrite Hhdr.
  rewrite (Z.mod_small (L + 4)) by lia.
  unfold ws_payload_length, ws_masked.
  rewrite land_127_small by lia.
  replace (L + 4 <? 126) with true by (symmetry; apply Z.ltb_lt; lia).
  split; [reflexivity|]. f_equal.
  apply Z.bits_above_log2; [lia|].
  destruct (decide (L + 4 = 0)) as [->|Hnz]; [simpl; lia|].
  apply Z.log2_lt_pow2; lia.
Qed.

(** ** Filling from the socket *)

(** The write cursor is in the last chunk, before its end; the socket
    delivers exactly the bytes that fill the chunk and then reports end of
    file to the read that continues in the next chunk: [buffer_socket_read]
    returns [true], with the cursor at the start of the new chunk. *)
Lemma buffer_socket_read_fill_then_eof buf bs rest :
  wf_chunks (chunks buf) ->
  chunk (write buf) + 1 = array_len (chunks buf) ->
  0 <= chunk (write buf) ->
  0 <= offset (write buf) < CHUNK ->
  zlen bs = CHUNK - offset (write buf) ->
  exists chs',
    buffer_socket_read buf (SockData bs :: SockEOF :: rest)
    = Ok (mk_buffer chs' (read buf) (mk_index (chunk (write buf) + 1) 0),
          rest, true).
Proof.
  intros Hwf Hlast Hc Ho Hbs.
  unfold buffer_socket_read, socket_read.
  replace (CHUNK - offset (write buf) <=? 0) with false
    by (symmetry; apply Z.leb_gt; lia).
  replace (zlen bs <=? CHUNK - offset (write buf)) with true
    by (symmetry; apply Z.leb_le; lia).
  destruct (chunk_store_spec (chunks buf) (chunk (write buf)) (offset (write buf)) bs Hwf)
    as (chs1 & -> & Hwf1 & Hl1 & _); [lia | lia | lia |].
  cbn [bind].
  replace (zlen bs <? 0) with false by (symmetry; apply Z.ltb_ge; lia).
  replace (zlen bs =? 0) with false by (symmetry; apply Z.eqb_neq; lia).
  cbn [orb andb].
  rewrite buffer_index_add_inplace by lia.
  replace (offset (write buf) + zlen bs) with CHUNK by lia.
  cbn [sock_pending buffer_socket_read_loop offset chunk].
  rewrite Z.eqb_refl.
  unfold socket_read.
  replace (CHUNK <=? 0) with false by (symmetry; apply Z.leb_gt; lia).
  destruct (chunk_store_spec (chs1 ++ [rm_malloc_chunk]) (chunk (write buf) + 1) 0 [])
    as (chs2 & -> & _); [apply wf_chunks_snoc; exact Hwf1 | | lia | unfold zlen; simpl; lia |].
  { unfold array_len, zlen in *. rewrite length_app. simpl. lia. }
  cbn [bind]. change (0 <? 0) with false. cbv iota.
  rewrite buffer_index_add_inplace by (cbn [offset]; lia).
  cbn [chunk offset]. change (0 + 0) with 0.
  destruct (sock_pending rest); cbn [buffer_socket_read_loop offset];
    replace (0 =? CHUNK) with false by (symmetry; apply Z.eqb_neq; lia);
    cbn [bind]; eexists; reflexivity.
Qed.

(** What one read leaves of the script. *)
Lemma socket_read_pending sk size :
  0 < size ->
  let '(nread, _, sk1) := socket_read sk size in
  nread < 0 \/ (sock_pending sk1 < sock_pending sk)%nat.
Proof.
  intros Hsize. unfold socket_read.
  replace (size <=? 0) with false by (symmetry; apply Z.leb_gt; lia).
  destruct sk as [|[| |bs] sk']; cbn [sock_pending]; try (left; lia); try (right; lia).
  destruct (zlen bs <=? size) eqn:E; right; cbn [sock_pending]; [lia|].
  apply Z.leb_gt in E. unfold zlen in E. rewrite length_drop. lia.
Qed.

(** The bound on the reads of one drain is not reached. *)
Lemma buffer_socket_read_loop_bounded fuel : forall chs wr sk,
  (sock_pending sk < fuel)%nat ->
  buffer_socket_read_loop fuel chs wr sk <> Err OutOfFuel.
Proof.
  induction fuel as [|fuel IH]; intros chs wr sk Hfuel; [lia|].
  cbn [buffer_socket_read_loop].
  destruct (offset wr =? CHUNK); [|discriminate].
  pose proof (socket_read_pending sk CHUNK CHUNK_pos) as Hp.
  destruct (socket_read sk CHUNK) as [[nread data] sk1].
  destruct (chunk_store _ _ _ _) as [chs2|e] eqn:Hst; cbn [bind].
  - destruct (nread <? 0) eqn:Hn; [discriminate|].
    apply IH. apply Z.ltb_ge in Hn. destruct Hp as [Hp|Hp]; lia.
  - unfold chunk_store in Hst.
    repeat (destruct (_ || _) || destruct (_ !! _) || destruct (_ <=? _));
      congruence.
Qed.

Lemma buffer_socket_read_bounded buf sk :
  buffer_socket_read buf sk <> Err OutOfFuel.
Proof.
  unfold buffer_socket_read.
  destruct (socket_read sk (CHUNK - offset (write buf))) as [[nread data] sk1].
  destruct (chunk_store _ _ _ _) as [chs1|e] eqn:Hst; cbn [bind].
  - destruct (_ || _); [discriminate|].
    pose proof (buffer_socket_read_loop_bounded (S (sock_pending sk1)) chs1
                  (buffer_index_add (write buf) nread) sk1 ltac:(lia)) as Hb.
    destruct (buffer_socket_read_loop _ _ _ _) as [[[[chs2 wr2] sk2] ok]|e];
      cbn [bind]; congruence.
  - unfold chunk_store in Hst.
    repeat (destruct (_ || _) || destruct (_ !! _) || destruct (_ <=? _));
      congruence.
Qed.

(** * More on the buffer *)

(** X1: for a position that a [uint32_t] holds, [buffer_index] gives the
    cursor of a position inside the allocated chunks, with its offset below
    the chunk size, and traps for a position at or after their end. *)
Theorem buffer_index_bounds chs off :
  0 <= off < 2 ^ 32 -> CHUNK * array_len chs < 2 ^ 32 ->
  (off < CHUNK * array_len chs ->
   buffer_index chs off = Ok (normalized off) /\
   valid_index chs (normalized off) /\
   offset (normalized off) < CHUNK /\
   pos (normalized off) = off) /\
  (CHUNK * array_len chs <= off -> buffer_index chs off = Err AssertFailed).
Proof.
  intros Hoff Hsmall. split.
  - intros Hlt.
    destruct (buffer_index_spec chs off) as (Hrun & Hv & Hp); [lia | exact Hsmall |].
    split; [exact Hrun|]. split; [exact Hv|]. split; [|exact Hp].
    unfold normalized. cbn [offset].
    pose proof (Z.mod_pos_bound off CHUNK CHUNK_pos). lia.
  - intros Hge. unfold buffer_index. cbv zeta.
    assert (Hlen : 0 <= array_len chs) by (unfold array_len; apply zlen_nonneg).
    rewrite (wrap32_small off), (wrap32_small (CHUNK * array_len chs)) by nia.
    replace (off <? CHUNK * array_len chs) with false
      by (symmetry; apply Z.ltb_ge; lia).
    reflexivity.
Qed.

(** X2: [buffer_write] stores the data at the cursor's position, continuing in
    the following chunks when the cursor's chunk ends, and advances the
    cursor behind it; the other bytes of the buffer stay; chunks are
    allocated only when the data reaches past the last one, and then just
    enough of them. *)
Theorem buffer_write_stores data chs buf :
  wf_chunks chs -> valid_index chs buf -> zlen data < 2 ^ 31 ->
  exists chs' buf',
    buffer_write chs buf data = Ok (chs', buf') /\
    wf_chunks chs' /\ valid_index chs' buf' /\
    pos buf' = pos buf + zlen data /\
    bytes_at chs' (pos buf) (zlen data) = data /\
    (forall q n, 0 <= q -> 0 <= n ->
       q + n <= pos buf \/ pos buf + zlen data <= q ->
       q + n <= zlen (contents chs) ->
       bytes_at chs' q n = bytes_at chs q n) /\
    (pos buf + zlen data <= zlen (contents chs) -> length chs' = length chs) /\
    (zlen (contents chs) < pos buf + zlen data ->
     pos buf' <= zlen (contents chs') < pos buf' + CHUNK).
Proof.
  intros Hwf Hv Hlen.
  destruct (buffer_write_spec data chs buf Hwf Hv Hlen)
    as (chs' & buf' & Hrun & Hwf' & Hv' & Hpos & Hl & Hg & pad & Hc).
  pose proof (valid_index_pos chs buf Hwf Hv) as Hp.
  pose proof (valid_index_pos chs' buf' Hwf' Hv') as Hp'.
  exists chs', buf'. split; [exact Hrun|]. split; [exact Hwf'|].
  split; [exact Hv'|]. split; [exact Hpos|]. split.
  { apply (written_bytes chs chs' _ _ pad); [lia | lia | exact Hc]. }
  split.
  { intros q n Hq Hn Hout Hin.
    apply (written_outside chs chs' (pos buf) data pad); try assumption; lia. }
  rewrite (zlen_contents chs') in * by assumption.
  rewrite (zlen_contents chs) in * by assumption.
  split.
  - intros Hfit. destruct Hg as [Hg|Hg]; [exact Hg|].
    unfold array_len, zlen in *. nia.
  - intros Hover. destruct Hg as [Hg|Hg]; [|lia].
    unfold array_len, zlen in *. rewrite Hg in *. lia.
Qed.

(** X3: A typed read whose scalar would reach past the end of the cursor's
    chunk, as when the cursor rests at the very end of the chunk, reads
    outside the chunk: the typed reads do not continue in the next chunk. *)
Theorem buffer_read_uint_past_chunk width chs wr buf :
  wf_chunks chs -> valid_index chs buf -> 0 < width ->
  CHUNK < offset buf + width ->
  width <= buffer_index_diff wr buf ->
  buffer_read_uint width chs wr buf = Err OutOfBounds.
Proof.
  intros Hwf [Hc Ho] Hw Hpast Hassert.
  unfold buffer_read_uint, buffer_index_read.
  replace (width <=? buffer_index_diff wr buf) with true
    by (symmetry; apply Z.leb_le; exact Hassert).
  cbn [ASSERT bind]. unfold chunk_load.
  replace ((chunk buf <? 0) || (offset buf <? 0) || (width <? 0)) with false
    by (symmetry; rewrite !orb_false_iff; repeat split; apply Z.ltb_ge; lia).
  destruct (lookup_chunk chs (chunk buf) Hc) as [ch Hch]. rewrite Hch.
  pose proof (wf_chunks_lookup _ _ _ Hwf Hch) as Hlen.
  replace (offset buf + width <=? zlen ch) with false
    by (symmetry; apply Z.leb_gt; unfold zlen; lia).
  reflexivity.
Qed.

(** X4: A typed read traps when fewer bytes than its width lie between the
    cursor and the buffer's write cursor, so at the write cursor itself. *)
Theorem buffer_read_uint_short width chs wr buf :
  pos buf <= pos wr < pos buf + width -> width <= 65536 ->
  buffer_read_uint width chs wr buf = Err AssertFailed.
Proof.
  intros Hp Hw. unfold buffer_read_uint, buffer_index_read.
  rewrite buffer_index_diff_near by lia.
  replace (width <=? pos wr - pos buf) with false
    by (symmetry; apply Z.leb_gt; lia).
  reflexivity.
Qed.

(** X5: [buffer_socket_write] hands the bytes of the buffer from its start
    up to the cursor to the socket, chunk by chunk and in order. When no
    [socket_write_all] fails the socket gets all of them and the call
    returns [true]; when the call for chunk [j] is the first to fail, after
    [m] bytes, the socket has the chunks before [j] and at most [m] bytes of
    what that call was given, nothing of the later chunks is handed over,
    and the call returns [false]. *)
Theorem buffer_socket_write_sends chs buf sk :
  wf_chunks chs -> valid_index chs buf ->
  (no_fault sk ->
   exists sk',
     buffer_socket_write chs buf sk = Ok (sk', true) /\
     no_fault sk' /\
     sent sk' = sent sk ++ bytes_at chs 0 (pos buf)) /\
  (forall j m rest,
     outcomes sk = replicate j None ++ Some m :: rest ->
     Z.of_nat j <= chunk buf ->
     buffer_socket_write chs buf sk
     = Ok (mk_sock_out
             (sent sk ++ bytes_at chs 0 (Z.of_nat j * CHUNK)
                ++ take m (bytes_at chs (Z.of_nat j * CHUNK)
                             (if Z.of_nat j <? chunk buf then CHUNK
                              else offset buf)))
             rest, false)).
Proof.
  intros Hwf Hv. split.
  - intros Hnf.
    rewrite (buffer_socket_write_pass chs buf sk Hwf Hv)
      by (apply no_fault_writes_pass; exact Hnf).
    eexists. split; [reflexivity|]. cbn [sent outcomes].
    split; [apply Forall_drop; exact Hnf|].
    unfold bytes_at. rewrite drop_0. reflexivity.
  - intros j m rest Ho Hj.
    apply buffer_socket_write_fault; assumption.
Qed.

(** ** Filling from the socket, continued *)

Lemma chunk_store_nil chs c o :
  wf_chunks chs -> 0 <= c < array_len chs -> 0 <= o <= CHUNK ->
  chunk_store chs c o [] = Ok chs.
Proof.
  intros Hwf Hc Ho.
  destruct (lookup_chunk chs c Hc) as [ch Hch].
  pose proof (wf_chunks_lookup _ _ _ Hwf Hch) as Hlen.
  unfold chunk_store.
  replace ((c <? 0) || (o <? 0)) with false
    by (symmetry; apply orb_false_iff; split; apply Z.ltb_ge; lia).
  rewrite Hch.
  replace (o + zlen [] <=? zlen ch) with true
    by (symmetry; apply Z.leb_le; unfold zlen in *; simpl; lia).
  cbn [list_inserts]. rewrite list_insert_id by exact Hch. reflexivity.
Qed.

(** X6: When the first read of a call reports an error or, with room left in
    the chunk, end of file, [buffer_socket_read] returns [false] and the
    buffer is as it was. *)
Theorem buffer_socket_read_closed buf ev rest :
  wf_chunks (chunks buf) -> valid_index (chunks buf) (write buf) ->
  offset (write buf) < CHUNK ->
  ev = SockError \/ ev = SockEOF ->
  buffer_socket_read buf (ev :: rest) = Ok (buf, rest, false).
Proof.
  intros Hwf Hv Ho Hev. pose proof Hv as [Hc Ho'].
  unfold buffer_socket_read, socket_read.
  replace (CHUNK - offset (write buf) <=? 0) with false
    by (symmetry; apply Z.leb_gt; lia).
  destruct Hev as [-> | ->]; rewrite chunk_store_nil by assumption; cbn [bind].
  - cbn [Z.ltb Z.compare orb]. destruct buf; reflexivity.
  - replace (offset (write buf) <? CHUNK) with true
      by (symmetry; apply Z.ltb_lt; lia).
    cbn. destruct buf; reflexivity.
Qed.

Lemma inserts_at_end {A} (F d fresh : list A) :
  (length d <= length fresh)%nat ->
  take (length F + length d) (list_inserts (length F) d (F ++ fresh)) = F ++ d.
Proof.
  intros Hle. rewrite take_inserts_end by (rewrite length_app; lia).
  rewrite take_app_length. reflexivity.
Qed.

(** The continuation reads of a burst: the cursor rests at the end of the
    last chunk and [r] is still to come. *)
Lemma buffer_socket_read_loop_burst fuel : forall r chs c rest,
  wf_chunks chs -> 0 <= c -> c + 1 = array_len chs ->
  r <> [] -> zlen r mod CHUNK <> 0 ->
  (length r + 2 <= fuel)%nat ->
  exists chs',
    buffer_socket_read_loop fuel chs (mk_index c CHUNK) (SockData r :: rest)
    = Ok (chs', normalized ((c + 1) * CHUNK + zlen r), rest, true) /\
    wf_chunks chs' /\
    chunk (normalized ((c + 1) * CHUNK + zlen r)) + 1 = array_len chs' /\
    take (Z.to_nat ((c + 1) * CHUNK + zlen r)) (contents chs') = contents chs ++ r.
Proof.
  induction fuel as [|fuel IH]; intros r chs c rest Hwf Hc Hlast Hr Hmod Hfuel; [lia|].
  assert (Hr0 : 0 < zlen r).
  { unfold zlen. destruct r; [congruence | simpl; lia]. }
  assert (HF : zlen (contents chs) = (c + 1) * CHUNK).
  { rewrite zlen_contents by assumption. lia. }
  assert (Hwf1 : wf_chunks (chs ++ [rm_malloc_chunk])) by (apply wf_chunks_snoc; exact Hwf).
  assert (Hlen1 : array_len (chs ++ [rm_malloc_chunk]) = c + 2).
  { unfold array_len, zlen in *. rewrite length_app. simpl. lia. }
  cbn [buffer_socket_read_loop offset chunk]. rewrite Z.eqb_refl.
  unfold socket_read.
  replace (CHUNK <=? 0) with false by (symmetry; apply Z.leb_gt; lia).
  destruct (zlen r <=? CHUNK) eqn:Hfit.
  - (* the rest of the burst ends inside the new chunk *)
    apply Z.leb_le in Hfit.
    assert (Hlt : zlen r < CHUNK).
    { destruct (decide (zlen r = CHUNK)) as [E|E]; [|lia].
      rewrite E, Z.mod_same in Hmod by lia. congruence. }
    destruct (chunk_store_spec (chs ++ [rm_malloc_chunk]) (c + 1) 0 r Hwf1)
      as (chs2 & -> & Hwf2 & Hl2 & Hc2); [lia | lia | lia |].
    cbn [bind].
    replace (zlen r <? 0) with false by (symmetry; apply Z.ltb_ge; lia).
    rewrite buffer_index_add_inplace by (cbn [offset]; lia).
    cbn [chunk offset]. rewrite Z.add_0_l.
    destruct fuel as [|fuel]; [lia|].
    cbn [buffer_socket_read_loop offset].
    replace (zlen r =? CHUNK) with false by (symmetry; apply Z.eqb_neq; lia).
    rewrite normalized_pos by lia.
    exists chs2. split; [reflexivity|]. split; [exact Hwf2|]. split.
    { cbn [chunk]. unfold array_len, zlen in *. lia. }
    rewrite Hc2, contents_snoc, Z.add_0_r.
    replace (Z.to_nat ((c + 1) * CHUNK + zlen r))
      with (length (contents chs) + length r)%nat by (unfold zlen in *; lia).
    replace (Z.to_nat ((c + 1) * CHUNK)) with (length (contents chs))
      by (unfold zlen in *; lia).
    apply inserts_at_end.
    pose proof wf_chunks_malloc. unfold zlen in *. lia.
  - (* it fills the new chunk and goes on *)
    apply Z.leb_gt in Hfit.
    set (d := take (Z.to_nat CHUNK) r).
    assert (Hd : zlen d = CHUNK).
    { unfold d, zlen in *. rewrite length_take. lia. }
    destruct (chunk_store_spec (chs ++ [rm_malloc_chunk]) (c + 1) 0 d Hwf1)
      as (chs2 & -> & Hwf2 & Hl2 & Hc2); [lia | lia | lia |].
    cbn [bind].
    replace (CHUNK <? 0) with false by (symmetry; apply Z.ltb_ge; lia).
    rewrite buffer_index_add_inplace by (cbn [offset]; lia).
    cbn [chunk offset]. rewrite Z.add_0_l.
    assert (Hcont2 : contents chs2 = contents chs ++ d).
    { rewrite Hc2, contents_snoc, Z.add_0_r.
      replace (Z.to_nat ((c + 1) * CHUNK)) with (length (contents chs) + 0)%nat
        by (unfold zlen in *; lia).
      rewrite list_inserts_app_r. f_equal.
      rewrite <- (app_nil_r rm_malloc_chunk).
      rewrite list_inserts_0_r
        by (pose proof wf_chunks_malloc; unfold zlen in *; lia).
      apply app_nil_r. }
    assert (Hr' : zlen (drop (Z.to_nat CHUNK) r) = zlen r - CHUNK).
    { unfold zlen in *. rewrite length_drop. lia. }
    destruct (IH (drop (Z.to_nat CHUNK) r) chs2 (c + 1) rest)
      as (chs' & Hrun & Hwf' & Hlast' & Hcont'); try assumption.
    + lia.
    + unfold array_len, zlen in *. lia.
    + intros E. rewrite E in Hr'. unfold zlen in Hr' at 1. simpl in Hr'. lia.
    + rewrite Hr'.
      replace (zlen r - CHUNK) with (zlen r + (-1) * CHUNK) by lia.
      rewrite Z.mod_add by lia. exact Hmod.
    + unfold zlen in *. rewrite length_drop. lia.
    + replace ((c + 1 + 1) * CHUNK + zlen (drop (Z.to_nat CHUNK) r))
        with ((c + 1) * CHUNK + zlen r) in * by lia.
      exists chs'. split; [exact Hrun|]. split; [exact Hwf'|].
      split; [exact Hlast'|].
      rewrite Hcont', Hcont2, <- app_assoc. unfold d.
      rewrite take_drop. reflexivity.
Qed.

(** X7: A burst of data that does not end exactly at the end of a chunk is
    stored whole and in order from the write cursor on, through as many new
    chunks as it takes; the call returns [true] with the write cursor behind
    the burst, again in the last chunk. *)
Theorem buffer_socket_read_burst buf bs rest :
  wf_chunks (chunks buf) ->
  0 <= chunk (write buf) -> chunk (write buf) + 1 = array_len (chunks buf) ->
  0 <= offset (write buf) < CHUNK ->
  bs <> [] ->
  (offset (write buf) + zlen bs) mod CHUNK <> 0 ->
  exists buf',
    buffer_socket_read buf (SockData bs :: rest) = Ok (buf', rest, true) /\
    read buf' = read buf /\
    wf_chunks (chunks buf') /\
    write buf' = normalized (pos (write buf) + zlen bs) /\
    chunk (write buf') + 1 = array_len (chunks buf') /\
    take (Z.to_nat (pos (write buf) + zlen bs)) (contents (chunks buf'))
    = take (Z.to_nat (pos (write buf))) (contents (chunks buf)) ++ bs.
Proof.
  intros Hwf Hc Hlast Ho Hbs Hmod.
  assert (Hb0 : 0 < zlen bs).
  { unfold zlen. destruct bs; [congruence | simpl; lia]. }
  assert (Hv : valid_index (chunks buf) (write buf)) by (split; lia).
  pose proof (valid_index_pos _ _ Hwf Hv) as Hp.
  assert (HF : zlen (contents (chunks buf)) = (chunk (write buf) + 1) * CHUNK).
  { rewrite zlen_contents by assumption. lia. }
  unfold buffer_socket_read, socket_read.
  replace (CHUNK - offset (write buf) <=? 0) with false
    by (symmetry; apply Z.leb_gt; lia).
  destruct (zlen bs <=? CHUNK - offset (write buf)) eqn:Hfit.
  - (* the burst ends inside the cursor's chunk *)
    apply Z.leb_le in Hfit.
    assert (Hlt : offset (write buf) + zlen bs < CHUNK).
    { destruct (decide (offset (write buf) + zlen bs = CHUNK)) as [E|E]; [|lia].
      rewrite E, Z.mod_same in Hmod by lia. congruence. }
    destruct (chunk_store_spec (chunks buf) (chunk (write buf)) (offset (write buf)) bs Hwf)
      as (chs1 & -> & Hwf1 & Hl1 & Hc1); [lia | lia | lia |].
    cbn [bind].
    replace (zlen bs <? 0) with false by (symmetry; apply Z.ltb_ge; lia).
    replace (zlen bs =? 0) with false by (symmetry; apply Z.eqb_neq; lia).
    cbn [orb andb].
    rewrite buffer_index_add_inplace by lia.
    cbn [buffer_socket_read_loop offset].
    replace (offset (write buf) + zlen bs =? CHUNK) with false
      by (symmetry; apply Z.eqb_neq; lia).
    cbn [bind]. eexists. split; [reflexivity|].
    cbn [read write chunks]. split; [reflexivity|]. split; [exact Hwf1|].
    split.
    { unfold pos.
      replace (chunk (write buf) * CHUNK + offset (write buf) + zlen bs)
        with (chunk (write buf) * CHUNK + (offset (write buf) + zlen bs)) by lia.
      rewrite normalized_pos by lia. reflexivity. }
    split; [cbn [chunk]; unfold array_len, zlen in *; lia|].
    fold (pos (write buf)) in Hc1. rewrite Hc1.
    replace (Z.to_nat (pos (write buf) + zlen bs))
      with (Z.to_nat (pos (write buf)) + length bs)%nat by (unfold zlen in *; lia).
    apply take_inserts_end. unfold pos, zlen in *. nia.
  - (* it fills the cursor's chunk and goes on in new chunks *)
    apply Z.leb_gt in Hfit.
    set (k := CHUNK - offset (write buf)) in *.
    set (d := take (Z.to_nat k) bs).
    assert (Hd : zlen d = k).
    { unfold d, zlen in *. rewrite length_take. lia. }
    destruct (chunk_store_spec (chunks buf) (chunk (write buf)) (offset (write buf)) d Hwf)
      as (chs1 & -> & Hwf1 & Hl1 & Hc1); [lia | lia | unfold k in *; lia |].
    cbn [bind].
    replace (k <? 0) with false by (symmetry; apply Z.ltb_ge; unfold k; lia).
    replace (k =? 0) with false by (symmetry; apply Z.eqb_neq; unfold k; lia).
    cbn [orb andb].
    rewrite buffer_index_add_inplace by (unfold k; lia).
    replace (offset (write buf) + k) with CHUNK by (unfold k; lia).
    assert (Hr' : zlen (drop (Z.to_nat k) bs) = zlen bs - k).
    { unfold zlen in *. rewrite length_drop. lia. }
    destruct (buffer_socket_read_loop_burst
                (S (sock_pending (SockData (drop (Z.to_nat k) bs) :: rest)))
                (drop (Z.to_nat k) bs) chs1 (chunk (write buf)) rest)
      as (chs' & -> & Hwf' & Hlast' & Hcont'); try assumption.
    + unfold array_len, zlen in *. lia.
    + intros E. rewrite E in Hr'. unfold zlen in Hr' at 1. simpl in Hr'. lia.
    + rewrite Hr'. unfold k.
      replace (zlen bs - (CHUNK - offset (write buf)))
        with (offset (write buf) + zlen bs + (-1) * CHUNK) by lia.
      rewrite Z.mod_add by lia. exact Hmod.
    + cbn [sock_pending]. lia.
    + assert (Hposeq : (chunk (write buf) + 1) * CHUNK + zlen (drop (Z.to_nat k) bs)
                       = pos (write buf) + zlen bs).
      { rewrite Hr'. unfold pos, k. lia. }
      rewrite Hposeq in *.
      cbn [bind]. eexists. split; [reflexivity|].
      cbn [read write chunks]. split; [reflexivity|]. split; [exact Hwf'|].
      split; [reflexivity|]. split; [exact Hlast'|].
      rewrite Hcont'. fold (pos (write buf)) in Hc1. rewrite Hc1.
      rewrite <- (take_drop (Z.to_nat k) bs) at 2. fold d.
      rewrite app_assoc. f_equal.
      rewrite <- (take_ge (list_inserts _ d _) (Z.to_nat (pos (write buf)) + length d))
        by (rewrite length_inserts; unfold pos, k, zlen in *; lia).
      apply take_inserts_end. unfold pos, k, zlen in *. lia.
Qed.

(** * The session state machine inside a conversation *)

(** Away from RECORD responses the code and the table of the specification
    agree on every triple. *)
Lemma bolt_change_client_state_refines c request response :
  response <> BST_RECORD ->
  bolt_change_client_state c request response
  = match transition_table (state c) request response with
    | Some s' => Ok (set_state c s')
    | None => Err AssertFailed
    end.
Proof.
  intros Hr. destruct c as [sk st w r p sh cx ow rb mb wb cw].
  unfold bolt_change_client_state. cbn [state].
  destruct response; try congruence; cbn [bool_decide];
    destruct st, request; reflexivity.
Qed.

(** * Composing and flushing outbound messages *)

Lemma bytes_at_of_take chs (A B : list Z) :
  take (length A + length B) (contents chs) = A ++ B ->
  bytes_at chs (zlen A) (zlen B) = B.
Proof.
  intros H.
  rewrite (bytes_at_take chs _ _ (length A + length B))
    by (unfold zlen; lia).
  unfold zlen. rewrite H, !Nat2Z.id, drop_app_length. apply take_ge. lia.
Qed.

(** The slot behind the finished messages of an outbox is zeroed when the
    bytes up to the write cursor end in zeros. *)
Lemma outbox_slot_zeroed c frames :
  take (Z.to_nat (pos (write (write_buf c)))) (contents (chunks (write_buf c)))
  = frames ++ replicate (Z.to_nat (slot_size (ws c))) 0 ->
  pos (client_write c) = zlen frames ->
  pos (write (write_buf c)) = pos (client_write c) + slot_size (ws c) ->
  slot_zeroed c.
Proof.
  intros Ht Hpc Hpw. unfold slot_zeroed.
  assert (Hs : 0 <= slot_size (ws c)) by (destruct (ws c); simpl; lia).
  set (Z0 := replicate (Z.to_nat (slot_size (ws c))) 0) in *.
  assert (Hz : zlen Z0 = slot_size (ws c))
    by (unfold Z0, zlen; rewrite length_replicate; lia).
  rewrite Hpc, <- Hz. apply bytes_at_of_take.
  rewrite <- Ht. f_equal. unfold zlen in *. lia.
Qed.

Lemma outbox_set_state c s msgs P : outbox c msgs P -> outbox (set_state c s) msgs P.
Proof. intros H. exact H. Qed.

(** The transition of a session depends on the session only through its
    state. *)
Lemma bolt_change_client_state_of_state c c1 request response c0 :
  bolt_change_client_state c request response = Ok c0 ->
  state c1 = state c ->
  bolt_change_client_state c1 request response = Ok (set_state c1 (state c0)).
Proof.
  intros H Hs.
  destruct (decide (response = BST_RECORD)) as [->|Hr].
  - change (Ok c = Ok c0) in H. injection H as <-.
    rewrite <- Hs. destruct c1; reflexivity.
  - rewrite bolt_change_client_state_refines in * by exact Hr.
    rewrite Hs. destruct (transition_table (state c) request response);
      [|discriminate].
    injection H as <-. reflexivity.
Qed.

(** A write through the write cursor adds to the payload being composed. *)
Lemma outbox_append c msgs P D :
  outbox c msgs P -> zlen D < 2 ^ 31 ->
  exists c',
    at_write_buf_write c (fun chs i => buffer_write chs i D) = Ok c' /\
    same_session c c' /\ outbox c' msgs (P ++ D) /\
    CHUNK * array_len (chunks (write_buf c'))
    <= Z.max (CHUNK * array_len (chunks (write_buf c)))
             (pos (write (write_buf c')) + CHUNK).
Proof.
  intros ((Hwf & Hvw & Hvc) & X & HX & Htake & Hpc & Hpw) Hlen.
  destruct (wb_append c D Hwf Hvw Hlen)
    as (c' & Hrun & Hs & Hcw & Hwf' & Hvw' & Hpw' & Hl & Hg & Ht & _).
  assert (Hws : ws c' = ws c) by (destruct Hs as (_ & _ & H & _); exact H).
  exists c'. split; [exact Hrun|]. split; [exact Hs|]. split.
  - split.
    { split; [exact Hwf'|]. split; [exact Hvw'|].
      rewrite Hcw. apply (valid_index_grow _ _ _ Hvc Hl). }
    exists X. rewrite Hws, Hcw. split; [exact HX|]. split.
    + rewrite Ht, Htake, <- !app_assoc. reflexivity.
    + split; [exact Hpc|]. rewrite Hpw', Hpw, zlen_app. lia.
  - unfold array_len, zlen in *. destruct Hg as [Hg|Hg]; [rewrite Hg|]; lia.
Qed.

Lemma reply_for_spec c msgs P request response size c0 :
  outbox c msgs P ->
  zlen (structure_bytes response size) < 2 ^ 31 ->
  bolt_change_client_state c request response = Ok c0 ->
  exists c',
    bolt_client_reply_for c request response size = Ok c' /\
    state c' = state c0 /\
    outbox c' msgs (P ++ structure_bytes response size) /\
    ws c' = ws c /\ reset c' = reset c /\
    CHUNK * array_len (chunks (write_buf c'))
    <= Z.max (CHUNK * array_len (chunks (write_buf c)))
             (pos (write (write_buf c')) + CHUNK).
Proof.
  intros Hout Hlen Htr.
  destruct (outbox_append c msgs P _ Hout Hlen) as (c1 & Hrun & Hs & Hout1 & Hroom).
  unfold bolt_client_reply_for, bolt_reply_structure. rewrite Hrun. cbn [bind].
  assert (Hst : state c1 = state c) by (destruct Hs as (_ & H & _); exact H).
  rewrite (bolt_change_client_state_of_state c c1 request response c0 Htr Hst).
  eexists. split; [reflexivity|]. split; [reflexivity|].
  split; [apply outbox_set_state; exact Hout1|].
  destruct Hs as (_ & _ & Hw & Hr & _).
  split; [exact Hw|]. split; [exact Hr|]. exact Hroom.
Qed.

(** The end of [bolt_client_end_message]: the terminator, the move of the
    saved cursor and the slot of the next message. *)
Lemma end_message_tail c2 w pre :
  ws c2 = w ->
  wf_chunks (chunks (write_buf c2)) ->
  valid_index (chunks (write_buf c2)) (write (write_buf c2)) ->
  take (Z.to_nat (pos (write (write_buf c2)))) (contents (chunks (write_buf c2))) = pre ->
  exists c' X,
    (do c3 <- at_write_buf_write c2 (fun chs i => buffer_write chs i [0]);
     do c4 <- at_write_buf_write c3 (fun chs i => buffer_write chs i [0]);
     do c6 <- at_write_buf_write (set_client_write c4 (write (write_buf c4)))
                (fun chs i => buffer_write chs i [0; 0]);
     if w then at_write_buf_write c6 (fun chs i => buffer_write chs i [0; 0])
     else Ok c6) = Ok c' /\
    same_session c2 c' /\ write_buf_ok c' /\
    X = replicate (Z.to_nat (slot_size w)) 0 /\
    take (Z.to_nat (pos (write (write_buf c')))) (contents (chunks (write_buf c')))
    = (pre ++ [0; 0]) ++ X /\
    pos (client_write c') = pos (write (write_buf c2)) + 2 /\
    pos (write (write_buf c')) = pos (client_write c') + slot_size w /\
    CHUNK * array_len (chunks (write_buf c'))
    <= Z.max (CHUNK * array_len (chunks (write_buf c2)))
             (pos (write (write_buf c')) + CHUNK).
Proof.
  intros Hws Hwf2 Hvw2 Hpre.
  destruct (wb_append c2 [0] Hwf2 Hvw2)
    as (c3 & -> & Hs3 & Hcw3 & Hwf3 & Hvw3 & Hpw3 & Hl3 & Hg3 & Ht3 & _);
    [unfold zlen; simpl; lia|].
  cbn [bind].
  destruct (wb_append c3 [0] Hwf3 Hvw3)
    as (c4 & -> & Hs4 & Hcw4 & Hwf4 & Hvw4 & Hpw4 & Hl4 & Hg4 & Ht4 & _);
    [unfold zlen; simpl; lia|].
  cbn [bind].
  set (c5 := set_client_write c4 (write (write_buf c4))).
  assert (Hs5 : same_session c4 c5) by (unfold same_session, c5; cbn; repeat split).
  destruct (wb_append c5 [0; 0] Hwf4 Hvw4)
    as (c6 & -> & Hs6 & Hcw6 & Hwf6 & Hvw6 & Hpw6 & Hl6 & Hg6 & Ht6 & _);
    [unfold zlen; simpl; lia|].
  cbn [bind].
  cbn [write_buf chunks write set_client_write client_write c5] in *.
  assert (Hp3 : pos (write (write_buf c3)) = pos (write (write_buf c2)) + 1)
    by (rewrite Hpw3; unfold zlen; simpl; lia).
  assert (Hp4 : pos (write (write_buf c4)) = pos (write (write_buf c2)) + 2)
    by (rewrite Hpw4, Hp3; unfold zlen; simpl; lia).
  assert (Hp6 : pos (write (write_buf c6)) = pos (write (write_buf c2)) + 4)
    by (rewrite Hpw6, Hp4; unfold zlen; simpl; lia).
  assert (Hs26 : same_session c2 c6).
  { eapply same_session_trans; [|exact Hs6].
    eapply same_session_trans; [|exact Hs5].
    eapply same_session_trans; [exact Hs3 | exact Hs4]. }
  assert (Ht6' : take (Z.to_nat (pos (write (write_buf c6))))
                   (contents (chunks (write_buf c6))) = (pre ++ [0; 0]) ++ [0; 0]).
  { rewrite Ht6, Ht4, Ht3, Hpre, <- !app_assoc. reflexivity. }
  assert (Hroom6 : CHUNK * array_len (chunks (write_buf c6))
                   <= Z.max (CHUNK * array_len (chunks (write_buf c2)))
                            (pos (write (write_buf c6)) + CHUNK)).
  { unfold array_len, zlen in *.
    destruct Hg6 as [Hg6|Hg6]; [rewrite Hg6|lia].
    destruct Hg4 as [Hg4|Hg4]; [rewrite Hg4|lia].
    destruct Hg3 as [Hg3|Hg3]; [rewrite Hg3|]; lia. }
  assert (Hvc6 : valid_index (chunks (write_buf c6)) (client_write c6)).
  { rewrite Hcw6. apply (valid_index_grow _ _ _ Hvw4 Hl6). }
  destruct w.
  - destruct (wb_append c6 [0; 0] Hwf6 Hvw6)
      as (c7 & -> & Hs7 & Hcw7 & Hwf7 & Hvw7 & Hpw7 & Hl7 & Hg7 & Ht7 & _);
      [unfold zlen; simpl; lia|].
    exists c7, [0; 0; 0; 0]. split; [reflexivity|].
    split; [eapply same_session_trans; [exact Hs26 | exact Hs7]|].
    split.
    { split; [exact Hwf7|]. split; [exact Hvw7|].
      rewrite Hcw7. apply (valid_index_grow _ _ _ Hvc6 Hl7). }
    split; [reflexivity|]. split.
    { rewrite Ht7, Ht6', <- !app_assoc. reflexivity. }
    rewrite Hcw7, Hcw6. split; [exact Hp4|]. split.
    + rewrite Hpw7, Hp6, Hp4. unfold zlen. simpl. lia.
    + unfold array_len, zlen in *.
      assert (pos (write (write_buf c6)) <= pos (write (write_buf c7)))
        by (rewrite Hpw7; unfold zlen; simpl; lia).
      destruct Hg7 as [Hg7|Hg7]; [rewrite Hg7|]; lia.
  - exists c6, [0; 0]. split; [reflexivity|]. split; [exact Hs26|].
    split; [split; [exact Hwf6 | split; [exact Hvw6 | exact Hvc6]]|].
    split; [reflexivity|]. split; [exact Ht6'|].
    rewrite Hcw6. split; [exact Hp4|]. split; [|exact Hroom6].
    rewrite Hp6, Hp4. simpl. lia.
Qed.

Lemma zlen_outbound_frame w P : zlen (outbound_frame w P) = slot_size w + zlen P + 2.
Proof.
  unfold outbound_frame, bolt_message. rewrite !zlen_app.
  destruct w; unfold zlen; simpl; lia.
Qed.

Lemma end_message_spec c msgs P :
  outbox c msgs P ->
  slot_size (ws c) + zlen P < 65536 ->
  exists c',
    bolt_client_end_message c = Ok c' /\
    same_session c c' /\
    outbox c' (msgs ++ [P]) [] /\ slot_zeroed c' /\
    CHUNK * array_len (chunks (write_buf c'))
    <= Z.max (CHUNK * array_len (chunks (write_buf c)))
             (pos (write (write_buf c')) + CHUNK).
Proof.
  intros ((Hwf & Hvw & Hvc) & X & HX & Htake & Hpc & Hpw) Hsmall.
  pose proof (zlen_nonneg P) as HP0.
  pose proof (valid_index_pos _ _ Hwf Hvc) as Hp0.
  pose proof (valid_index_pos _ _ Hwf Hvw) as Hp1.
  set (frames := concat (map (outbound_frame (ws c)) msgs)) in *.
  unfold bolt_client_end_message.
  rewrite buffer_index_diff_pos, Hpw.
  replace (pos (client_write c) + slot_size (ws c) + zlen P - pos (client_write c))
    with (slot_size (ws c) + zlen P) by lia.
  unfold buffer_write_uint16, buffer_write_uint8. cbv iota.
  rewrite !host_bytes_1, host_bytes_2_zero, !wrap8_mod.
  change (130 mod 256) with 130. change (0 mod 256) with 0.
  assert (Hfin : forall c2 hdr,
    same_session c c2 -> write (write_buf c2) = write (write_buf c) ->
    wf_chunks (chunks (write_buf c2)) ->
    length (chunks (write_buf c2)) = length (chunks (write_buf c)) ->
    contents (chunks (write_buf c2))
    = list_inserts (Z.to_nat (pos (client_write c))) hdr
        (contents (chunks (write_buf c))) ->
    zlen hdr = slot_size (ws c) ->
    hdr ++ P ++ [0; 0] = outbound_frame (ws c) P ->
    exists c',
      (do c3 <- at_write_buf_write c2 (fun chs i => buffer_write chs i [0]);
       do c4 <- at_write_buf_write c3 (fun chs i => buffer_write chs i [0]);
       do c6 <- at_write_buf_write (set_client_write c4 (write (write_buf c4)))
                  (fun chs i => buffer_write chs i [0; 0]);
       if ws c then at_write_buf_write c6 (fun chs i => buffer_write chs i [0; 0])
       else Ok c6) = Ok c' /\
      same_session c c' /\
      outbox c' (msgs ++ [P]) [] /\ slot_zeroed c' /\
      CHUNK * array_len (chunks (write_buf c'))
      <= Z.max (CHUNK * array_len (chunks (write_buf c)))
               (pos (write (write_buf c')) + CHUNK)).
  { intros c2 hdr Hs2 Hw2 Hwf2 Hl2 Hc2 Hhdr Hframe.
    assert (Hws2 : ws c2 = ws c) by (destruct Hs2 as (_ & _ & H & _); exact H).
    assert (Hvw2 : valid_index (chunks (write_buf c2)) (write (write_buf c2))).
    { rewrite Hw2. apply (valid_index_grow _ _ _ Hvw). lia. }
    assert (Hpre : take (Z.to_nat (pos (write (write_buf c2))))
                     (contents (chunks (write_buf c2))) = frames ++ hdr ++ P).
    { rewrite Hw2, Hc2, take_inserts_inside by (unfold zlen in *; lia).
      rewrite Htake, Hpc.
      replace (Z.to_nat (zlen frames)) with (length frames + 0)%nat
        by (unfold zlen; lia).
      rewrite list_inserts_app_r. f_equal.
      apply list_inserts_0_r. unfold zlen in *. lia. }
    destruct (end_message_tail c2 (ws c) _ Hws2 Hwf2 Hvw2 Hpre)
      as (c' & X' & Hrun & Hs' & Hok' & HX' & Ht' & Hcw' & Hpw' & Hroom').
    assert (Hws' : ws c' = ws c).
    { destruct Hs' as (_ & _ & H & _). congruence. }
    exists c'. split; [exact Hrun|].
    split; [eapply same_session_trans; [exact Hs2 | exact Hs']|].
    assert (HzX : zlen X' = slot_size (ws c)).
    { rewrite HX'. unfold zlen. rewrite length_replicate.
      destruct (ws c); simpl; lia. }
    assert (Hpc' : pos (client_write c')
                   = zlen (frames ++ outbound_frame (ws c) P)).
    { rewrite Hcw', Hw2, Hpw, Hpc, zlen_app, zlen_outbound_frame. lia. }
    split; [|split].
    - split; [exact Hok'|]. exists X'. rewrite Hws'.
      split; [exact HzX|].
      rewrite map_app, concat_app. cbn [map concat]. rewrite app_nil_r.
      fold frames. split.
      + rewrite <- Hframe, Ht', app_nil_r, <- !app_assoc. reflexivity.
      + split; [exact Hpc'|]. rewrite Hpw'. change (zlen (@nil Z)) with 0. lia.
    - apply (outbox_slot_zeroed c' (frames ++ outbound_frame (ws c) P)).
      + rewrite Hws', <- HX', <- Hframe, Ht', <- !app_assoc. reflexivity.
      + exact Hpc'.
      + rewrite Hws'. exact Hpw'.
    - unfold array_len, zlen in *. rewrite Hl2 in Hroom'. exact Hroom'. }
  destruct (ws c) eqn:Hws; cbn [slot_size] in *.
  - (* WebSocket mode: frame header, then the chunk length *)
    rewrite (wrap16_small (4 + zlen P)) by lia.
    replace (4 + zlen P - 2) with (zlen P + 2) by lia.
    rewrite (wrap16_small (zlen P + 2)) by lia.
    replace (zlen P + 2 - 2) with (zlen P) by lia.
    replace (zlen P + 2 + 2) with (zlen P + 4) by lia.
    rewrite (wrap16_small (zlen P)) by lia.
    destruct (wb_backfill c [130] Hwf Hvw Hvc)
      as (ca & -> & Hsa & Hwa & Hwfa & Hla & Hvca & Hpca & Hca);
      [unfold zlen at 1; simpl; lia | unfold zlen; simpl; lia |].
    cbn [bind].
    assert (Hvwa : valid_index (chunks (write_buf ca)) (write (write_buf ca))).
    { rewrite Hwa. apply (valid_index_grow _ _ _ Hvw). lia. }
    destruct (wb_backfill ca [(zlen P + 4) mod 256] Hwfa Hvwa Hvca)
      as (cb & -> & Hsb & Hwb & Hwfb & Hlb & Hvcb & Hpcb & Hcb);
      [rewrite Hpca, Hwa; unfold zlen at 1 2; simpl; lia
      | unfold zlen; simpl; lia |].
    cbn [bind]. rewrite host_bytes_htons by lia.
    assert (Hvwb : valid_index (chunks (write_buf cb)) (write (write_buf cb))).
    { rewrite Hwb. apply (valid_index_grow _ _ _ Hvwa). lia. }
    destruct (wb_backfill cb [zlen P / 256; zlen P mod 256] Hwfb Hvwb Hvcb)
      as (c2 & -> & Hs2 & Hw2 & Hwf2 & Hl2 & Hvc2 & Hpc2 & Hc2);
      [rewrite Hpcb, Hpca, Hwb, Hwa; unfold zlen in *; simpl; lia
      | unfold zlen; simpl; lia |].
    cbn [bind].
    apply (Hfin c2 [130; (zlen P + 4) mod 256; zlen P / 256; zlen P mod 256]).
    + eapply same_session_trans; [|exact Hs2].
      eapply same_session_trans; [exact Hsa | exact Hsb].
    + congruence.
    + exact Hwf2.
    + congruence.
    + rewrite Hc2, Hcb, Hca, Hpcb, Hpca.
      change (zlen [130]) with 1. change (zlen [(zlen P + 4) mod 256]) with 1.
      change [130; (zlen P + 4) mod 256; zlen P / 256; zlen P mod 256]
        with ([130] ++ [(zlen P + 4) mod 256] ++ [zlen P / 256; zlen P mod 256]).
      rewrite !list_inserts_app_l. cbn [length].
      replace (Z.to_nat (pos (client_write c) + 1 + 1))
        with (1 + (1 + Z.to_nat (pos (client_write c))))%nat by lia.
      replace (Z.to_nat (pos (client_write c) + 1))
        with (1 + Z.to_nat (pos (client_write c)))%nat by lia.
      reflexivity.
    + reflexivity.
    + reflexivity.
  - (* plain mode: the chunk length alone *)
    rewrite (wrap16_small (2 + zlen P)) by lia.
    replace (2 + zlen P - 2) with (zlen P) by lia.
    rewrite (wrap16_small (zlen P)) by lia.
    cbn [bind]. rewrite host_bytes_htons by lia.
    destruct (wb_backfill c [zlen P / 256; zlen P mod 256] Hwf Hvw Hvc)
      as (c2 & -> & Hs2 & Hw2 & Hwf2 & Hl2 & Hvc2 & Hpc2 & Hc2);
      [unfold zlen at 1; simpl; lia | unfold zlen; simpl; lia |].
    cbn [bind].
    apply (Hfin c2 [zlen P / 256; zlen P mod 256]); try assumption; reflexivity.
Qed.

Lemma send_spec c sk msgs P :
  reset c = false ->
  outbox c msgs P ->
  CHUNK * array_len (chunks (write_buf c)) < 2 ^ 32 ->
  exists c' sk',
    bolt_client_send c sk = Ok (c', sk') /\
    same_session c c' /\ outbox c' [] [] /\ slot_zeroed c' /\
    (no_fault sk ->
     no_fault sk' /\
     sent sk' = sent sk ++ concat (map (outbound_frame (ws c)) msgs)).
Proof.
  intros Hreset ((Hwf & Hvw & Hvc) & X & HX & Htake & Hpc & Hpw) Hsmall.
  pose proof (zlen_nonneg P) as HP0.
  pose proof (valid_index_pos _ _ Hwf Hvc) as Hp0.
  set (frames := concat (map (outbound_frame (ws c)) msgs)) in *.
  assert (Hsent : take (Z.to_nat (pos (client_write c)))
                    (contents (chunks (write_buf c))) = frames).
  { apply (f_equal (take (Z.to_nat (pos (client_write c))))) in Htake.
    rewrite take_take in Htake.
    replace (Z.to_nat (pos (client_write c)) `min` Z.to_nat (pos (write (write_buf c))))%nat
      with (Z.to_nat (pos (client_write c))) in Htake
      by (destruct (ws c); cbn [slot_size] in Hpw; lia).
    rewrite Htake, Hpc. unfold zlen. rewrite Nat2Z.id. apply take_app_length. }
  assert (Hroom : 0 <= 0 < CHUNK * array_len (chunks (write_buf c))).
  { destruct Hvc as [Hc _]. nia. }
  unfold bolt_client_send. rewrite Hreset.
  destruct (buffer_socket_write_spec _ _ sk Hwf Hvc) as (sk' & ok & -> & Hlog).
  rewrite Hsent in Hlog. cbn [bind].
  destruct (client_rewind_spec c 0 0 Hroom Hroom Hsmall)
    as (c1 & -> & Hs1 & Hch1 & Hcw1 & Hw1).
  cbn [bind].
  destruct (buffer_index_spec (chunks (write_buf c)) 0 Hroom Hsmall)
    as (_ & Hv0 & Hpos0).
  unfold buffer_write_uint16. rewrite host_bytes_2_zero.
  assert (Hwf1 : wf_chunks (chunks (write_buf c1))) by (rewrite Hch1; exact Hwf).
  assert (Hvw1 : valid_index (chunks (write_buf c1)) (write (write_buf c1)))
    by (rewrite Hch1, Hw1; exact Hv0).
  destruct (wb_append c1 [0; 0] Hwf1 Hvw1)
    as (c2 & -> & Hs2 & Hcw2 & Hwf2 & Hvw2 & Hpw2 & Hl2 & _ & Ht2 & _);
    [unfold zlen; simpl; lia|].
  cbn [bind].
  rewrite Hw1, Hpos0 in Hpw2, Ht2. rewrite take_0 in Ht2.
  assert (Hs02 : same_session c c2)
    by (eapply same_session_trans; [exact Hs1 | exact Hs2]).
  assert (Hws2 : ws c2 = ws c) by (destruct Hs02 as (_ & _ & H & _); exact H).
  assert (Hvc2 : valid_index (chunks (write_buf c2)) (client_write c2)).
  { rewrite Hcw2, Hcw1. rewrite <- Hch1 in Hv0.
    apply (valid_index_grow _ _ _ Hv0 Hl2). }
  assert (Hpc2 : pos (client_write c2) = 0) by (rewrite Hcw2, Hcw1; exact Hpos0).
  assert (Hfin : forall sk1 : sock_out,
            (no_fault sk -> ok = true /\ no_fault sk1 /\ sent sk1 = sent sk ++ frames) ->
            no_fault sk -> no_fault sk1 /\ sent sk1 = sent sk ++ frames).
  { intros sk1 H Hnf. destruct (H Hnf) as (_ & H1 & H2). split; assumption. }
  rewrite Hws2. destruct (ws c) eqn:Hws.
  - destruct (wb_append c2 [0; 0] Hwf2 Hvw2)
      as (c3 & -> & Hs3 & Hcw3 & Hwf3 & Hvw3 & Hpw3 & Hl3 & _ & Ht3 & _);
      [unfold zlen; simpl; lia|].
    cbn [bind]. exists c3, sk'. split; [reflexivity|].
    split; [eapply same_session_trans; [exact Hs02 | exact Hs3]|].
    assert (Hws3 : ws c3 = true)
      by (destruct Hs3 as (_ & _ & H & _); rewrite H, Hws2; reflexivity).
    split; [|split; [|exact (Hfin sk' Hlog)]].
    + split.
      { split; [exact Hwf3|]. split; [exact Hvw3|].
        rewrite Hcw3. apply (valid_index_grow _ _ _ Hvc2 Hl3). }
      exists [0; 0; 0; 0]. rewrite Hws3.
      split; [reflexivity|]. split; [rewrite Ht3, Ht2; reflexivity|].
      rewrite Hcw3, Hpc2. split; [reflexivity|].
      rewrite Hpw3, Hpw2. reflexivity.
    + apply (outbox_slot_zeroed c3 []).
      * rewrite Hws3, Ht3, Ht2. reflexivity.
      * rewrite Hcw3, Hpc2. reflexivity.
      * rewrite Hws3, Hcw3, Hpc2, Hpw3, Hpw2. reflexivity.
  - cbn [bind]. exists c2, sk'. split; [reflexivity|]. split; [exact Hs02|].
    split; [|split; [|exact (Hfin sk' Hlog)]].
    + split; [split; [exact Hwf2 | split; [exact Hvw2 | exact Hvc2]]|].
      exists [0; 0]. rewrite Hws2.
      split; [reflexivity|]. split; [rewrite Ht2; reflexivity|].
      rewrite Hpc2. split; [reflexivity|]. rewrite Hpw2. reflexivity.
    + apply (outbox_slot_zeroed c2 []).
      * rewrite Hws2, Ht2. reflexivity.
      * rewrite Hpc2. reflexivity.
      * rewrite Hws2, Hpc2, Hpw2. reflexivity.
Qed.

(** ** The life of an outbound message *)

(** X8: A new session waits in state NEGOTIATION, in plain mode, with
    nothing to send: its write buffer holds the two-byte length slot of the
    first message, zeroed, and its read and message buffers are empty. *)
Theorem bolt_client_new_session sock ctx0 on_write0 :
  0 < sock -> ctx0 <> 0 -> on_write0 <> 0 ->
  exists c,
    bolt_client_new sock ctx0 on_write0 = Ok c /\
    socket c = sock /\ ctx c = ctx0 /\ on_write c = on_write0 /\
    state c = BS_NEGOTIATION /\ ws c = false /\ reset c = false /\
    processing c = false /\ shutdown c = false /\
    read_buf c = mk_buffer [rm_malloc_chunk] (mk_index 0 0) (mk_index 0 0) /\
    msg_buf c = mk_buffer [rm_malloc_chunk] (mk_index 0 0) (mk_index 0 0) /\
    outbox c [] [] /\ slot_zeroed c.
Proof.
  intros Hs Hc Ho. unfold bolt_client_new.
  replace (0 <? sock) with true by (symmetry; apply Z.ltb_lt; lia).
  replace (ctx0 =? 0) with false by (symmetry; apply Z.eqb_neq; exact Hc).
  replace (on_write0 =? 0) with false by (symmetry; apply Z.eqb_neq; exact Ho).
  cbn [ASSERT negb bind].
  assert (Hroom : 0 <= 0 < CHUNK * array_len [rm_malloc_chunk])
    by (unfold array_len, zlen; simpl; lia).
  assert (Hsmall : CHUNK * array_len [rm_malloc_chunk] < 2 ^ 32)
    by (unfold array_len, zlen; simpl; lia).
  destruct (buffer_index_spec [rm_malloc_chunk] 0 Hroom Hsmall) as (Hi & Hv0 & Hp0).
  assert (Hn0 : normalized 0 = mk_index 0 0)
    by (unfold normalized; rewrite Z.div_0_l, Z.mod_0_l by lia; reflexivity).
  rewrite Hn0 in *.
  unfold buffer_new. rewrite Hi. cbn [bind chunks write read].
  rewrite Hi. cbn [bind].
  unfold buffer_write_uint16. rewrite host_bytes_htons by lia.
  change (0 / 256) with 0. change (0 mod 256) with 0.
  assert (Hwf0 : wf_chunks [rm_malloc_chunk])
    by (apply Forall_singleton, wf_chunks_malloc).
  destruct (buffer_write_spec [0; 0] _ _ Hwf0 Hv0)
    as (chs' & w' & -> & Hwf' & Hv' & Hpos & Hl & _ & pad & Hcont);
    [unfold zlen; simpl; lia|].
  cbn [bind]. eexists. split; [reflexivity|].
  cbn [socket ctx on_write state ws reset processing shutdown read_buf msg_buf].
  repeat (split; [reflexivity|]).
  rewrite Hp0 in Hpos. change (zlen [0; 0]) with 2 in Hpos.
  assert (Hslot : bytes_at chs' 0 2 = [0; 0]).
  { pose proof (valid_index_pos _ _ Hwf' Hv') as Hb.
    apply (written_bytes [rm_malloc_chunk] chs' 0 [0; 0] pad); [lia | |].
    - change (zlen [0; 0]) with 2. lia.
    - rewrite Hp0 in Hcont. exact Hcont. }
  split; [split|].
  - cbn [write_buf chunks write client_write].
    split; [exact Hwf'|]. split; [exact Hv'|].
    apply (valid_index_grow _ _ _ Hv0 Hl).
  - exists [0; 0]. cbn [write_buf chunks write client_write ws map concat app].
    split; [reflexivity|]. split.
    + rewrite Hpos. exact Hslot.
    + rewrite Hp0, Hpos. split; reflexivity.
  - unfold slot_zeroed. cbn [write_buf chunks client_write ws slot_size].
    rewrite Hp0. exact Hslot.
Qed.

(** X9: [bolt_client_reply_for] adds the structure header of the response to the
    message being composed and makes the transition for the request and the
    response; the finished messages and the mode stay. *)
Theorem bolt_client_reply_for_appends c msgs P request response size c0 :
  outbox c msgs P ->
  zlen (structure_bytes response size) < 2 ^ 31 ->
  bolt_change_client_state c request response = Ok c0 ->
  exists c',
    bolt_client_reply_for c request response size = Ok c' /\
    state c' = state c0 /\
    outbox c' msgs (P ++ structure_bytes response size) /\
    ws c' = ws c /\ reset c' = reset c.
Proof.
  intros Hout Hlen Htr.
  destruct (reply_for_spec c msgs P request response size c0 Hout Hlen Htr)
    as (c' & H1 & H2 & H3 & H4 & H5 & _).
  exists c'. repeat (split; [assumption|]). assumption.
Qed.

(** X10: [bolt_client_end_message] turns the payload composed since the last
    message into a finished message: the chunk length goes into its slot in
    network order (after the frame header in WebSocket mode), the
    terminator follows the payload, and the saved cursor moves behind it to
    the slot reserved for the next message, which is zeroed. *)
Theorem bolt_client_end_message_closes c msgs P :
  outbox c msgs P ->
  slot_size (ws c) + zlen P < 65536 ->
  exists c',
    bolt_client_end_message c = Ok c' /\
    same_session c c' /\
    outbox c' (msgs ++ [P]) [] /\ slot_zeroed c'.
Proof.
  intros Hout Hsmall.
  destruct (end_message_spec c msgs P Hout Hsmall) as (c' & H1 & H2 & H3 & H4 & _).
  exists c'. split; [exact H1|]. split; [exact H2|]. split; [exact H3 | exact H4].
Qed.

(** X11: Outside a reset, [bolt_client_send] hands the finished messages
    to the socket and nothing more (a payload not yet closed by
    [bolt_client_end_message] is dropped), and leaves an empty outbox with a
    zeroed slot, whether or not the socket takes the writes; when no
    [socket_write_all] fails the socket gets exactly the finished messages,
    in order. *)
Theorem bolt_client_send_flushes c sk msgs P :
  reset c = false ->
  outbox c msgs P ->
  CHUNK * array_len (chunks (write_buf c)) < 2 ^ 32 ->
  exists c' sk',
    bolt_client_send c sk = Ok (c', sk') /\
    same_session c c' /\ outbox c' [] [] /\ slot_zeroed c' /\
    (no_fault sk ->
     no_fault sk' /\
     sent sk' = sent sk ++ concat (map (outbound_frame (ws c)) msgs)).
Proof. apply send_spec. Qed.

(** X12: A whole reply: header, map, end of message and send leave the
    session in the state the transition gives, with an empty outbox and a
    zeroed slot; when no [socket_write_all] fails they put the finished
    messages and then the frame of the reply on the socket. *)
Theorem bolt_reply_round c sk msgs request response size m c0 :
  reset c = false ->
  outbox c msgs [] ->
  bolt_change_client_state c request response = Ok c0 ->
  slot_size (ws c) + zlen (structure_bytes response size ++ map_bytes m) < 65536 ->
  CHUNK * array_len (chunks (write_buf c)) < 2 ^ 32 ->
  pos (write (write_buf c)) + CHUNK < 2 ^ 31 ->
  exists c' sk',
    (do c1 <- bolt_client_reply_for c request response size;
     do c2 <- bolt_reply_map c1 m;
     do c3 <- bolt_client_end_message c2;
     bolt_client_send c3 sk)
    = Ok (c', sk') /\
    state c' = state c0 /\ ws c' = ws c /\ outbox c' [] [] /\ slot_zeroed c' /\
    (no_fault sk ->
     sent sk'
     = sent sk ++ concat (map (outbound_frame (ws c)) msgs)
         ++ outbound_frame (ws c)
              (structure_bytes response size ++ map_bytes m)).
Proof.
  intros Hreset Hout Htr Hsmall Hroom Hpos.
  pose proof (zlen_nonneg (structure_bytes response size)) as HS0.
  pose proof (zlen_nonneg (map_bytes m)) as HM0.
  rewrite zlen_app in Hsmall.
  assert (Hslot : 2 <= slot_size (ws c) <= 4) by (destruct (ws c); simpl; lia).
  destruct (reply_for_spec c msgs [] request response size c0 Hout)
    as (c1 & -> & Hst1 & Hout1 & Hws1 & Hr1 & Hroom1); [lia | exact Htr |].
  cbn [bind app] in *.
  destruct (outbox_append c1 msgs _ (map_bytes m) Hout1)
    as (c2 & Hrun2 & Hs2 & Hout2 & Hroom2); [lia|].
  unfold bolt_reply_map. rewrite Hrun2. cbn [bind].
  assert (Hws2 : ws c2 = ws c) by (destruct Hs2 as (_ & _ & H & _); congruence).
  destruct (end_message_spec c2 msgs _ Hout2)
    as (c3 & -> & Hs3 & Hout3 & _ & Hroom3); [rewrite Hws2, zlen_app; lia|].
  cbn [bind].
  assert (Hws3 : ws c3 = ws c) by (destruct Hs3 as (_ & _ & H & _); congruence).
  assert (Hr3 : reset c3 = false).
  { destruct Hs3 as (_ & _ & _ & H & _). destruct Hs2 as (_ & _ & _ & H' & _).
    congruence. }
  assert (Hst3 : state c3 = state c0).
  { destruct Hs3 as (_ & H & _). destruct Hs2 as (_ & H' & _). congruence. }
  assert (Hp3 : pos (write (write_buf c3))
                = pos (write (write_buf c)) + slot_size (ws c)
                  + zlen (structure_bytes response size) + zlen (map_bytes m) + 2).
  { destruct Hout as (_ & X & HX & _ & Hpc & Hpw).
    destruct Hout3 as (_ & X3 & HX3 & _ & Hpc3 & Hpw3).
    rewrite Hws3 in HX3, Hpc3, Hpw3.
    rewrite map_app, concat_app, zlen_app in Hpc3. cbn [map concat] in Hpc3.
    rewrite app_nil_r, zlen_outbound_frame, zlen_app in Hpc3.
    change (zlen (@nil Z)) with 0 in *. lia. }
  assert (Hp12 : pos (write (write_buf c1)) <= pos (write (write_buf c3)) /\
                 pos (write (write_buf c2)) <= pos (write (write_buf c3))).
  { destruct Hout as (_ & X & HX & _ & Hpc & Hpw).
    destruct Hout1 as (_ & X1 & HX1 & _ & Hpc1 & Hpw1).
    destruct Hout2 as (_ & X2 & HX2 & _ & Hpc2 & Hpw2).
    rewrite Hws1 in HX1, Hpc1, Hpw1. rewrite Hws2 in HX2, Hpc2, Hpw2.
    rewrite zlen_app in Hpw2. change (zlen (@nil Z)) with 0 in *. lia. }
  destruct (send_spec c3 sk _ _ Hr3 Hout3)
    as (c4 & sk' & Hrun4 & Hs4 & Hout4 & Hz4 & Hlog); [lia|].
  exists c4, sk'. split; [exact Hrun4|].
  destruct Hs4 as (_ & Hst4 & Hws4 & _).
  split; [congruence|]. split; [congruence|]. split; [exact Hout4|].
  split; [exact Hz4|].
  intros Hnf. destruct (Hlog Hnf) as [_ E].
  rewrite E, Hws3, map_app, concat_app. cbn [map concat].
  rewrite app_nil_r. reflexivity.
Qed.

(** * The handshake *)

(** The value [ntohl] makes of four bytes read from memory is their
    big-endian value, whatever the byte order of the host. *)
Lemma ntohl_host_value b0 b1 b2 b3 :
  0 <= b0 < 256 -> 0 <= b1 < 256 -> 0 <= b2 < 256 -> 0 <= b3 < 256 ->
  ntohl (host_value [b0; b1; b2; b3])
  = b0 * 2 ^ 24 + b1 * 2 ^ 16 + b2 * 2 ^ 8 + b3.
Proof.
  intros H0 H1 H2 H3. unfold ntohl, host_value.
  destruct big_endian; cbn [rev app le_value].
  - rewrite wrap32_small by lia. lia.
  - rewrite wrap32_small by lia. cbn [le_bytes].
    replace ((b0 + 256 * (b1 + 256 * (b2 + 256 * (b3 + 256 * 0)))) mod 256)
      with b0 by (apply (Z.mod_unique_pos _ 256 (b1 + 256 * (b2 + 256 * b3))); lia).
    replace ((b0 + 256 * (b1 + 256 * (b2 + 256 * (b3 + 256 * 0)))) / 256)
      with (b1 + 256 * (b2 + 256 * b3))
      by (apply (Z.div_unique_pos _ 256 _ b0); lia).
    replace ((b1 + 256 * (b2 + 256 * b3)) mod 256)
      with b1 by (apply (Z.mod_unique_pos _ 256 (b2 + 256 * b3)); lia).
    replace ((b1 + 256 * (b2 + 256 * b3)) / 256)
      with (b2 + 256 * b3)
      by (apply (Z.div_unique_pos _ 256 _ b1); lia).
    replace ((b2 + 256 * b3) mod 256)
      with b2 by (apply (Z.mod_unique_pos _ 256 b3); lia).
    replace ((b2 + 256 * b3) / 256) with b3
      by (apply (Z.div_unique_pos _ 256 _ b2); lia).
    rewrite (Z.mod_small b3) by lia.
    cbn [rev app le_value]. lia.
Qed.

(** X13: When the four bytes at the read cursor lie in its chunk and the
    buffer's write cursor is at least four and less than 65536 bytes after
    the read cursor, [bolt_check_handshake] consumes the four bytes and
    answers whether they are 60 60 B0 17, in this order, on a host of either
    byte order. *)
Theorem bolt_check_handshake_magic c b0 b1 b2 b3 :
  wf_chunks (chunks (read_buf c)) ->
  valid_index (chunks (read_buf c)) (read (read_buf c)) ->
  offset (read (read_buf c)) + 4 <= CHUNK ->
  pos (read (read_buf c)) + 4 <= pos (write (read_buf c))
    < pos (read (read_buf c)) + 65536 ->
  bytes_at (chunks (read_buf c)) (pos (read (read_buf c))) 4 = [b0; b1; b2; b3] ->
  Forall (fun b => 0 <= b < 256) [b0; b1; b2; b3] ->
  bolt_check_handshake c
  = Ok (bool_decide ([b0; b1; b2; b3] = [0x60; 0x60; 0xB0; 0x17]),
        set_read_buf c
          (mk_buffer (chunks (read_buf c))
             (mk_index (chunk (read (read_buf c))) (offset (read (read_buf c)) + 4))
             (write (read_buf c)))).
Proof.
  intros Hwf [Hc Ho] Hin Hwr Hbytes Hrange.
  apply Forall_cons in Hrange as [H0 Hrange].
  apply Forall_cons in Hrange as [H1 Hrange].
  apply Forall_cons in Hrange as [H2 Hrange].
  apply Forall_cons in Hrange as [H3 _].
  unfold bolt_check_handshake, buffer_read_uint32, buffer_read_uint,
    buffer_index_read.
  rewrite buffer_index_diff_near by lia.
  replace (4 <=? pos (write (read_buf c)) - pos (read (read_buf c))) with true
    by (symmetry; apply Z.leb_le; lia).
  cbn [ASSERT bind].
  rewrite chunk_load_spec by (try assumption; lia).
  cbn [bind]. fold (pos (read (read_buf c))). rewrite Hbytes.
  rewrite buffer_index_add_inplace by lia.
  rewrite ntohl_host_value by assumption.
  do 2 f_equal.
  destruct (decide ([b0; b1; b2; b3] = [96; 96; 176; 23])) as [E|E].
  - rewrite bool_decide_eq_true_2 by exact E.
    injection E as -> -> -> ->. reflexivity.
  - rewrite bool_decide_eq_false_2 by exact E.
    apply Z.eqb_neq. intros Heq. apply E.
    assert (b3 = 23) by lia. assert (b2 = 176) by lia.
    assert (b1 = 96) by lia. assert (b0 = 96) by lia.
    congruence.
Qed.

(** * After a RESET *)

(** The cursors [bolt_client_send] leaves on its RESET path. *)
Lemma send_reset_cursors c sk :
  reset c = true ->
  wf_chunks (chunks (write_buf c)) ->
  2 < CHUNK * array_len (chunks (write_buf c)) < 2 ^ 32 ->
  zlen (structure_bytes BST_SUCCESS 1 ++ map_bytes 0) <= 65533 ->
  zlen (structure_bytes BST_IGNORED 0) <= 65533 ->
  exists c' sk' X,
    bolt_client_send c sk = Ok (c', sk') /\
    ws c' = ws c /\ reset c' = false /\ composing c' X [].
Proof.
  intros Hreset Hwf Hsz Hsucc Hign.
  rewrite zlen_app in Hsucc.
  pose proof (zlen_nonneg (structure_bytes BST_SUCCESS 1)) as Hs0.
  pose proof (zlen_nonneg (map_bytes 0)) as Hm0.
  unfold bolt_client_send. rewrite Hreset.
  destruct (composing_rewound c Hwf Hsz) as (c0 & -> & Hs & Hcomp0).
  cbn [bind].
  unfold bolt_reply_structure, bolt_reply_map.
  destruct (bool_decide (state c0 = BS_FAILED)); cbn [negb].
  - destruct (composing_append c0 _ [] (structure_bytes BST_IGNORED 0) Hcomp0)
      as (c1 & -> & Hs1 & Hcomp1); [unfold zlen at 1; simpl; lia|].
    cbn [bind app] in *.
    destruct (composing_send c1 sk _ _ Hcomp1 Hign)
      as (c2 & sk1 & -> & _ & Hs2 & Hcomp2).
    cbn [bind].
    destruct (composing_append c2 _ [] (structure_bytes BST_SUCCESS 1) Hcomp2)
      as (c3 & -> & Hs3 & Hcomp3); [unfold zlen at 1; simpl; lia|].
    cbn [bind app] in *.
    destruct (composing_append c3 _ _ (map_bytes 0) Hcomp3)
      as (c4 & -> & Hs4 & Hcomp4); [lia|].
    cbn [bind].
    destruct (composing_send c4 sk1 _ _ Hcomp4)
      as (c5 & sk2 & -> & _ & Hs5 & Hcomp5); [rewrite zlen_app; lia|].
    cbn [bind]. eexists _, _, _. split; [reflexivity|].
    split; [|split; [reflexivity | exact Hcomp5]].
    cbn [ws set_state set_reset].
    destruct Hs as (_ & _ & E & _), Hs1 as (_ & _ & E1 & _),
      Hs2 as (_ & _ & E2 & _), Hs3 as (_ & _ & E3 & _),
      Hs4 as (_ & _ & E4 & _), Hs5 as (_ & _ & E5 & _).
    congruence.
  - destruct (composing_append c0 _ [] (structure_bytes BST_SUCCESS 1) Hcomp0)
      as (c1 & -> & Hs1 & Hcomp1); [unfold zlen at 1; simpl; lia|].
    cbn [bind app] in *.
    destruct (composing_append c1 _ _ (map_bytes 0) Hcomp1)
      as (c2 & -> & Hs2 & Hcomp2); [lia|].
    cbn [bind].
    destruct (composing_send c2 sk _ _ Hcomp2)
      as (c3 & sk1 & -> & _ & Hs3 & Hcomp3); [rewrite zlen_app; lia|].
    cbn [bind]. eexists _, _, _. split; [reflexivity|].
    split; [|split; [reflexivity | exact Hcomp3]].
    cbn [ws set_reset].
    destruct Hs as (_ & _ & E & _), Hs1 as (_ & _ & E1 & _),
      Hs2 as (_ & _ & E2 & _), Hs3 as (_ & _ & E3 & _).
    congruence.
Qed.

(** In WebSocket mode a two-byte slot followed by a payload is a four-byte
    slot followed by the payload without its first two bytes. *)
Lemma composing_outbox_ws c X P :
  composing c X P -> ws c = true -> 2 <= zlen P ->
  outbox c [] (drop 2 P).
Proof.
  intros (Hok & Hp0 & Hpw & Htake & HX & _) Hws HP.
  split; [exact Hok|].
  exists (X ++ take 2 P). rewrite Hws. cbn [slot_size map concat app].
  assert (Hl : zlen (take 2 P) = 2) by (unfold zlen in *; rewrite length_take; lia).
  assert (Hd : zlen (drop 2 P) = zlen P - 2)
    by (unfold zlen in *; rewrite length_drop; lia).
  split; [rewrite zlen_app; unfold zlen in *; lia|].
  split; [|split; [exact Hp0 | lia]].
  rewrite Hpw, Htake, <- app_assoc, take_drop. reflexivity.
Qed.

(** X14: The RESET path of [bolt_client_send] leaves the saved cursor at the
    start of the write buffer and the write cursor two bytes behind it,
    whatever the mode: in plain mode this is the empty outbox. *)
Theorem bolt_client_send_reset_slot c sk :
  reset c = true ->
  wf_chunks (chunks (write_buf c)) ->
  2 < CHUNK * array_len (chunks (write_buf c)) < 2 ^ 32 ->
  zlen (structure_bytes BST_SUCCESS 1 ++ map_bytes 0) <= 65533 ->
  zlen (structure_bytes BST_IGNORED 0) <= 65533 ->
  exists c' sk',
    bolt_client_send c sk = Ok (c', sk') /\
    ws c' = ws c /\ reset c' = false /\
    write_buf_ok c' /\
    pos (client_write c') = 0 /\ pos (write (write_buf c')) = 2 /\
    (ws c = false -> outbox c' [] []).
Proof.
  intros Hreset Hwf Hsz Hsucc Hign.
  destruct (send_reset_cursors c sk Hreset Hwf Hsz Hsucc Hign)
    as (c' & sk' & X & Hrun & Hws & Hr & Hcomp).
  exists c', sk'. split; [exact Hrun|]. split; [exact Hws|]. split; [exact Hr|].
  destruct Hcomp as (Hok & Hp0 & Hpw & Htake & HX & _).
  change (zlen (@nil Z)) with 0 in *.
  split; [exact Hok|]. split; [exact Hp0|]. split; [exact Hpw|].
  intros Hplain. split; [exact Hok|].
  exists X. rewrite Hws, Hplain. cbn [slot_size map concat app].
  split; [unfold zlen; lia|].
  split; [|split; [exact Hp0 | rewrite Hpw, Hp0; reflexivity]].
  rewrite Hpw, app_nil_r in *. exact Htake.
Qed.

(** X15: In WebSocket mode the slot the RESET path leaves is two bytes short of
    the four [bolt_client_end_message] fills: the frame header and the
    chunk length of the next message take the place of the slot and of the
    first two bytes of its payload, and the message that is finished is the
    one of the payload without these two bytes. *)
Theorem bolt_client_end_message_short_slot c P :
  ws c = true ->
  write_buf_ok c ->
  CHUNK * array_len (chunks (write_buf c)) < 2 ^ 32 ->
  pos (client_write c) = 0 ->
  pos (write (write_buf c)) = 2 + zlen P ->
  bytes_at (chunks (write_buf c)) 2 (zlen P) = P ->
  2 <= zlen P -> zlen P + 2 < 65536 ->
  exists c',
    bolt_client_end_message c = Ok c' /\
    same_session c c' /\
    outbox c' [drop 2 P] [] /\
    bytes_at (chunks (write_buf c')) 0 (pos (client_write c'))
    = [0x82; (zlen P + 2) mod 256; (zlen P - 2) / 256; (zlen P - 2) mod 256]
      ++ drop 2 P ++ [0; 0].
Proof.
  intros Hws Hok Hroom Hp0 Hpw Hbytes HP Hsmall.
  assert (Hcomp : composing c (take 2 (contents (chunks (write_buf c)))) P).
  { split; [exact Hok|]. split; [exact Hp0|]. split; [exact Hpw|].
    destruct Hok as (Hwf & Hvw & _).
    pose proof (valid_index_pos _ _ Hwf Hvw) as Hb.
    split; [|split; [|exact Hroom]].
    - rewrite <- (take_drop 2 (contents (chunks (write_buf c)))) at 1.
      replace (Z.to_nat (2 + zlen P)) with (2 + Z.to_nat (zlen P))%nat by lia.
      rewrite take_app_add'
        by (rewrite length_take; unfold zlen in *; lia).
      f_equal. exact Hbytes.
    - rewrite length_take. unfold zlen in *. lia. }
  pose proof (composing_outbox_ws c _ P Hcomp Hws HP) as Hout.
  assert (Hd : zlen (drop 2 P) = zlen P - 2)
    by (unfold zlen in *; rewrite length_drop; lia).
  destruct (end_message_spec c [] (drop 2 P) Hout)
    as (c' & Hrun & Hs & Hout' & _); [rewrite Hws; cbn [slot_size]; lia|].
  exists c'. split; [exact Hrun|]. split; [exact Hs|]. split; [exact Hout'|].
  destruct Hout' as (_ & X' & HX' & Htake' & Hpc' & Hpw').
  unfold bytes_at. rewrite drop_0.
  apply (f_equal (take (Z.to_nat (pos (client_write c'))))) in Htake'.
  rewrite take_take in Htake'.
  pose proof (zlen_nonneg X') as HX0.
  replace (Z.to_nat (pos (client_write c'))
           `min` Z.to_nat (pos (write (write_buf c'))))%nat
    with (Z.to_nat (pos (client_write c'))) in Htake'
    by (change (zlen (@nil Z)) with 0 in Hpw'; rewrite HX' in HX0;
        destruct (ws c'); cbn [slot_size] in *; lia).
  rewrite Htake', Hpc'. unfold zlen at 1. rewrite Nat2Z.id, take_app_length.
  replace (ws c') with true by (destruct Hs as (_ & _ & E & _); congruence).
  cbn [map concat app outbound_frame bolt_message]. rewrite app_nil_r, Hd.
  replace (zlen P - 2 + 4) with (zlen P + 2) by lia.
  reflexivity.
Qed.
End Bolt.

(** * The session state machine *)

Lemma set_state_frame client s : same_but_state client (set_state client s).
Proof. unfold same_but_state; simpl; repeat split. Qed.

(** C1, as the code has it: for a response other than RECORD,
    [bolt_change_client_state] sets the state to the next state the table
    of section 4.4 gives for (state, request, response), and traps, leaving
    no new state, for every triple the table does not list, among them every
    triple whose state is DEFUNCT. (With a RECORD response it returns
    without a trap in every state.) *)
Theorem bolt_change_client_state_table c request response :
  response <> BST_RECORD ->
  (forall s', transition_table (state c) request response = Some s' ->
     bolt_change_client_state c request response = Ok (set_state c s')) /\
  (transition_table (state c) request response = None ->
     bolt_change_client_state c request response = Err AssertFailed) /\
  (state c = BS_DEFUNCT ->
     bolt_change_client_state c request response = Err AssertFailed).
Proof.
  intros Hr.
  pose proof (bolt_change_client_state_refines c request response Hr) as Heq.
  split; [|split].
  - intros s' Hs. rewrite Heq, Hs. reflexivity.
  - intros Hn. rewrite Heq, Hn. reflexivity.
  - intros Hd. rewrite Heq, Hd. reflexivity.
Qed.

(** C9: with a RECORD response [bolt_change_client_state] returns without a
    trap and leaves the session, so its state, as it was, in every state
    and for every request. *)
Theorem bolt_change_client_state_record c request :
  exists c',
    bolt_change_client_state c request BST_RECORD = Ok c' /\
    state c' = state c /\ c' = c.
Proof. exists c. repeat split. Qed.

(** C10: a transition that does not trap changes no field of the session
    but [state]. *)
Theorem bolt_change_client_state_frame c request response c' :
  bolt_change_client_state c request response = Ok c' ->
  same_but_state c c'.
Proof.
  intros H. destruct (decide (response = BST_RECORD)) as [->|Hr].
  - change (Ok c = Ok c') in H. injection H as <-.
    unfold same_but_state. repeat split.
  - rewrite bolt_change_client_state_refines in H by exact Hr.
    destruct (transition_table (state c) request response); [|discriminate].
    injection H as <-. apply set_state_frame.
Qed.

(** * Concrete instances *)

Lemma wf_example_chunks n : wf_chunks 4096 (replicate n example_chunk).
Proof.
  apply Forall_replicate. unfold zlen, example_chunk.
  rewrite length_replicate. reflexivity.
Qed.

Lemma wf_example_chunk : wf_chunks 4096 [example_chunk].
Proof. exact (wf_example_chunks 1). Qed.

Lemma chunk_4096_pos : 0 < 4096.
Proof. reflexivity. Qed.

Lemma chunk_4096_int : 4096 < 2 ^ 31.
Proof. reflexivity. Qed.

(** C1: a RECORD response in state DEFUNCT is a triple the table does not
    list, and the call returns instead of trapping. *)
Lemma defunct_record_does_not_trap :
  transition_table BS_DEFUNCT BST_HELLO BST_RECORD = None /\
  bolt_change_client_state
    (example_client BS_DEFUNCT false (mk_index 0 2) (mk_index 0 0))
    BST_HELLO BST_RECORD
  = Ok (example_client BS_DEFUNCT false (mk_index 0 2) (mk_index 0 0)).
Proof. split; reflexivity. Qed.

Lemma bolt_change_client_state_table_witness :
  BST_SUCCESS <> BST_RECORD /\
  bolt_change_client_state
    (example_client BS_READY false (mk_index 0 2) (mk_index 0 0))
    BST_RUN BST_SUCCESS
  = Ok (example_client BS_STREAMING false (mk_index 0 2) (mk_index 0 0)) /\
  bolt_change_client_state
    (example_client BS_DEFUNCT false (mk_index 0 2) (mk_index 0 0))
    BST_RUN BST_SUCCESS
  = Err AssertFailed.
Proof.
  assert (H : BST_SUCCESS <> BST_RECORD) by discriminate.
  split; [exact H|]. split.
  - exact (proj1 (bolt_change_client_state_table
                    (example_client BS_READY false (mk_index 0 2) (mk_index 0 0))
                    BST_RUN BST_SUCCESS H) BS_STREAMING eq_refl).
  - exact (proj2 (proj2 (bolt_change_client_state_table
                    (example_client BS_DEFUNCT false (mk_index 0 2) (mk_index 0 0))
                    BST_RUN BST_SUCCESS H)) eq_refl).
Defined.

Lemma bolt_change_client_state_frame_witness :
  bolt_change_client_state
    (example_client BS_READY false (mk_index 0 2) (mk_index 0 0))
    BST_RUN BST_FAILURE
  = Ok (example_client BS_FAILED false (mk_index 0 2) (mk_index 0 0)) /\
  same_but_state
    (example_client BS_READY false (mk_index 0 2) (mk_index 0 0))
    (example_client BS_FAILED false (mk_index 0 2) (mk_index 0 0)).
Proof.
  split; [reflexivity|].
  apply (bolt_change_client_state_frame
           (example_client BS_READY false (mk_index 0 2) (mk_index 0 0))
           BST_RUN BST_FAILURE).
  reflexivity.
Defined.

(** * More on the state machine *)

(** The next state of a transition that is not for a RECORD. *)
Lemma bolt_change_client_state_step c request response c' :
  bolt_change_client_state c request response = Ok c' ->
  (response = BST_RECORD /\ c' = c) \/
  (response <> BST_RECORD /\
   exists s', transition_table (state c) request response = Some s' /\
              c' = set_state c s').
Proof.
  intros H. destruct (decide (response = BST_RECORD)) as [->|Hr].
  - left. change (Ok c = Ok c') in H. split; congruence.
  - right. split; [exact Hr|].
    rewrite bolt_change_client_state_refines in H by exact Hr.
    destruct (transition_table (state c) request response) as [s'|];
      [|discriminate].
    exists s'. split; [reflexivity | congruence].
Qed.

Lemma transition_table_targets s request response s' :
  transition_table s request response = Some s' ->
  s' <> BS_NEGOTIATION /\ s' <> BS_INTERRUPTED.
Proof.
  destruct s, request, response; cbn; intros H;
    try discriminate; injection H as <-; split; discriminate.
Qed.

(** X16: No transition enters NEGOTIATION or INTERRUPTED: a call that returns
    with the session in one of these two states was for a RECORD and left
    the session as it was. *)
Theorem bolt_change_client_state_never_enters c request response c' :
  bolt_change_client_state c request response = Ok c' ->
  state c' = BS_NEGOTIATION \/ state c' = BS_INTERRUPTED ->
  response = BST_RECORD /\ c' = c.
Proof.
  intros H Hs.
  destruct (bolt_change_client_state_step _ _ _ _ H)
    as [[-> ->]|(_ & s' & Ht & ->)]; [split; reflexivity|].
  apply transition_table_targets in Ht. cbn [state set_state] in Hs.
  destruct Ht, Hs; congruence.
Qed.

(** X17: GOODBYE closes the session from every state after login, whatever the
    response that is not a RECORD; before login, and in DEFUNCT, it
    traps. *)
Theorem bolt_change_client_state_goodbye c response :
  response <> BST_RECORD ->
  bolt_change_client_state c BST_GOODBYE response
  = if before_login (state c) then Err AssertFailed
    else Ok (set_state c BS_DEFUNCT).
Proof.
  intros Hr. rewrite bolt_change_client_state_refines by exact Hr.
  destruct (state c), response; try reflexivity; congruence.
Qed.

(** ** Sequences of transitions *)

Lemma transition_table_defunct request response :
  transition_table BS_DEFUNCT request response = None.
Proof. destruct request, response; reflexivity. Qed.

Lemma states_from_defunct l : forall c c',
  state c = BS_DEFUNCT ->
  bolt_change_client_states c l = Ok c' ->
  c' = c /\ Forall (fun p => snd p = BST_RECORD) l.
Proof.
  induction l as [|[rq rs] l IH]; intros c c' Hs H; cbn [bolt_change_client_states] in H.
  - split; [congruence | constructor].
  - destruct (bolt_change_client_state c rq rs) as [c1|e] eqn:E; [|discriminate].
    cbn [bind] in H.
    destruct (bolt_change_client_state_step _ _ _ _ E)
      as [[-> ->]|(_ & s' & Ht & _)].
    + destruct (IH c c' Hs H) as [-> Hl]. split; [reflexivity|].
      constructor; [reflexivity | exact Hl].
    + rewrite Hs, transition_table_defunct in Ht. discriminate.
Qed.

(** X18: DEFUNCT is final for every sequence of replies: if none of the calls
    traps, all the responses were RECORDs and the session is as it was. *)
Theorem bolt_change_client_states_defunct c l c' :
  state c = BS_DEFUNCT ->
  bolt_change_client_states c l = Ok c' ->
  c' = c /\ Forall (fun p => snd p = BST_RECORD) l.
Proof. apply states_from_defunct. Qed.

Lemma transition_table_authentication request response s' :
  transition_table BS_AUTHENTICATION request response = Some s' ->
  (request = BST_LOGON /\ response = BST_SUCCESS /\ s' = BS_READY) \/
  s' = BS_DEFUNCT.
Proof.
  destruct request, response; cbn; intros H; try discriminate;
    injection H as <-; auto.
Qed.

Lemma transition_table_negotiation request response s' :
  transition_table BS_NEGOTIATION request response = Some s' ->
  (request = BST_HELLO /\ response = BST_SUCCESS /\ s' = BS_AUTHENTICATION) \/
  s' = BS_DEFUNCT.
Proof.
  destruct request, response; cbn; intros H; try discriminate;
    injection H as <-; auto.
Qed.

Lemma states_from_authentication l : forall c c',
  state c = BS_AUTHENTICATION ->
  bolt_change_client_states c l = Ok c' ->
  state c' <> BS_AUTHENTICATION -> state c' <> BS_DEFUNCT ->
  exists l2 l3, l = l2 ++ (BST_LOGON, BST_SUCCESS) :: l3.
Proof.
  induction l as [|[rq rs] l IH]; intros c c' Hs H Hn1 Hn2;
    cbn [bolt_change_client_states] in H.
  - injection H as <-. congruence.
  - destruct (bolt_change_client_state c rq rs) as [c1|e] eqn:E; [|discriminate].
    cbn [bind] in H.
    destruct (bolt_change_client_state_step _ _ _ _ E)
      as [[-> ->]|(_ & s' & Ht & ->)].
    + destruct (IH c c' Hs H Hn1 Hn2) as (l2 & l3 & ->).
      exists ((rq, BST_RECORD) :: l2), l3. reflexivity.
    + rewrite Hs in Ht.
      destruct (transition_table_authentication _ _ _ Ht) as [(-> & -> & _)| ->].
      * exists [], l. reflexivity.
      * destruct (states_from_defunct l (set_state c BS_DEFUNCT) c' eq_refl H) as [-> _].
        cbn [state set_state] in Hn2. congruence.
Qed.

(** X19: No session gets past login without a successful HELLO followed by a
    successful LOGON: if a sequence of replies starts in NEGOTIATION, does
    not trap and ends in a state other than NEGOTIATION, AUTHENTICATION and
    DEFUNCT, then it contains a SUCCESS to a HELLO and, after it, a SUCCESS
    to a LOGON. *)
Theorem bolt_change_client_states_login c l c' :
  state c = BS_NEGOTIATION ->
  bolt_change_client_states c l = Ok c' ->
  before_login (state c') = false ->
  exists l1 l2 l3,
    l = l1 ++ (BST_HELLO, BST_SUCCESS) :: l2 ++ (BST_LOGON, BST_SUCCESS) :: l3.
Proof.
  revert c. induction l as [|[rq rs] l IH]; intros c Hs H Hn;
    cbn [bolt_change_client_states] in H.
  - injection H as <-. rewrite Hs in Hn. discriminate.
  - destruct (bolt_change_client_state c rq rs) as [c1|e] eqn:E; [|discriminate].
    cbn [bind] in H.
    destruct (bolt_change_client_state_step _ _ _ _ E)
      as [[-> ->]|(_ & s' & Ht & ->)].
    + destruct (IH c Hs H Hn) as (l1 & l2 & l3 & ->).
      exists ((rq, BST_RECORD) :: l1), l2, l3. reflexivity.
    + rewrite Hs in Ht.
      destruct (transition_table_negotiation _ _ _ Ht) as [(-> & -> & ->)| ->].
      * destruct (states_from_authentication l (set_state c BS_AUTHENTICATION) c' eq_refl H) as (l2 & l3 & ->).
        -- intros E'. rewrite E' in Hn. discriminate.
        -- intros E'. rewrite E' in Hn. discriminate.
        -- exists [], l2, l3. reflexivity.
      * destruct (states_from_defunct l (set_state c BS_DEFUNCT) c' eq_refl H) as [-> _].
        cbn [state set_state] in Hn. discriminate.
Qed.

Lemma transition_table_failed request response s' :
  transition_table BS_FAILED request response = Some s' ->
  s' = BS_FAILED \/ request = BST_RESET \/ s' = BS_DEFUNCT.
Proof.
  destruct request, response; cbn; intros H; try discriminate;
    injection H as <-; auto.
Qed.

(** X20: RESET is the only way back from FAILED: if a sequence of replies starts
    in FAILED, does not trap and ends in a state other than FAILED and
    DEFUNCT, one of its requests is a RESET. *)
Theorem bolt_change_client_states_failed c l c' :
  state c = BS_FAILED ->
  bolt_change_client_states c l = Ok c' ->
  state c' <> BS_FAILED -> state c' <> BS_DEFUNCT ->
  exists response, In (BST_RESET, response) l.
Proof.
  revert c. induction l as [|[rq rs] l IH]; intros c Hs H Hn1 Hn2;
    cbn [bolt_change_client_states] in H.
  - injection H as <-. congruence.
  - destruct (bolt_change_client_state c rq rs) as [c1|e] eqn:E; [|discriminate].
    cbn [bind] in H.
    destruct (bolt_change_client_state_step _ _ _ _ E)
      as [[-> ->]|(_ & s' & Ht & ->)].
    + destruct (IH c Hs H Hn1 Hn2) as (r & Hin). exists r. right. exact Hin.
    + rewrite Hs in Ht.
      destruct (transition_table_failed _ _ _ Ht) as [-> | [-> | ->]].
      * destruct (IH (set_state c BS_FAILED) eq_refl H Hn1 Hn2) as (r & Hin). exists r. right. exact Hin.
      * exists rs. left. reflexivity.
      * destruct (states_from_defunct l (set_state c BS_DEFUNCT) c' eq_refl H) as [-> _].
        cbn [state set_state] in Hn2. congruence.
Qed.

(** C8 at the cursors (2, 1) and (1, 7) of a three-chunk buffer: the offset
    of the later cursor is the smaller one. *)
Lemma buffer_index_diff_distance_witness :
  valid_index 4096 (replicate 3 example_chunk) (mk_index 2 1) /\
  valid_index 4096 (replicate 3 example_chunk) (mk_index 1 7) /\
  index_le (mk_index 1 7) (mk_index 2 1) /\
  pos 4096 (mk_index 2 1) - pos 4096 (mk_index 1 7) < 65536 /\
  buffer_index_diff 4096 (mk_index 2 1) (mk_index 1 7)
  = pos 4096 (mk_index 2 1) - pos 4096 (mk_index 1 7) /\
  0 <= buffer_index_diff 4096 (mk_index 2 1) (mk_index 1 7) < 2 ^ 16.
Proof.
  assert (Ha : valid_index 4096 (replicate 3 example_chunk) (mk_index 2 1))
    by (unfold valid_index, array_len, zlen; simpl; lia).
  assert (Hb : valid_index 4096 (replicate 3 example_chunk) (mk_index 1 7))
    by (unfold valid_index, array_len, zlen; simpl; lia).
  assert (Hle : index_le (mk_index 1 7) (mk_index 2 1))
    by (left; simpl; lia).
  assert (Hd : pos 4096 (mk_index 2 1) - pos 4096 (mk_index 1 7) < 65536)
    by (unfold pos; simpl; lia).
  split; [exact Ha|]. split; [exact Hb|]. split; [exact Hle|]. split; [exact Hd|].
  exact (buffer_index_diff_distance 4096 chunk_4096_pos _ _ _ Ha Hb Hle Hd).
Defined.

(** C4: an advance that ends exactly at the end of the chunk leaves the
    cursor in that chunk with offset [CHUNK]; the normalized cursor of the
    position is the start of the next chunk. *)
Lemma buffer_index_add_on_boundary :
  pos 4096 (mk_index 0 0) = 0 /\
  buffer_index_add 4096 (mk_index 0 0) 4096 = mk_index 0 4096 /\
  normalized 4096 (0 + 4096) = mk_index 1 0.
Proof. repeat split. Qed.

Lemma buffer_index_add_position_witness :
  (0 <= offset (mk_index 0 4090) <= 4096) /\ 0 <= 10 /\
  offset (mk_index 0 4090) + 10 < 2 ^ 32 /\
  pos 4096 (buffer_index_add 4096 (mk_index 0 4090) 10)
  = pos 4096 (mk_index 0 4090) + 10 /\
  buffer_index_add 4096 (mk_index 0 4090) 10
  = normalized 4096 (pos 4096 (mk_index 0 4090) + 10).
Proof.
  assert (H1 : 0 <= offset (mk_index 0 4090) <= 4096) by (simpl; lia).
  assert (H2 : 0 <= 10) by lia.
  assert (H3 : offset (mk_index 0 4090) + 10 < 2 ^ 32) by (simpl; lia).
  split; [exact H1|]. split; [exact H2|]. split; [exact H3|].
  destruct (buffer_index_add_position 4096 chunk_4096_pos chunk_4096_int
              (mk_index 0 4090) 10 H1 H2 H3) as (Hp & Hn & _).
  split; [exact Hp|]. apply Hn. simpl. lia.
Defined.




(** Typed reads do not follow a scalar across a chunk boundary as
    [buffer_write] does: with chunks of 8 bytes, a 32-bit scalar written at
    offset 6 is split over two chunks and read back past the end of the
    first. *)
Example typed_read_across_boundary :
  write_scalars 8 0 false [replicate 8 0] (mk_index 0 6) [U32 16909060]
  = Ok ([[0; 0; 0; 0; 0; 0; 4; 3]; [2; 1; 0; 0; 0; 0; 0; 0]], mk_index 1 2) /\
  read_scalars 8 false [[0; 0; 0; 0; 0; 0; 4; 3]; [2; 1; 0; 0; 0; 0; 0; 0]]
    (mk_index 1 2) (mk_index 0 6) [U32 0]
  = Err OutOfBounds.
Proof. split; reflexivity. Qed.

(** C5: the write cursor is four bytes before the end of its chunk; the
    socket delivers four bytes, which fill the chunk, and reports end of
    file to the read that continues in the next chunk: the call returns
    [true]. *)
Theorem buffer_socket_read_eof_after_fill :
  buffer_socket_read 4096 0
    (mk_buffer [example_chunk] (mk_index 0 0) (mk_index 0 4092))
    [SockData [1; 2; 3; 4]; SockEOF]
  = Ok (mk_buffer
          [replicate (Z.to_nat 4092) 0 ++ [1; 2; 3; 4]; example_chunk]
          (mk_index 0 0) (mk_index 1 0),
        [], true).
Proof. vm_compute. reflexivity. Qed.

(** End of file on the first read of a call, and an error on either read,
    do return [false]. *)
Example buffer_socket_read_eof_first :
  buffer_socket_read 4096 0
    (mk_buffer [example_chunk] (mk_index 0 0) (mk_index 0 4092)) [SockEOF]
  = Ok (mk_buffer [example_chunk] (mk_index 0 0) (mk_index 0 4092), [], false).
Proof. vm_compute. reflexivity. Qed.

Example buffer_socket_read_error_after_fill :
  buffer_socket_read 4096 0
    (mk_buffer [example_chunk] (mk_index 0 0) (mk_index 0 4092))
    [SockData [1; 2; 3; 4]; SockError]
  = Ok (mk_buffer
          [replicate (Z.to_nat 4092) 0 ++ [1; 2; 3; 4]; example_chunk]
          (mk_index 0 0) (mk_index 1 0),
        [], false).
Proof. vm_compute. reflexivity. Qed.

(** C6: a message of 122 payload bytes makes a frame payload of 126 bytes;
    the length byte written is 126, which a frame header reads as the
    escape to a 16-bit length, here the chunk length 122. *)
Lemma end_message_ws_length_126 :
  exists c',
    bolt_client_end_message 4096 0 false
      (example_client BS_READY true (mk_index 0 126) (mk_index 0 0)) = Ok c' /\
    pos 4096 (client_write c') - (0 + 2) = 126 /\
    bytes_at (chunks (write_buf c')) 0 4 = [130; 126; 0; 122] /\
    ws_payload_length (bytes_at (chunks (write_buf c')) 0 4) = Some 122.
Proof.
  destruct (end_message_ws_spec 4096 0 false chunk_4096_pos chunk_4096_int
              (example_client BS_READY true (mk_index 0 126) (mk_index 0 0)) 122)
    as (c' & Hrun & _ & Hhdr & _ & _ & Hcw & _).
  - split; [exact wf_example_chunk|].
    split; unfold valid_index, array_len, zlen; simpl; lia.
  - reflexivity.
  - reflexivity.
  - lia.
  - lia.
  - exists c'. split; [exact Hrun|].
    change (pos 4096 (client_write
              (example_client BS_READY true (mk_index 0 126) (mk_index 0 0))))
      with 0 in Hhdr.
    change (pos 4096 (write (write_buf
              (example_client BS_READY true (mk_index 0 126) (mk_index 0 0)))))
      with 126 in Hcw.
    split; [lia|]. rewrite Hhdr. split; reflexivity.
Qed.

Lemma end_message_ws_frame_header_witness :
  write_buf_ok 4096 (example_client BS_READY true (mk_index 0 7) (mk_index 0 0)) /\
  ws (example_client BS_READY true (mk_index 0 7) (mk_index 0 0)) = true /\
  exists c',
    bolt_client_end_message 4096 0 false
      (example_client BS_READY true (mk_index 0 7) (mk_index 0 0)) = Ok c' /\
    bytes_at (chunks (write_buf c')) 0 4 = [130; 7; 0; 3] /\
    ws_payload_length (bytes_at (chunks (write_buf c')) 0 4) = Some 7 /\
    ws_masked (bytes_at (chunks (write_buf c')) 0 4) = Some false.
Proof.
  assert (Hok : write_buf_ok 4096
                  (example_client BS_READY true (mk_index 0 7) (mk_index 0 0))).
  { split; [exact wf_example_chunk|].
    split; unfold valid_index, array_len, zlen; simpl; lia. }
  split; [exact Hok|]. split; [reflexivity|].
  destruct (end_message_ws_frame_header 4096 0 false chunk_4096_pos chunk_4096_int
              (example_client BS_READY true (mk_index 0 7) (mk_index 0 0)) 3
              Hok eq_refl eq_refl ltac:(lia) ltac:(lia))
    as (c' & Hrun & Hhdr & _ & _ & _ & Hdec).
  exists c'. split; [exact Hrun|]. split; [exact Hhdr|].
  apply Hdec. lia.
Defined.

Lemma wf_example_chunk_of bytes :
  (length bytes <= Z.to_nat 4096)%nat -> zlen (example_chunk_of bytes) = 4096.
Proof.
  intros H. unfold zlen, example_chunk_of.
  rewrite length_app, length_replicate. lia.
Qed.

(** C7: the source holds the byte 7 at its start and its write cursor is
    65536 bytes ahead of the source cursor, so the byte is readable; the
    16-bit distance the assertion tests is 0 and [buffer_read] traps, while
    the copy loop behind the assertion copies the byte. *)
Theorem buffer_read_assert_misfires :
  wf_chunks 4096 (example_chunk_of [7] :: replicate 16 example_chunk) /\
  valid_index 4096 (example_chunk_of [7] :: replicate 16 example_chunk) (mk_index 0 0) /\
  valid_index 4096 (example_chunk_of [7] :: replicate 16 example_chunk) (mk_index 16 0) /\
  pos 4096 (mk_index 0 0) + 1 <= pos 4096 (mk_index 16 0) /\
  bytes_at (example_chunk_of [7] :: replicate 16 example_chunk) 0 1 = [7] /\
  buffer_index_diff 4096 (mk_index 16 0) (mk_index 0 0) = 0 /\
  buffer_read 4096 0 (example_chunk_of [7] :: replicate 16 example_chunk)
    (mk_index 16 0) (mk_index 0 0) [example_chunk] (mk_index 0 0) 1
  = Err AssertFailed /\
  exists dst_chs',
    buffer_read_loop 4096 0 (3 * Z.to_nat 1 + 3)
      (example_chunk_of [7] :: replicate 16 example_chunk) (mk_index 0 0)
      [example_chunk] (mk_index 0 0) 1
    = Ok (mk_index 0 1, dst_chs', mk_index 0 1) /\
    bytes_at dst_chs' 0 1 = [7].
Proof.
  split.
  { apply Forall_cons. split; [apply wf_example_chunk_of; simpl; lia|].
    exact (wf_example_chunks 16). }
  split; [unfold valid_index, array_len, zlen; simpl; lia|].
  split; [unfold valid_index, array_len, zlen; simpl; lia|].
  split; [unfold pos; simpl; lia|].
  split; [reflexivity|]. split; [reflexivity|]. split; [reflexivity|].
  assert (E : match buffer_read_loop 4096 0 (3 * Z.to_nat 1 + 3)
                      (example_chunk_of [7] :: replicate 16 example_chunk)
                      (mk_index 0 0) [example_chunk] (mk_index 0 0) 1 with
              | Ok (b, d, i) =>
                  b = mk_index 0 1 /\ i = mk_index 0 1 /\ bytes_at d 0 1 = [7]
              | Err _ => False
              end) by (vm_compute; repeat split).
  destruct (buffer_read_loop _ _ _ _ _ _ _ _) as [[[b d] i]|]; [|contradiction].
  destruct E as (-> & -> & Hb). exists d. split; [reflexivity | exact Hb].
Qed.

(** C2: the one [socket_write_all] of a RESET in state READY fails before
    the first byte: the flag is cleared and the socket has no SUCCESS
    message. *)
Lemma bolt_client_send_reset_write_fails :
  exists c' sk',
    bolt_client_send 4096 0 false example_structure_bytes example_map_bytes
      (set_reset (example_client BS_READY false (mk_index 0 2) (mk_index 0 0)) true)
      (mk_sock_out [] [Some 0%nat])
    = Ok (c', sk') /\
    reset c' = false /\ state c' = BS_READY /\ sent sk' = [].
Proof.
  assert (E : match bolt_client_send 4096 0 false
                      example_structure_bytes example_map_bytes
                      (set_reset (example_client BS_READY false
                                    (mk_index 0 2) (mk_index 0 0)) true)
                      (mk_sock_out [] [Some 0%nat]) with
              | Ok (c', sk') =>
                  reset c' = false /\ state c' = BS_READY /\ sent sk' = []
              | Err _ => False
              end) by (vm_compute; repeat split).
  destruct (bolt_client_send _ _ _ _ _ _ _) as [[c' sk']|]; [|contradiction].
  exists c', sk'. split; [reflexivity | exact E].
Qed.

(** C2 on a session in state FAILED, with PackStream's bytes for the codec
    and a socket that takes what it is given. *)
Lemma bolt_client_send_reset_witness :
  no_fault (mk_sock_out [] [None; None]) /\
  exists c' sk',
    bolt_client_send 4096 0 false example_structure_bytes example_map_bytes
      (set_reset (example_client BS_FAILED false (mk_index 0 2) (mk_index 0 0)) true)
      (mk_sock_out [] [None; None])
    = Ok (c', sk') /\
    reset c' = false /\ state c' = BS_READY /\
    sent sk' = [0; 2; 176; 126; 0; 0; 0; 3; 177; 112; 160; 0; 0].
Proof.
  assert (Hnf : no_fault (mk_sock_out [] [None; None]))
    by (repeat constructor).
  split; [exact Hnf|].
  destruct (bolt_client_send_reset 4096 0 false
              example_structure_bytes example_map_bytes
              chunk_4096_pos chunk_4096_int
              (set_reset (example_client BS_FAILED false (mk_index 0 2) (mk_index 0 0)) true)
              (mk_sock_out [] [None; None]) eq_refl wf_example_chunk
              (conj eq_refl eq_refl) ltac:(discriminate) ltac:(discriminate))
    as (c' & sk' & Hrun & Hr & Hs & Hsent).
  exists c', sk'. split; [exact Hrun|]. split; [exact Hr|]. split; [exact Hs|].
  exact (Hsent Hnf).
Defined.

(** * Instances of the further properties *)

(** A session with an empty outbox: one chunk of zeros, the saved cursor at
    the start, the write cursor behind the empty slot. *)
Lemma outbox_example s w :
  outbox 4096 (example_client s w (mk_index 0 (slot_size w)) (mk_index 0 0)) [] [].
Proof.
  split.
  - split; [exact wf_example_chunk|].
    split; unfold valid_index, array_len, zlen; destruct w; simpl; lia.
  - exists (if w then [0; 0; 0; 0] else [0; 0]).
    destruct w; repeat split.
Qed.

Lemma valid_example_index o :
  0 <= o <= 4096 -> valid_index 4096 [example_chunk] (mk_index 0 o).
Proof. intros H. unfold valid_index, array_len, zlen. simpl. lia. Qed.

Lemma room_example : 4096 * array_len [example_chunk] < 2 ^ 32.
Proof. unfold array_len, zlen. simpl. lia. Qed.

Lemma buffer_index_bounds_witness :
  0 <= 100 < 2 ^ 32 /\ 4096 * array_len [example_chunk] < 2 ^ 32 /\
  buffer_index 4096 [example_chunk] 100 = Ok (normalized 4096 100) /\
  pos 4096 (normalized 4096 100) = 100.
Proof.
  assert (H0 : 0 <= 100 < 2 ^ 32) by lia.
  split; [exact H0|]. split; [exact room_example|].
  destruct (buffer_index_bounds 4096 chunk_4096_pos [example_chunk] 100
              H0 room_example) as [Hin _].
  destruct Hin as (Hi & _ & _ & Hp).
  - unfold array_len, zlen. simpl. lia.
  - split; [exact Hi | exact Hp].
Defined.

(** Four bytes written two bytes before the end of the only chunk: a chunk
    is allocated, the bytes are found at position 4094 and the first bytes
    of the buffer are what they were. *)
Lemma buffer_write_stores_witness :
  wf_chunks 4096 [example_chunk] /\
  valid_index 4096 [example_chunk] (mk_index 0 4094) /\
  zlen [1; 2; 3; 4] < 2 ^ 31 /\
  exists chs' buf',
    buffer_write 4096 0 [example_chunk] (mk_index 0 4094) [1; 2; 3; 4]
    = Ok (chs', buf') /\
    pos 4096 buf' = 4098 /\
    bytes_at chs' 4094 4 = [1; 2; 3; 4] /\
    bytes_at chs' 0 10 = bytes_at [example_chunk] 0 10 /\
    zlen (contents chs') < 4098 + 4096.
Proof.
  assert (Hv : valid_index 4096 [example_chunk] (mk_index 0 4094))
    by (apply valid_example_index; lia).
  assert (Hl : zlen [1; 2; 3; 4] < 2 ^ 31) by (unfold zlen; simpl; lia).
  split; [exact wf_example_chunk|]. split; [exact Hv|]. split; [exact Hl|].
  destruct (buffer_write_stores 4096 0 chunk_4096_pos chunk_4096_int
              [1; 2; 3; 4] [example_chunk] (mk_index 0 4094)
              wf_example_chunk Hv Hl)
    as (chs' & buf' & Hw & _ & _ & Hp & Hb & Hk & _ & Hg).
  pose proof (zlen_contents 4096 chunk_4096_pos _ wf_example_chunk) as Hz.
  change (array_len [example_chunk] * 4096) with 4096 in Hz.
  change (pos 4096 (mk_index 0 4094)) with 4094 in *.
  change (zlen [1; 2; 3; 4]) with 4 in *.
  exists chs', buf'. split; [exact Hw|]. split; [exact Hp|].
  split; [exact Hb|]. split.
  - apply Hk; lia.
  - rewrite Hp in Hg. apply Hg. lia.
Defined.

Lemma buffer_read_uint_past_chunk_witness :
  wf_chunks 4096 (replicate 2 example_chunk) /\
  valid_index 4096 (replicate 2 example_chunk) (mk_index 0 4094) /\
  0 < 4 /\ 4096 < offset (mk_index 0 4094) + 4 /\
  4 <= buffer_index_diff 4096 (mk_index 1 2) (mk_index 0 4094) /\
  buffer_read_uint 4096 false 4 (replicate 2 example_chunk)
    (mk_index 1 2) (mk_index 0 4094)
  = Err OutOfBounds.
Proof.
  assert (Hv : valid_index 4096 (replicate 2 example_chunk) (mk_index 0 4094))
    by (unfold valid_index, array_len, zlen; simpl; lia).
  assert (H0 : 0 < 4) by lia.
  assert (H1 : 4096 < offset (mk_index 0 4094) + 4) by (simpl; lia).
  assert (H2 : 4 <= buffer_index_diff 4096 (mk_index 1 2) (mk_index 0 4094))
    by (vm_compute; discriminate).
  split; [exact (wf_example_chunks 2)|]. split; [exact Hv|].
  split; [exact H0|]. split; [exact H1|]. split; [exact H2|].
  exact (buffer_read_uint_past_chunk 4096 false chunk_4096_pos 4 _ _ _
           (wf_example_chunks 2) Hv H0 H1 H2).
Defined.

Lemma buffer_read_uint_short_witness :
  pos 4096 (mk_index 0 0) <= pos 4096 (mk_index 0 2) < pos 4096 (mk_index 0 0) + 4 /\
  4 <= 65536 /\
  buffer_read_uint 4096 false 4 [example_chunk] (mk_index 0 2) (mk_index 0 0)
  = Err AssertFailed.
Proof.
  assert (H0 : pos 4096 (mk_index 0 0) <= pos 4096 (mk_index 0 2)
               < pos 4096 (mk_index 0 0) + 4) by (unfold pos; simpl; lia).
  assert (H1 : 4 <= 65536) by lia.
  split; [exact H0|]. split; [exact H1|].
  exact (buffer_read_uint_short 4096 false 4 [example_chunk] _ _ H0 H1).
Defined.

(** Two chunks of four bytes with the cursor in the second: a socket
    without fault gets six bytes; a socket whose second write fails after
    one byte gets the first chunk and that byte. *)
Lemma buffer_socket_write_sends_witness :
  wf_chunks 4 [[1; 2; 3; 4]; [5; 6; 7; 8]] /\
  valid_index 4 [[1; 2; 3; 4]; [5; 6; 7; 8]] (mk_index 1 2) /\
  no_fault (mk_sock_out [9] []) /\
  (exists sk',
     buffer_socket_write 4 [[1; 2; 3; 4]; [5; 6; 7; 8]] (mk_index 1 2)
       (mk_sock_out [9] [])
     = Ok (sk', true) /\
     sent sk' = [9; 1; 2; 3; 4; 5; 6]) /\
  buffer_socket_write 4 [[1; 2; 3; 4]; [5; 6; 7; 8]] (mk_index 1 2)
    (mk_sock_out [9] [None; Some 1%nat])
  = Ok (mk_sock_out [9; 1; 2; 3; 4; 5] [], false).
Proof.
  assert (Hwf : wf_chunks 4 [[1; 2; 3; 4]; [5; 6; 7; 8]])
    by (repeat constructor).
  assert (Hv : valid_index 4 [[1; 2; 3; 4]; [5; 6; 7; 8]] (mk_index 1 2))
    by (unfold valid_index, array_len, zlen; simpl; lia).
  assert (Hnf : no_fault (mk_sock_out [9] [])) by constructor.
  split; [exact Hwf|]. split; [exact Hv|]. split; [exact Hnf|]. split.
  - destruct (proj1 (buffer_socket_write_sends 4 eq_refl
                       [[1; 2; 3; 4]; [5; 6; 7; 8]] (mk_index 1 2)
                       (mk_sock_out [9] []) Hwf Hv) Hnf)
      as (sk' & Hrun & _ & Hsent).
    exists sk'. split; [exact Hrun | exact Hsent].
  - apply (proj2 (buffer_socket_write_sends 4 eq_refl
                    [[1; 2; 3; 4]; [5; 6; 7; 8]] (mk_index 1 2)
                    (mk_sock_out [9] [None; Some 1%nat]) Hwf Hv)
             1%nat 1%nat []); [reflexivity | simpl; lia].
Defined.

Lemma buffer_socket_read_closed_witness :
  wf_chunks 4096 [example_chunk] /\
  valid_index 4096 [example_chunk] (mk_index 0 5) /\
  5 < 4096 /\ (SockEOF = SockError \/ SockEOF = SockEOF) /\
  buffer_socket_read 4096 0
    (mk_buffer [example_chunk] (mk_index 0 0) (mk_index 0 5)) [SockEOF]
  = Ok (mk_buffer [example_chunk] (mk_index 0 0) (mk_index 0 5), [], false).
Proof.
  assert (Hv : valid_index 4096 [example_chunk] (mk_index 0 5))
    by (apply valid_example_index; lia).
  assert (H5 : 5 < 4096) by lia.
  assert (He : SockEOF = SockError \/ SockEOF = SockEOF) by (right; reflexivity).
  split; [exact wf_example_chunk|]. split; [exact Hv|].
  split; [exact H5|]. split; [exact He|].
  exact (buffer_socket_read_closed 4096 0 chunk_4096_pos
           (mk_buffer [example_chunk] (mk_index 0 0) (mk_index 0 5))
           SockEOF [] wf_example_chunk Hv H5 He).
Defined.

Lemma buffer_socket_read_burst_witness :
  wf_chunks 4096 [example_chunk] /\
  0 <= 0 /\ 0 + 1 = array_len [example_chunk] /\ 0 <= 5 < 4096 /\
  [1; 2; 3] <> [] /\ (5 + zlen [1; 2; 3]) mod 4096 <> 0 /\
  exists buf',
    buffer_socket_read 4096 0
      (mk_buffer [example_chunk] (mk_index 0 0) (mk_index 0 5))
      [SockData [1; 2; 3]]
    = Ok (buf', [], true) /\
    write buf' = normalized 4096 (5 + 3) /\
    take (Z.to_nat (5 + 3)) (contents (chunks buf')) = [0; 0; 0; 0; 0; 1; 2; 3].
Proof.
  assert (H0 : 0 <= 0) by lia.
  assert (H1 : 0 + 1 = array_len [example_chunk]) by reflexivity.
  assert (H2 : 0 <= 5 < 4096) by lia.
  assert (H3 : [1; 2; 3] <> @nil Z) by discriminate.
  assert (H4 : (5 + zlen [1; 2; 3]) mod 4096 <> 0) by (vm_compute; discriminate).
  split; [exact wf_example_chunk|]. split; [exact H0|]. split; [exact H1|].
  split; [exact H2|]. split; [exact H3|]. split; [exact H4|].
  destruct (buffer_socket_read_burst 4096 0 chunk_4096_pos chunk_4096_int
              (mk_buffer [example_chunk] (mk_index 0 0) (mk_index 0 5))
              [1; 2; 3] [] wf_example_chunk H0 H1 H2 H3 H4)
    as (buf' & Hr & _ & _ & Hw & _ & Ht).
  exists buf'. split; [exact Hr|]. split; [exact Hw | exact Ht].
Defined.

Lemma bolt_change_client_state_never_enters_witness :
  bolt_change_client_state
    (example_client BS_NEGOTIATION false (mk_index 0 2) (mk_index 0 0))
    BST_HELLO BST_RECORD
  = Ok (example_client BS_NEGOTIATION false (mk_index 0 2) (mk_index 0 0)) /\
  BST_RECORD = BST_RECORD.
Proof.
  split; [reflexivity|].
  exact (proj1 (bolt_change_client_state_never_enters
                  (example_client BS_NEGOTIATION false (mk_index 0 2) (mk_index 0 0))
                  BST_HELLO BST_RECORD
                  (example_client BS_NEGOTIATION false (mk_index 0 2) (mk_index 0 0))
                  eq_refl (or_introl eq_refl))).
Defined.

Lemma bolt_change_client_state_goodbye_witness :
  BST_SUCCESS <> BST_RECORD /\
  bolt_change_client_state
    (example_client BS_STREAMING false (mk_index 0 2) (mk_index 0 0))
    BST_GOODBYE BST_SUCCESS
  = Ok (example_client BS_DEFUNCT false (mk_index 0 2) (mk_index 0 0)).
Proof.
  assert (H : BST_SUCCESS <> BST_RECORD) by discriminate.
  split; [exact H|].
  exact (bolt_change_client_state_goodbye
           (example_client BS_STREAMING false (mk_index 0 2) (mk_index 0 0))
           BST_SUCCESS H).
Defined.

Lemma bolt_change_client_states_defunct_witness :
  bolt_change_client_states
    (example_client BS_DEFUNCT false (mk_index 0 2) (mk_index 0 0))
    [(BST_RUN, BST_RECORD); (BST_PULL, BST_RECORD)]
  = Ok (example_client BS_DEFUNCT false (mk_index 0 2) (mk_index 0 0)) /\
  Forall (fun p => snd p = BST_RECORD)
    [(BST_RUN, BST_RECORD); (BST_PULL, BST_RECORD)].
Proof.
  split; [reflexivity|].
  exact (proj2 (bolt_change_client_states_defunct
                  (example_client BS_DEFUNCT false (mk_index 0 2) (mk_index 0 0))
                  [(BST_RUN, BST_RECORD); (BST_PULL, BST_RECORD)]
                  (example_client BS_DEFUNCT false (mk_index 0 2) (mk_index 0 0))
                  eq_refl eq_refl)).
Defined.

Lemma bolt_change_client_states_login_witness :
  bolt_change_client_states
    (example_client BS_NEGOTIATION false (mk_index 0 2) (mk_index 0 0))
    [(BST_HELLO, BST_SUCCESS); (BST_RECORD, BST_RECORD); (BST_LOGON, BST_SUCCESS)]
  = Ok (example_client BS_READY false (mk_index 0 2) (mk_index 0 0)) /\
  exists l1 l2 l3,
    [(BST_HELLO, BST_SUCCESS); (BST_RECORD, BST_RECORD); (BST_LOGON, BST_SUCCESS)]
    = l1 ++ (BST_HELLO, BST_SUCCESS) :: l2 ++ (BST_LOGON, BST_SUCCESS) :: l3.
Proof.
  split; [reflexivity|].
  exact (bolt_change_client_states_login
           (example_client BS_NEGOTIATION false (mk_index 0 2) (mk_index 0 0))
           [(BST_HELLO, BST_SUCCESS); (BST_RECORD, BST_RECORD);
            (BST_LOGON, BST_SUCCESS)]
           (example_client BS_READY false (mk_index 0 2) (mk_index 0 0))
           eq_refl eq_refl eq_refl).
Defined.

Lemma bolt_change_client_states_failed_witness :
  bolt_change_client_states
    (example_client BS_FAILED false (mk_index 0 2) (mk_index 0 0))
    [(BST_PULL, BST_IGNORED); (BST_RESET, BST_SUCCESS)]
  = Ok (example_client BS_READY false (mk_index 0 2) (mk_index 0 0)) /\
  exists response,
    In (BST_RESET, response) [(BST_PULL, BST_IGNORED); (BST_RESET, BST_SUCCESS)].
Proof.
  split; [reflexivity|].
  exact (bolt_change_client_states_failed
           (example_client BS_FAILED false (mk_index 0 2) (mk_index 0 0))
           [(BST_PULL, BST_IGNORED); (BST_RESET, BST_SUCCESS)]
           (example_client BS_READY false (mk_index 0 2) (mk_index 0 0))
           eq_refl eq_refl ltac:(discriminate) ltac:(discriminate)).
Defined.

(** A new session on a heap that holds the byte 9. *)
Lemma bolt_client_new_session_witness :
  0 < 7 /\ 1 <> 0 /\
  exists c,
    bolt_client_new 4096 9 false 7 1 1 = Ok c /\
    state c = BS_NEGOTIATION /\ ws c = false /\
    outbox 4096 c [] [] /\ slot_zeroed 4096 c.
Proof.
  assert (H0 : 0 < 7) by lia.
  assert (H1 : 1 <> 0) by discriminate.
  split; [exact H0|]. split; [exact H1|].
  destruct (bolt_client_new_session 4096 9 false chunk_4096_pos chunk_4096_int
              7 1 1 H0 H1 H1)
    as (c & Hn & _ & _ & _ & Hs & Hw & _ & _ & _ & _ & _ & Ho & Hz).
  exists c. split; [exact Hn|]. split; [exact Hs|]. split; [exact Hw|].
  split; [exact Ho | exact Hz].
Defined.

(** A SUCCESS reply to RUN in state READY: the header 177 112 is the payload
    so far and the session is in state STREAMING. *)
Lemma bolt_client_reply_for_appends_witness :
  outbox 4096 (example_client BS_READY false (mk_index 0 2) (mk_index 0 0)) [] [] /\
  zlen (example_structure_bytes BST_SUCCESS 1) < 2 ^ 31 /\
  bolt_change_client_state
    (example_client BS_READY false (mk_index 0 2) (mk_index 0 0))
    BST_RUN BST_SUCCESS
  = Ok (example_client BS_STREAMING false (mk_index 0 2) (mk_index 0 0)) /\
  exists c',
    bolt_client_reply_for 4096 0 example_structure_bytes
      (example_client BS_READY false (mk_index 0 2) (mk_index 0 0))
      BST_RUN BST_SUCCESS 1 = Ok c' /\
    state c' = BS_STREAMING /\
    outbox 4096 c' [] [177; 112].
Proof.
  assert (Hl : zlen (example_structure_bytes BST_SUCCESS 1) < 2 ^ 31)
    by (unfold zlen; simpl; lia).
  split; [exact (outbox_example BS_READY false)|]. split; [exact Hl|].
  split; [reflexivity|].
  destruct (bolt_client_reply_for_appends 4096 0 example_structure_bytes
              chunk_4096_pos chunk_4096_int
              (example_client BS_READY false (mk_index 0 2) (mk_index 0 0))
              [] [] BST_RUN BST_SUCCESS 1
              (example_client BS_STREAMING false (mk_index 0 2) (mk_index 0 0))
              (outbox_example BS_READY false) Hl eq_refl)
    as (c' & Hr & Hs & Ho & _).
  exists c'. split; [exact Hr|]. split; [exact Hs | exact Ho].
Defined.

(** A write buffer that starts with the given bytes, the saved cursor
    behind the finished messages, the write cursor behind slot and
    payload. *)
Lemma outbox_example_of s w bytes frames X P msgs :
  bytes = frames ++ X ++ P ->
  frames = concat (map (outbound_frame w) msgs) ->
  zlen X = slot_size w ->
  zlen bytes <= 4096 ->
  outbox 4096
    (example_client_of s w bytes (mk_index 0 (zlen bytes)) (mk_index 0 (zlen frames)))
    msgs P.
Proof.
  intros Hb Hf HX Hlen.
  pose proof (zlen_nonneg bytes). pose proof (zlen_nonneg frames).
  pose proof (zlen_nonneg P).
  assert (Hfl : zlen bytes = zlen frames + zlen X + zlen P)
    by (rewrite Hb, !zlen_app; lia).
  split.
  - split.
    { apply Forall_singleton, wf_example_chunk_of. unfold zlen in *. lia. }
    cbn [example_client_of write_buf chunks write client_write].
    split; unfold valid_index, array_len, zlen in *; simpl; lia.
  - exists X. cbn [example_client_of write_buf chunks write client_write ws].
    split; [exact HX|]. rewrite <- Hf. unfold pos. cbn [chunk offset].
    split; [|split; lia].
    unfold contents. cbn [concat]. rewrite app_nil_r.
    unfold example_chunk_of.
    replace (Z.to_nat (0 * 4096 + zlen bytes)) with (length bytes)
      by (unfold zlen; lia).
    rewrite take_app_length. exact Hb.
Qed.

(** The payload 177 112 160 behind a four-byte slot in WebSocket mode, in
    a buffer that holds the byte 9 elsewhere. *)
Lemma bolt_client_end_message_closes_witness :
  outbox 4096
    (example_client_of BS_READY true [9; 9; 9; 9; 177; 112; 160]
       (mk_index 0 7) (mk_index 0 0)) [] [177; 112; 160] /\
  slot_size true + zlen [177; 112; 160] < 65536 /\
  exists c',
    bolt_client_end_message 4096 0 false
      (example_client_of BS_READY true [9; 9; 9; 9; 177; 112; 160]
         (mk_index 0 7) (mk_index 0 0)) = Ok c' /\
    outbox 4096 c' [[177; 112; 160]] [] /\ slot_zeroed 4096 c'.
Proof.
  assert (Ho : outbox 4096
                 (example_client_of BS_READY true [9; 9; 9; 9; 177; 112; 160]
                    (mk_index 0 7) (mk_index 0 0)) [] [177; 112; 160]).
  { apply (outbox_example_of BS_READY true [9; 9; 9; 9; 177; 112; 160]
             [] [9; 9; 9; 9] [177; 112; 160] []);
      [reflexivity | reflexivity | reflexivity | unfold zlen; simpl; lia]. }
  assert (Hl : slot_size true + zlen [177; 112; 160] < 65536)
    by (unfold zlen; simpl; lia).
  split; [exact Ho|]. split; [exact Hl|].
  destruct (bolt_client_end_message_closes 4096 0 false
              chunk_4096_pos chunk_4096_int _ [] [177; 112; 160] Ho Hl)
    as (c' & Hr & _ & Ho' & Hz).
  exists c'. split; [exact Hr|]. split; [exact Ho' | exact Hz].
Defined.

(** One finished message and a slot that holds the byte 9: the socket gets
    the message and the slot of the next one is zeroed. *)
Lemma bolt_client_send_flushes_witness :
  outbox 4096
    (example_client_of BS_READY false [0; 3; 177; 112; 160; 0; 0; 9; 9]
       (mk_index 0 9) (mk_index 0 7)) [[177; 112; 160]] [] /\
  4096 * array_len [example_chunk_of [0; 3; 177; 112; 160; 0; 0; 9; 9]] < 2 ^ 32 /\
  no_fault (mk_sock_out [5] []) /\
  exists c' sk',
    bolt_client_send 4096 0 false example_structure_bytes example_map_bytes
      (example_client_of BS_READY false [0; 3; 177; 112; 160; 0; 0; 9; 9]
         (mk_index 0 9) (mk_index 0 7))
      (mk_sock_out [5] [])
    = Ok (c', sk') /\
    outbox 4096 c' [] [] /\ slot_zeroed 4096 c' /\
    sent sk' = [5; 0; 3; 177; 112; 160; 0; 0].
Proof.
  assert (Ho : outbox 4096
                 (example_client_of BS_READY false [0; 3; 177; 112; 160; 0; 0; 9; 9]
                    (mk_index 0 9) (mk_index 0 7)) [[177; 112; 160]] []).
  { apply (outbox_example_of BS_READY false [0; 3; 177; 112; 160; 0; 0; 9; 9]
             [0; 3; 177; 112; 160; 0; 0] [9; 9] [] [[177; 112; 160]]);
      [reflexivity | reflexivity | reflexivity | unfold zlen; simpl; lia]. }
  assert (Hroom : 4096 * array_len [example_chunk_of [0; 3; 177; 112; 160; 0; 0; 9; 9]]
                  < 2 ^ 32) by (unfold array_len, zlen; simpl; lia).
  assert (Hnf : no_fault (mk_sock_out [5] [])) by constructor.
  split; [exact Ho|]. split; [exact Hroom|]. split; [exact Hnf|].
  destruct (bolt_client_send_flushes 4096 0 false
              example_structure_bytes example_map_bytes
              chunk_4096_pos chunk_4096_int
              (example_client_of BS_READY false [0; 3; 177; 112; 160; 0; 0; 9; 9]
                 (mk_index 0 9) (mk_index 0 7))
              (mk_sock_out [5] []) [[177; 112; 160]] [] eq_refl Ho Hroom)
    as (c' & sk' & Hr & _ & Ho' & Hz & Hsent).
  exists c', sk'. split; [exact Hr|]. split; [exact Ho'|]. split; [exact Hz|].
  exact (proj2 (Hsent Hnf)).
Defined.

(** The SUCCESS reply to RUN, from the header to the socket, in a buffer
    that holds the byte 9: the socket gets the chunk length 3, the header,
    the empty map and the terminator. *)
Lemma bolt_reply_round_witness :
  outbox 4096
    (example_client_of BS_READY false [9; 9] (mk_index 0 2) (mk_index 0 0)) [] [] /\
  no_fault (mk_sock_out [] []) /\
  exists c' sk',
    (do c1 <- bolt_client_reply_for 4096 0 example_structure_bytes
                (example_client_of BS_READY false [9; 9] (mk_index 0 2) (mk_index 0 0))
                BST_RUN BST_SUCCESS 1;
     do c2 <- bolt_reply_map 4096 0 example_map_bytes c1 0;
     do c3 <- bolt_client_end_message 4096 0 false c2;
     bolt_client_send 4096 0 false example_structure_bytes example_map_bytes c3
       (mk_sock_out [] []))
    = Ok (c', sk') /\
    state c' = BS_STREAMING /\ outbox 4096 c' [] [] /\ slot_zeroed 4096 c' /\
    sent sk' = [0; 3; 177; 112; 160; 0; 0].
Proof.
  assert (Ho : outbox 4096
                 (example_client_of BS_READY false [9; 9]
                    (mk_index 0 2) (mk_index 0 0)) [] []).
  { apply (outbox_example_of BS_READY false [9; 9] [] [9; 9] [] []);
      [reflexivity | reflexivity | reflexivity | unfold zlen; simpl; lia]. }
  assert (Hnf : no_fault (mk_sock_out [] [])) by constructor.
  split; [exact Ho|]. split; [exact Hnf|].
  destruct (bolt_reply_round 4096 0 false example_structure_bytes example_map_bytes
              chunk_4096_pos chunk_4096_int
              (example_client_of BS_READY false [9; 9] (mk_index 0 2) (mk_index 0 0))
              (mk_sock_out [] []) [] BST_RUN BST_SUCCESS 1 0
              (example_client_of BS_STREAMING false [9; 9] (mk_index 0 2) (mk_index 0 0))
              eq_refl Ho eq_refl)
    as (c' & sk' & Hr & Hs & _ & Ho' & Hz & Hsent).
  - unfold zlen. simpl. lia.
  - unfold array_len, zlen. simpl. lia.
  - unfold pos. simpl. lia.
  - exists c', sk'. split; [exact Hr|]. split; [exact Hs|].
    split; [exact Ho'|]. split; [exact Hz|]. exact (Hsent Hnf).
Defined.

(** The first bytes a Bolt client sends, received into an empty buffer. *)
Lemma bolt_check_handshake_magic_witness :
  exists c',
    bolt_check_handshake 4096 false
      (set_read_buf (example_client BS_NEGOTIATION false (mk_index 0 2) (mk_index 0 0))
         (mk_buffer [[96; 96; 176; 23] ++ replicate (Z.to_nat 4092) 0]
            (mk_index 0 0) (mk_index 0 4)))
    = Ok (true, c') /\
    read (read_buf c') = mk_index 0 4.
Proof.
  eexists. split.
  - apply (bolt_check_handshake_magic 4096 false chunk_4096_pos chunk_4096_int
             (set_read_buf
                (example_client BS_NEGOTIATION false (mk_index 0 2) (mk_index 0 0))
                (mk_buffer [[96; 96; 176; 23] ++ replicate (Z.to_nat 4092) 0]
                   (mk_index 0 0) (mk_index 0 4)))
             96 96 176 23).
    + apply Forall_singleton. unfold zlen.
      rewrite length_app, length_replicate. simpl. lia.
    + unfold valid_index, array_len, zlen. simpl. lia.
    + simpl. lia.
    + unfold pos. simpl. lia.
    + reflexivity.
    + repeat constructor; lia.
  - reflexivity.
Defined.

(** A RESET in WebSocket mode, state READY, on a socket whose write
    fails. *)
Lemma bolt_client_send_reset_slot_witness :
  exists c' sk',
    bolt_client_send 4096 0 false example_structure_bytes example_map_bytes
      (set_reset (example_client BS_READY true (mk_index 0 4) (mk_index 0 0)) true)
      (mk_sock_out [] [Some 3%nat])
    = Ok (c', sk') /\
    ws c' = true /\
    pos 4096 (client_write c') = 0 /\ pos 4096 (write (write_buf c')) = 2.
Proof.
  destruct (bolt_client_send_reset_slot 4096 0 false
              example_structure_bytes example_map_bytes
              chunk_4096_pos chunk_4096_int
              (set_reset (example_client BS_READY true (mk_index 0 4) (mk_index 0 0)) true)
              (mk_sock_out [] [Some 3%nat]) eq_refl wf_example_chunk
              (conj eq_refl eq_refl) ltac:(discriminate) ltac:(discriminate))
    as (c' & sk' & Hrun & Hws & _ & _ & Hc & Hw & _).
  exists c', sk'. split; [exact Hrun|]. split; [exact Hws|].
  split; [exact Hc | exact Hw].
Defined.

(** The reply 177 112 160 composed behind a two-byte slot in WebSocket mode:
    the frame that is finished carries the one byte 160. *)
Lemma bolt_client_end_message_short_slot_witness :
  exists c',
    bolt_client_end_message 4096 0 false
      (set_write_buf (example_client BS_READY true (mk_index 0 5) (mk_index 0 0))
         (mk_buffer [[0; 0; 177; 112; 160] ++ replicate (Z.to_nat 4091) 0]
            (mk_index 0 0) (mk_index 0 5)))
    = Ok c' /\
    bytes_at (chunks (write_buf c')) 0 (pos 4096 (client_write c'))
    = [130; 5; 0; 1; 160; 0; 0].
Proof.
  assert (Hwf : wf_chunks 4096 [[0; 0; 177; 112; 160] ++ replicate (Z.to_nat 4091) 0]).
  { apply Forall_singleton. unfold zlen.
    rewrite length_app, length_replicate. simpl. lia. }
  destruct (bolt_client_end_message_short_slot 4096 0 false
              chunk_4096_pos chunk_4096_int
              (set_write_buf (example_client BS_READY true (mk_index 0 5) (mk_index 0 0))
                 (mk_buffer [[0; 0; 177; 112; 160] ++ replicate (Z.to_nat 4091) 0]
                    (mk_index 0 0) (mk_index 0 5)))
              [177; 112; 160])
    as (c' & Hrun & _ & _ & Hb).
  - reflexivity.
  - split; [exact Hwf|].
    split; unfold valid_index, array_len, zlen; simpl; lia.
  - unfold array_len, zlen. simpl. lia.
  - reflexivity.
  - reflexivity.
  - reflexivity.
  - unfold zlen. simpl. lia.
  - unfold zlen. simpl. lia.
  - exists c'. split; [exact Hrun | exact Hb].
Defined.

(** Six bytes copied from the second byte of a source of two four-byte
    chunks to the last byte of a one-chunk destination: the copy crosses
    the chunk boundary of the source and allocates two chunks. *)
Lemma buffer_read_copies_witness :
  wf_chunks 4 [[1; 2; 3; 4]; [5; 6; 7; 8]] /\
  wf_chunks 4 [[0; 0; 0; 0]] /\
  valid_index 4 [[1; 2; 3; 4]; [5; 6; 7; 8]] (mk_index 0 1) /\
  valid_index 4 [[1; 2; 3; 4]; [5; 6; 7; 8]] (mk_index 1 4) /\
  valid_index 4 [[0; 0; 0; 0]] (mk_index 0 3) /\
  pos 4 (mk_index 0 1) + 6 <= pos 4 (mk_index 1 4) /\
  6 <= buffer_index_diff 4 (mk_index 1 4) (mk_index 0 1) /\
  exists buf' dst_chs' dst',
    buffer_read 4 9 [[1; 2; 3; 4]; [5; 6; 7; 8]] (mk_index 1 4)
      (mk_index 0 1) [[0; 0; 0; 0]] (mk_index 0 3) 6
    = Ok (buf', dst_chs', dst') /\
    bytes_at dst_chs' 3 6 = [2; 3; 4; 5; 6; 7] /\
    bytes_at dst_chs' 0 3 = [0; 0; 0] /\
    pos 4 buf' = 7 /\ pos 4 dst' = 9.
Proof.
  assert (Hws : wf_chunks 4 [[1; 2; 3; 4]; [5; 6; 7; 8]]) by (repeat constructor).
  assert (Hwd : wf_chunks 4 [[0; 0; 0; 0]]) by (repeat constructor).
  assert (Hvb : valid_index 4 [[1; 2; 3; 4]; [5; 6; 7; 8]] (mk_index 0 1))
    by (unfold valid_index, array_len, zlen; simpl; lia).
  assert (Hvw : valid_index 4 [[1; 2; 3; 4]; [5; 6; 7; 8]] (mk_index 1 4))
    by (unfold valid_index, array_len, zlen; simpl; lia).
  assert (Hvd : valid_index 4 [[0; 0; 0; 0]] (mk_index 0 3))
    by (unfold valid_index, array_len, zlen; simpl; lia).
  assert (Hrd : pos 4 (mk_index 0 1) + 6 <= pos 4 (mk_index 1 4))
    by (unfold pos; simpl; lia).
  assert (Has : 6 <= buffer_index_diff 4 (mk_index 1 4) (mk_index 0 1))
    by (vm_compute; discriminate).
  split; [exact Hws|]. split; [exact Hwd|].
  split; [exact Hvb|]. split; [exact Hvw|]. split; [exact Hvd|].
  split; [exact Hrd|]. split; [exact Has|].
  destruct (buffer_read_copies 4 9 eq_refl eq_refl
              [[1; 2; 3; 4]; [5; 6; 7; 8]] (mk_index 1 4) (mk_index 0 1)
              [[0; 0; 0; 0]] (mk_index 0 3) 6
              Hws Hwd Hvb Hvw Hvd ltac:(lia) Hrd Has)
    as (buf' & d' & dst' & Hrun & Hbytes & Hpb & Hpd & _ & _ & _ & Hkeep).
  exists buf', d', dst'. split; [exact Hrun|]. split; [exact Hbytes|].
  split; [|split; [exact Hpb | exact Hpd]].
  apply (Hkeep 0 3); [lia | lia | left; unfold pos; simpl; lia|].
  unfold zlen. simpl. lia.
Defined.
